(** * A shallow embedding of the label-wise attention classifier
      (src/network/caml.py, src/network/base.py) and of its training and
      checkpoint controller (src/model.py).

    Tensors are modelled as a shape together with an index function into the
    real numbers: floating point arithmetic is idealised to real arithmetic,
    shapes and shape errors are kept exactly as the tensor library computes
    them.  Python integers are [Z] or [nat], strings are [string], the
    checkpoint dictionary is a record, the file system is a finite map from
    paths to file contents. *)

From Stdlib Require Import Reals Lra Lia ZArith QArith List String Ascii Bool.
From stdpp Require Import gmap strings.
Import ListNotations.

Local Open Scope nat_scope.

(** ** Exceptions and results *)

Inductive exn : Type :=
| IndexError
| ShapeError                     (* RuntimeError raised by a tensor operation *)
| ZeroDivisionError
| TypeError
| NotImplementedError
| AttributeError
| KeyError (key : string)
| UnpicklingError
| SameFileError
| KeyboardInterrupt
| RuntimeError (msg : string)
| ValueError
| FileNotFoundError (path : string)
| NotADirectoryError
| FileExistsError
| IsADirectoryError.

Inductive result (A : Type) : Type :=
| Ok (a : A)
| Raise (e : exn).
Arguments Ok {A} a.
Arguments Raise {A} e.

Definition bind {A B : Type} (r : result A) (k : A -> result B) : result B :=
  match r with
  | Ok a => k a
  | Raise e => Raise e
  end.

Notation "'let?' x := e 'in' k" := (bind e (fun x => k))
  (at level 10, x name, e at level 100, k at level 200).

Definition is_ok {A : Type} (r : result A) : bool :=
  match r with Ok _ => true | Raise _ => false end.

(** ** Tensors *)

Module Tensor.

Local Open Scope R_scope.

(** Sum of [f 0 .. f (n-1)]. *)
Fixpoint sum_n (n : nat) (f : nat -> R) : R :=
  match n with
  | O => 0
  | S k => sum_n k f + f k
  end.

Record T1 : Type := mkT1 { len1 : nat; get1 : nat -> R }.
Record T2 : Type := mkT2 { shape2 : nat * nat; get2 : nat -> nat -> R }.
Record T3 : Type := mkT3 { shape3 : nat * nat * nat; get3 : nat -> nat -> nat -> R }.

(** A batch of token-id sequences: batch x sequence length. *)
Record Ids : Type := mkIds { ids_shape : nat * nat; get_id : nat -> nat -> nat }.

(** [forall_lt n p] checks [p 0 && .. && p (n-1)]. *)
Fixpoint forall_lt (n : nat) (p : nat -> bool) : bool :=
  match n with
  | O => true
  | S k => forall_lt k p && p k
  end.

(** nn.Embedding: table lookup, an id outside the table raises. *)
Definition embedding (weight : T2) (text : Ids) : result T3 :=
  let '(V, E) := shape2 weight in
  let '(B, T) := ids_shape text in
  if forall_lt B (fun b => forall_lt T (fun t => get_id text b t <? V))%nat
  then Ok (mkT3 (B, T, E) (fun b t e => get2 weight (get_id text b t) e))
  else Raise IndexError.

(** nn.Dropout: every element is multiplied by the entry of a mask; the mask
    is constantly 1 in evaluation mode, and 0 or 1/(1-p) in training mode. *)
Definition dropout (mask : nat -> nat -> nat -> R) (x : T3) : T3 :=
  mkT3 (shape3 x) (fun b t e => get3 x b t e * mask b t e).

(** x.transpose(1,2) *)
Definition transpose12 (x : T3) : T3 :=
  let '(B, M, N) := shape3 x in
  mkT3 (B, N, M) (fun b i j => get3 x b j i).

(** The input of a convolution padded with zeros on both sides. *)
Definition padded (p T : nat) (x : nat -> R) (i : nat) : R :=
  if ((p <=? i) && (i <? p + T))%nat then x (i - p)%nat else 0.

(** nn.Conv1d with stride 1 and dilation 1: input batch x channels x length,
    weight out_channels x in_channels x kernel_size.  The padded input must
    not be shorter than the kernel, and an input without elements is accepted
    only when the batch or the channels are empty. *)
Definition conv1d (weight : T3) (bias : T1) (padding : nat) (x : T3) : result T3 :=
  let '(F, C, k) := shape3 weight in
  let '(B, Cx, T) := shape3 x in
  if negb (Cx =? C)%nat then Raise ShapeError
  else if (T + 2 * padding <? k)%nat then Raise ShapeError
  else if (negb (B =? 0) && negb (Cx =? 0) && (T =? 0))%nat then Raise ShapeError
  else Ok (mkT3 (B, F, T + 2 * padding - k + 1)%nat
             (fun b f t =>
                get1 bias f +
                sum_n C (fun c =>
                  sum_n k (fun j =>
                    get3 weight f c j * padded padding T (get3 x b c) (t + j))))).

Definition tanh3 (x : T3) : T3 :=
  mkT3 (shape3 x) (fun b i j => tanh (get3 x b i j)).

(** [w.matmul(x)] for a matrix [w] and a batch of matrices [x]. *)
Definition matmul23 (w : T2) (x : T3) : result T3 :=
  let '(L, K) := shape2 w in
  let '(B, K', T) := shape3 x in
  if (K =? K')%nat
  then Ok (mkT3 (B, L, T) (fun b l t => sum_n K (fun f => get2 w l f * get3 x b f t)))
  else Raise ShapeError.

(** [a.matmul(x)] for two batches of matrices. *)
Definition matmul33 (a x : T3) : result T3 :=
  let '(B, L, K) := shape3 a in
  let '(B', K', N) := shape3 x in
  if ((B =? B') && (K =? K'))%nat
  then Ok (mkT3 (B, L, N) (fun b l f => sum_n K (fun t => get3 a b l t * get3 x b t f)))
  else Raise ShapeError.

(** torch.softmax(s, dim=2) *)
Definition softmax2 (s : T3) : T3 :=
  let '(B, L, T) := shape3 s in
  mkT3 (B, L, T)
    (fun b l t => exp (get3 s b l t) / sum_n T (fun t' => exp (get3 s b l t'))).

(** Broadcasting of one axis: equal sizes, or one of them is 1. *)
Definition broadcast (a b : nat) : option nat :=
  if (a =? b)%nat then Some a
  else if (a =? 1)%nat then Some b
  else if (b =? 1)%nat then Some a
  else None.

Definition bidx (size i : nat) : nat := if (size =? 1)%nat then 0%nat else i.

(** [w.mul(m)] for a matrix [w] and a batch of matrices [m]. *)
Definition mul23 (w : T2) (m : T3) : result T3 :=
  let '(L, K) := shape2 w in
  let '(B, L', K') := shape3 m in
  match broadcast L L', broadcast K K' with
  | Some l0, Some k0 =>
      Ok (mkT3 (B, l0, k0)
            (fun b l f => get2 w (bidx L l) (bidx K f) * get3 m b (bidx L' l) (bidx K' f)))
  | _, _ => Raise ShapeError
  end.

(** [p.sum(dim=2)] *)
Definition sum_dim2 (p : T3) : T2 :=
  let '(B, L, K) := shape3 p in
  mkT2 (B, L) (fun b l => sum_n K (fun f => get3 p b l f)).

(** [x.add(bias)] for a matrix and a vector. *)
Definition add21 (x : T2) (bias : T1) : result T2 :=
  let '(B, L) := shape2 x in
  match broadcast L (len1 bias) with
  | Some l0 => Ok (mkT2 (B, l0) (fun b l => get2 x b (bidx L l) + get1 bias (bidx (len1 bias) l)))
  | None => Raise ShapeError
  end.

Definition sigmoid (x : R) : R := 1 / (1 + exp (- x)).

Definition sigmoid2 (x : T2) : T2 :=
  mkT2 (shape2 x) (fun b l => sigmoid (get2 x b l)).

End Tensor.

Import Tensor.

(** ** The network: src/network/base.py and src/network/caml.py *)

(** The parameter tensors of the network, as [state_dict()] lists them. *)
Record Weights : Type := mkWeights {
  embedding_weight : T2;       (* embedding.weight: vocabulary x embed dim *)
  conv_weight : T3;            (* conv.weight: filter maps x embed dim x filter size *)
  conv_bias : T1;
  U_weight : T2;               (* U.weight: labels x filter maps *)
  U_bias : T1;
  final_weight : T2;           (* final.weight: labels x filter maps *)
  final_bias : T1
}.

Record CamlConvAttnPool : Type := mkNet {
  params : Weights;
  grads : option Weights;      (* the .grad of the parameters, None while unset *)
  conv_padding : nat;          (* int(floor(filter_size/2)) *)
  dropout_p : Q;
  training : bool              (* set by train() and eval() *)
}.

(** The shapes of the parameter tensors. *)
Definition shapes (w : Weights) :=
  (shape2 (embedding_weight w), shape3 (conv_weight w), len1 (conv_bias w),
   shape2 (U_weight w), len1 (U_bias w),
   shape2 (final_weight w), len1 (final_bias w)).

(** The shapes [__init__] gives the parameters. *)
Definition init_shapes (V E F k L : nat) :=
  ((V, E), (F, E, k), F, (L, F), L, (L, F), L).

(** [self.embed_drop]: nn.Dropout is the identity unless the module is in
    training mode. *)
Definition embed_drop (net : CamlConvAttnPool) (mask : nat -> nat -> nat -> R) (x : T3) : T3 :=
  if training net then dropout mask x else x.

(** Everything [forward] computes on its way. *)
Record Forward : Type := mkForward {
  fw_conv : T3;         (* self.conv(x): batch x filter maps x positions *)
  fw_x : T3;            (* features after tanh: batch x positions x filter maps *)
  fw_alpha : T3;        (* attention: batch x labels x positions *)
  fw_m : T3;            (* document vectors: batch x labels x filter maps *)
  fw_logits : T2        (* batch x labels *)
}.

(** The body of [CamlConvAttnPool.forward]; [mask] is the dropout mask drawn
    for this call, which only a network in training mode uses. *)
Definition forward_steps (net : CamlConvAttnPool) (mask : nat -> nat -> nat -> R)
    (text : Ids) : result Forward :=
  let w := params net in
  let? x := embedding (embedding_weight w) text in
  let x := embed_drop net mask x in
  let x := transpose12 x in
  let? c := conv1d (conv_weight w) (conv_bias w) (conv_padding net) x in
  let x := tanh3 (transpose12 c) in
  let? s := matmul23 (U_weight w) (transpose12 x) in
  let alpha := softmax2 s in
  let? m := matmul33 alpha x in
  let? p := mul23 (final_weight w) m in
  let? l := add21 (sum_dim2 p) (final_bias w) in
  Ok (mkForward c x alpha m l).

(** The dictionary [forward] returns. *)
Record Output : Type := mkOutput { logits : T2; attention : T3 }.

Definition forward (net : CamlConvAttnPool) (mask : nat -> nat -> nat -> R)
    (text : Ids) : result Output :=
  let? fw := forward_steps net mask text in
  Ok (mkOutput (fw_logits fw) (fw_alpha fw)).

(** ** State and exceptions

    Python methods mutate objects and may raise; a raised exception keeps
    every mutation made before it. *)

Definition M (S A : Type) : Type := S -> S * result A.

Definition ret {S A : Type} (a : A) : M S A := fun s => (s, Ok a).
Definition raise {S A : Type} (e : exn) : M S A := fun s => (s, Raise e).
Definition lift {S A : Type} (r : result A) : M S A := fun s => (s, r).
Definition gets {S A : Type} (f : S -> A) : M S A := fun s => (s, Ok (f s)).
Definition modify {S : Type} (f : S -> S) : M S unit := fun s => (f s, Ok tt).

Definition mbind {S A B : Type} (m : M S A) (k : A -> M S B) : M S B :=
  fun s =>
    match m s with
    | (s', Ok a) => k a s'
    | (s', Raise e) => (s', Raise e)
    end.

Notation "'do' x <- e ; k" := (mbind e (fun x => k))
  (at level 10, x name, e at level 100, k at level 200).
Notation "e ;; k" := (mbind e (fun _ => k))
  (at level 100, k at level 200, right associativity).

(** [try: m except KeyboardInterrupt: h] *)
Definition try_except_KeyboardInterrupt {S A : Type} (m h : M S A) : M S A :=
  fun s =>
    match m s with
    | (s', Raise KeyboardInterrupt) => h s'
    | r => r
    end.

(** ** Strings and paths *)

Local Open Scope string_scope.

(** [s.isdigit()] on ASCII strings: not empty and digits only. *)
Definition is_digit (c : ascii) : bool :=
  let n := nat_of_ascii c in ((48 <=? n) && (n <=? 57))%nat.

Fixpoint all_digits (s : string) : bool :=
  match s with
  | EmptyString => true
  | String c s' => is_digit c && all_digits s'
  end.

Definition isdigit (s : string) : bool :=
  negb (String.eqb s "") && all_digits s.

(** [s.replace(old, new)]: every occurrence of [old], from the left, without
    overlaps; [skip] counts the characters of an occurrence still to drop.
    ([old] is not empty in every use.) *)
Fixpoint replace_from (old new : string) (skip : nat) (s : string) : string :=
  match s with
  | EmptyString => EmptyString
  | String c s' =>
      match skip with
      | S n => replace_from old new n s'
      | O =>
          if String.prefix old s
          then new ++ replace_from old new (String.length old - 1) s'
          else String c (replace_from old new 0 s')
      end
  end.

Definition replace (old new s : string) : string := replace_from old new 0 s.

Fixpoint endswith_slash (s : string) : bool :=
  match s with
  | EmptyString => false
  | String c EmptyString => Ascii.eqb c "/"
  | String _ s' => endswith_slash s'
  end.

(** posixpath.join *)
Definition join2 (path b : string) : string :=
  if String.prefix "/" b then b
  else if String.eqb path "" || endswith_slash path then path ++ b
  else path ++ "/" ++ b.

Definition path_join (a : string) (p : list string) : string :=
  fold_left join2 p a.

Fixpoint all_slashes (s : string) : bool :=
  match s with
  | EmptyString => true
  | String c s' => Ascii.eqb c "/" && all_slashes s'
  end.

(** [p[:p.rfind('/') + 1]] *)
Fixpoint upto_last_slash (p : string) : string :=
  match p with
  | EmptyString => EmptyString
  | String c p' =>
      match upto_last_slash p' with
      | EmptyString => if Ascii.eqb c "/" then String c EmptyString else EmptyString
      | h => String c h
      end
  end.

(** [s.rstrip('/')] *)
Fixpoint rstrip_slash (s : string) : string :=
  match s with
  | EmptyString => EmptyString
  | String c s' =>
      match rstrip_slash s' with
      | EmptyString => if Ascii.eqb c "/" then EmptyString else String c EmptyString
      | t => String c t
      end
  end.

(** posixpath.dirname *)
Definition dirname (p : string) : string :=
  let head := upto_last_slash p in
  if negb (String.eqb head "") && negb (all_slashes head)
  then rstrip_slash head
  else head.

(** The directory [d] and the directories above it. *)
Fixpoint ancestors (fuel : nat) (d : string) : list string :=
  match fuel with
  | O => []
  | S n => if all_slashes d then [] else d :: ancestors n (dirname d)
  end.

(** ** Configuration, vocabulary, optimizer, checkpoint *)

(** The configuration object (utils.ArgDict) with the options the model
    reads; [num_class] is absent until [Model.__init__] sets it. *)
Module Config.
Record t : Type := mk {
  device : string;
  embed_file : string;
  optimizer : string;
  learning_rate : Q;
  momentum : Q;
  weight_decay : Q;
  dropout : Q;
  num_filter_maps : nat;
  filter_size : nat;
  epochs : Z;
  patience : Z;
  val_metric : string;
  result_dir : string;
  run_name : string;
  num_class : option nat
}.

Definition set_run_name (c : t) (v : string) : t :=
  mk (device c) (embed_file c) (optimizer c) (learning_rate c) (momentum c)
     (weight_decay c) (dropout c) (num_filter_maps c) (filter_size c) (epochs c)
     (patience c) (val_metric c) (result_dir c) v (num_class c).

Definition set_num_class (c : t) (v : nat) : t :=
  mk (device c) (embed_file c) (optimizer c) (learning_rate c) (momentum c)
     (weight_decay c) (dropout c) (num_filter_maps c) (filter_size c) (epochs c)
     (patience c) (val_metric c) (result_dir c) (run_name c) (Some v).
End Config.

(** The vocabulary: tokens in id order and, once loaded, their vectors. *)
Record Vocab : Type := mkVocab {
  itos : list string;
  vectors : option T2
}.

Definition set_vectors (v : Vocab) (weights : T2) : Vocab :=
  mkVocab (itos v) (Some weights).

Inductive optim_kind : Type := SGD | Adam.

(** What [optimizer.state_dict()] holds: the hyperparameters of the parameter
    group and the per-parameter buffers. *)
Record OptimState : Type := mkOptimState {
  hyper : list (string * Q);
  buffers : list Weights;
  steps : nat
}.

Record Optimizer : Type := mkOptimizer {
  kind : optim_kind;
  optim_state : OptimState
}.

(** The checkpoint dictionary of [Model.save]. *)
Module Ckpt.
Record t : Type := mk {
  epoch : Z;
  run_name : string;
  state_dict : Weights;
  word_dict : Vocab;
  classes : list string;
  optimizer : OptimState;
  best_metric : Q
}.
End Ckpt.

(** ** The file system

    Paths are compared as strings.  A file holds a serialized checkpoint or
    other data; the serialized form of a checkpoint is identified with the
    checkpoint it deserializes to. *)

Inductive File : Type :=
| CkptFile (c : Ckpt.t)
| DataFile.

Record FS : Type := mkFS {
  dirs : gset string;
  files : gmap string File
}.

(** The working directory and the root always exist. *)
Definition dir_exists (fs : FS) (d : string) : bool :=
  all_slashes d || bool_decide (d ∈ dirs fs).

Definition is_file (fs : FS) (p : string) : bool :=
  match files fs !! p with Some _ => true | None => false end.

(** os.path.exists *)
Definition path_exists (fs : FS) (p : string) : bool :=
  is_file fs p || (negb (String.eqb p "") && dir_exists fs p).

(** Whether a regular file is at [d] or at a directory above it. *)
Definition file_on_the_way (fs : FS) (d : string) : bool :=
  existsb (is_file fs) (ancestors (String.length d) d).

(** os.makedirs(d, exist_ok=True): the directories above [d] that are
    missing are made first; a regular file above [d] or at [d] makes it
    raise. *)
Definition makedirs (d : string) (fs : FS) : result FS :=
  let above := ancestors (String.length d) d in
  if String.eqb d "" then Raise (FileNotFoundError d)
  else if existsb (is_file fs) (tail above) then Raise NotADirectoryError
  else if is_file fs d && negb (dir_exists fs d) then Raise FileExistsError
  else Ok (mkFS (dirs fs ∪ list_to_set above) (files fs)).

(** [open(p, 'w')] and writing [f]: the path must not lead through a
    regular file, its directory must exist, and it must not name a
    directory. *)
Definition write_file (p : string) (f : File) (fs : FS) : result FS :=
  if String.eqb p "" then Raise (FileNotFoundError p)
  else if file_on_the_way fs (dirname p) then Raise NotADirectoryError
  else if negb (dir_exists fs (dirname p)) then Raise (FileNotFoundError p)
  else if dir_exists fs p || endswith_slash p then Raise IsADirectoryError
  else Ok (mkFS (dirs fs) (<[p := f]> (files fs))).

(** torch.save *)
Definition torch_save (c : Ckpt.t) (p : string) (fs : FS) : result FS :=
  write_file p (CkptFile c) fs.

(** torch.load *)
Definition torch_load (p : string) (fs : FS) : result Ckpt.t :=
  match files fs !! p with
  | None => Raise (FileNotFoundError p)
  | Some DataFile => Raise UnpicklingError
  | Some (CkptFile c) => Ok c
  end.

(** shutil.copyfile: the content of [src] is written to [dst]. *)
Definition copyfile (src dst : string) (fs : FS) : result FS :=
  if String.eqb src dst then Raise SameFileError
  else match files fs !! src with
       | None => Raise (FileNotFoundError src)
       | Some content => write_file dst content fs
       end.

(** ** Network construction and parameters *)

(** The values drawn for the freshly constructed layers (Xavier for the
    weights, the layers' default for the biases). *)
Record Draw : Type := mkDraw {
  draw_conv_weight : nat -> nat -> nat -> R;
  draw_conv_bias : nat -> R;
  draw_U_weight : nat -> nat -> R;
  draw_U_bias : nat -> R;
  draw_final_weight : nat -> nat -> R;
  draw_final_bias : nat -> R
}.

(** [CamlConvAttnPool.__init__] after [BaseModel.__init__]. *)
Definition CamlConvAttnPool_init (config : Config.t) (embed_vecs : T2) (d : Draw)
    : result CamlConvAttnPool :=
  let '(_, E) := shape2 embed_vecs in
  let num_filter_maps := Config.num_filter_maps config in
  let filter_size := Config.filter_size config in
  match Config.num_class config with
  | None => Raise AttributeError
  | Some num_class =>
      Ok (mkNet
            (mkWeights
               (mkT2 (shape2 embed_vecs) (get2 embed_vecs))
               (mkT3 (num_filter_maps, E, filter_size) (draw_conv_weight d))
               (mkT1 num_filter_maps (draw_conv_bias d))
               (mkT2 (num_class, num_filter_maps) (draw_U_weight d))
               (mkT1 num_class (draw_U_bias d))
               (mkT2 (num_class, num_filter_maps) (draw_final_weight d))
               (mkT1 num_class (draw_final_bias d)))
            None
            (filter_size / 2)
            (Config.dropout config)
            true)
  end.

Definition set_training (b : bool) (net : CamlConvAttnPool) : CamlConvAttnPool :=
  mkNet (params net) (grads net) (conv_padding net) (dropout_p net) b.

Definition set_grads (g : option Weights) (net : CamlConvAttnPool) : CamlConvAttnPool :=
  mkNet (params net) g (conv_padding net) (dropout_p net) (training net).

Definition set_params (w : Weights) (net : CamlConvAttnPool) : CamlConvAttnPool :=
  mkNet w (grads net) (conv_padding net) (dropout_p net) (training net).

(** [network.load_state_dict(sd)]: the shapes have to agree. *)
Definition shapes_eqb (a b : Weights) : bool :=
  bool_decide (shapes a = shapes b).

Definition load_state_dict (sd : Weights) (net : CamlConvAttnPool) : result CamlConvAttnPool :=
  if shapes_eqb (params net) sd then Ok (set_params sd net)
  else Raise (RuntimeError "size mismatch").

(** torch.clamp(x, -c, c) *)
Definition clamp (c x : R) : R := Rmin (Rmax x (- c)) c.

Definition map_weights (f : R -> R) (w : Weights) : Weights :=
  mkWeights
    (mkT2 (shape2 (embedding_weight w)) (fun i j => f (get2 (embedding_weight w) i j)))
    (mkT3 (shape3 (conv_weight w)) (fun i j k => f (get3 (conv_weight w) i j k)))
    (mkT1 (len1 (conv_bias w)) (fun i => f (get1 (conv_bias w) i)))
    (mkT2 (shape2 (U_weight w)) (fun i j => f (get2 (U_weight w) i j)))
    (mkT1 (len1 (U_bias w)) (fun i => f (get1 (U_bias w) i)))
    (mkT2 (shape2 (final_weight w)) (fun i j => f (get2 (final_weight w) i j)))
    (mkT1 (len1 (final_bias w)) (fun i => f (get1 (final_bias w) i))).

Definition add_weights (a b : Weights) : Weights :=
  mkWeights
    (mkT2 (shape2 (embedding_weight a))
       (fun i j => get2 (embedding_weight a) i j + get2 (embedding_weight b) i j)%R)
    (mkT3 (shape3 (conv_weight a))
       (fun i j k => get3 (conv_weight a) i j k + get3 (conv_weight b) i j k)%R)
    (mkT1 (len1 (conv_bias a)) (fun i => get1 (conv_bias a) i + get1 (conv_bias b) i)%R)
    (mkT2 (shape2 (U_weight a)) (fun i j => get2 (U_weight a) i j + get2 (U_weight b) i j)%R)
    (mkT1 (len1 (U_bias a)) (fun i => get1 (U_bias a) i + get1 (U_bias b) i)%R)
    (mkT2 (shape2 (final_weight a))
       (fun i j => get2 (final_weight a) i j + get2 (final_weight b) i j)%R)
    (mkT1 (len1 (final_bias a)) (fun i => get1 (final_bias a) i + get1 (final_bias b) i)%R).

(** torch.nn.utils.clip_grad_value_: parameters without a gradient are
    skipped. *)
Definition clip_grad_value_ (clip_value : R) (net : CamlConvAttnPool) : CamlConvAttnPool :=
  set_grads (option_map (map_weights (clamp clip_value)) (grads net)) net.

(** ** The model: src/model.py *)

Record Batch : Type := mkBatch {
  text : Ids;
  label : T2
}.

Record Model : Type := mkModel {
  config : Config.t;           (* the caller's configuration object, not a copy *)
  device : string;
  start_epoch : Z;
  word_dict : Vocab;
  classes : list string;
  best_metric : Q;
  network : CamlConvAttnPool;
  optimizer : Optimizer
}.

Definition set_config (c : Config.t) (m : Model) : Model :=
  mkModel c (device m) (start_epoch m) (word_dict m) (classes m) (best_metric m)
          (network m) (optimizer m).

Definition set_best_metric (v : Q) (m : Model) : Model :=
  mkModel (config m) (device m) (start_epoch m) (word_dict m) (classes m) v
          (network m) (optimizer m).

Definition set_network (n : CamlConvAttnPool) (m : Model) : Model :=
  mkModel (config m) (device m) (start_epoch m) (word_dict m) (classes m)
          (best_metric m) n (optimizer m).

Definition set_optimizer (o : Optimizer) (m : Model) : Model :=
  mkModel (config m) (device m) (start_epoch m) (word_dict m) (classes m)
          (best_metric m) (network m) o.

(** The collaborators outside the sources: embedding loading and data
    loading (data_utils, torchtext), evaluation (evaluate), random draws,
    automatic differentiation and the optimizers' update rules (torch). *)
Record Env : Type := mkEnv {
  Dataset : Type;
  Metric : Type;
  get_embedding_weights_from_file : Vocab -> string -> T2;
  load_vectors : Vocab -> string -> result T2;
  xavier : Draw;
  get_dataset_loader : Config.t -> Dataset -> bool -> list Batch;
  evaluate : Config.t -> Model -> list Batch -> Metric -> result (list (gmap string Q));
  draw_mask : Batch -> nat -> nat -> nat -> R;
  backward : CamlConvAttnPool -> Batch -> result Weights;
  optim_step : Optimizer -> Weights -> Weights -> Weights * OptimState
}.

(** Modelled from the spec: network/__init__.py with [get_network] is not
    among the sources.  It builds the network the configuration names, the
    label-wise attention network of the spec's sections 4.1 to 4.4, from the
    configuration and the embedding vectors. *)
Definition get_network (env : Env) (config : Config.t) (embed_vecs : T2)
    : result CamlConvAttnPool :=
  CamlConvAttnPool_init config embed_vecs (xavier env).

(** [Model.init_optimizer]: reads the configuration and the network, sets
    the optimizer, and clips the gradients the parameters hold. *)
Definition init_optimizer (config : Config.t) (network : CamlConvAttnPool)
    (optimizer : option string) : result (Optimizer * CamlConvAttnPool) :=
  let optimizer_name :=
    match optimizer with
    | Some name => if String.eqb name "" then Config.optimizer config else name
    | None => Config.optimizer config
    end in
  let? opt :=
    if String.eqb optimizer_name "sgd" then
      Ok (mkOptimizer SGD
            (mkOptimState [("lr", Config.learning_rate config);
                           ("momentum", Config.momentum config);
                           ("weight_decay", Config.weight_decay config)] [] 0))
    else if String.eqb optimizer_name "adam" then
      Ok (mkOptimizer Adam
            (mkOptimState [("weight_decay", Config.weight_decay config);
                           ("lr", Config.learning_rate config)] [] 0))
    else Raise (RuntimeError ("Unsupported optimizer: " ++ Config.optimizer config)) in
  Ok (opt, clip_grad_value_ (1 / 2)%R network).

(** [optimizer.load_state_dict] *)
Definition optimizer_load_state_dict (sd : OptimState) (o : Optimizer) : Optimizer :=
  mkOptimizer (kind o) sd.

(** The objects the caller of [Model.__init__] passed in and still holds
    after the call. *)
Record Caller : Type := mkCaller {
  caller_config : Config.t;
  caller_word_dict : option Vocab
}.

Definition on_config (f : Config.t -> Config.t) (c : Caller) : Caller :=
  mkCaller (f (caller_config c)) (caller_word_dict c).

(** The embedding loading of a fresh model (lines 46 to 55); the vectors are
    stored in the caller's vocabulary object. *)
Definition load_embedding (env : Env) (fs : FS) : M Caller Vocab :=
  do config <- gets caller_config;
  do word_dict <- gets caller_word_dict;
  if path_exists fs (Config.embed_file config) then
    do wd <- lift (match word_dict with Some wd => Ok wd | None => Raise AttributeError end);
    let embedding_weights := get_embedding_weights_from_file env wd (Config.embed_file config) in
    let wd' := set_vectors wd embedding_weights in
    modify (fun c => mkCaller (caller_config c) (Some wd')) ;;
    ret wd'
  else if negb (isdigit (Config.embed_file config)) then
    do wd <- lift (match word_dict with Some wd => Ok wd | None => Raise AttributeError end);
    do v <- lift (load_vectors env wd (Config.embed_file config));
    let wd' := set_vectors wd v in
    modify (fun c => mkCaller (caller_config c) (Some wd')) ;;
    ret wd'
  else raise NotImplementedError.

(** [Model.__init__(config, word_dict, classes, ckpt)]; the configuration and
    the vocabulary are the caller's objects in the state. *)
Definition Model_init (env : Env) (classes : option (list string))
    (ckpt : option Ckpt.t) (fs : FS) : M Caller Model :=
  do device <- gets (fun c => Config.device (caller_config c));
  do fields <-
    match ckpt with
    | Some ck =>
        modify (on_config (fun c => Config.set_run_name c (Ckpt.run_name ck))) ;;
        ret (Ckpt.word_dict ck, Some (Ckpt.classes ck), Ckpt.best_metric ck, Ckpt.epoch ck)
    | None =>
        do wd <- load_embedding env fs;
        ret (wd, classes, 0%Q, 0%Z)
    end;
  let '(self_word_dict, self_classes, self_best_metric, self_start_epoch) := fields in
  do self_classes <- lift (match self_classes with
                           | Some l => Ok l
                           | None => Raise TypeError
                           end);
  modify (on_config (fun c => Config.set_num_class c (length self_classes))) ;;
  do embed_vecs <- lift (match vectors self_word_dict with
                         | Some v => Ok v
                         | None => Raise TypeError
                         end);
  do config <- gets caller_config;
  do net <- lift (get_network env config embed_vecs);
  do on <- lift (init_optimizer config net None);
  let '(self_optimizer, net) := on in
  match ckpt with
  | Some ck =>
      do net <- lift (load_state_dict (Ckpt.state_dict ck) net);
      ret (mkModel config device self_start_epoch self_word_dict self_classes
             self_best_metric net
             (optimizer_load_state_dict (Ckpt.optimizer ck) self_optimizer))
  | None =>
      ret (mkModel config device self_start_epoch self_word_dict self_classes
             self_best_metric net self_optimizer)
  end.

(** [Model.load(config, ckpt_path)] *)
Definition load (env : Env) (ckpt_path : string) (fs : FS) : M Caller Model :=
  do ckpt <- lift (torch_load ckpt_path fs);
  Model_init env None (Some ckpt) fs.

(** ** Methods of a live model *)

Inductive event : Type :=
| StartTraining
| ReachPatience
| StartingEpoch (epoch : Z)
| StartValidate
| Evaluated (epoch : Z) (metric : Q) (improved : bool)
    (* no log line: the value read from dev_metrics and the outcome of its
       comparison with the best metric *)
| NotIncrease (patience : Z)
| SaveCurrent (path : string)
| SaveBest (metric : Q) (path : string)
| Terminated.

Record World : Type := mkWorld {
  self : Model;
  fs : FS;
  log : list event                     (* oldest first *)
}.

Definition on_self (f : Model -> Model) (w : World) : World :=
  mkWorld (f (self w)) (fs w) (log w).

Definition on_network (f : CamlConvAttnPool -> CamlConvAttnPool) (w : World) : World :=
  on_self (fun m => set_network (f (network m)) m) w.

Definition log_info (e : event) : M World unit :=
  modify (fun w => mkWorld (self w) (fs w) (log w ++ [e])).

(** A file system operation that may raise. *)
Definition on_fs (f : FS -> result FS) : M World unit :=
  fun w =>
    match f (fs w) with
    | Ok fs' => (mkWorld (self w) fs' (log w), Ok tt)
    | Raise e => (w, Raise e)
    end.

Definition state_dict (net : CamlConvAttnPool) : Weights := params net.

(** [Model.save(epoch, is_best)] *)
Definition save (epoch : Z) (is_best : bool) : M World unit :=
  modify (on_network (set_training false)) ;;
  do m <- gets self;
  let ckpt :=
    Ckpt.mk epoch (Config.run_name (config m)) (state_dict (network m))
            (word_dict m) (classes m) (optim_state (optimizer m)) (best_metric m) in
  let ckpt_path :=
    path_join (Config.result_dir (config m)) [Config.run_name (config m); "model_last.pt"] in
  on_fs (makedirs (dirname ckpt_path)) ;;
  log_info (SaveCurrent ckpt_path) ;;
  on_fs (torch_save ckpt ckpt_path) ;;
  (if is_best then
     let best_ckpt_path := replace "last" "best" ckpt_path in
     log_info (SaveBest (best_metric m) best_ckpt_path) ;;
     on_fs (copyfile ckpt_path best_ckpt_path)
   else ret tt) ;;
  modify (on_network (set_training true)).

(** [Model.load_best()]: [load] receives the model's own configuration
    object. *)
Definition load_best (env : Env) : M World unit :=
  do m <- gets self;
  let best_ckpt_path :=
    path_join (Config.result_dir (config m)) [Config.run_name (config m); "model_best.pt"] in
  do files <- gets fs;
  let '(caller, best_model) := load env best_ckpt_path files (mkCaller (config m) None) in
  modify (on_self (set_config (caller_config caller))) ;;
  do best_model <- lift best_model;
  modify (on_self (set_network (network best_model))).

(** F.binary_cross_entropy_with_logits with the default mean reduction. *)
Definition binary_cross_entropy_with_logits (input target : T2) : result R :=
  if bool_decide (shape2 input = shape2 target) then
    let '(B, L) := shape2 input in
    Ok (sum_n B (fun b =>
          sum_n L (fun l =>
            - (get2 target b l * ln (sigmoid (get2 input b l))
               + (1 - get2 target b l) * ln (1 - sigmoid (get2 input b l)))))
        / INR (B * L))%R
  else Raise ValueError.

(** [optimizer.zero_grad()] *)
Definition zero_grad : M World unit :=
  modify (on_network (set_grads None)).

(** [loss.backward()]: the gradient of the loss of this batch is added to the
    gradients the parameters hold, or stored when they hold none. *)
Definition loss_backward (env : Env) (inputs : Batch) : M World unit :=
  do m <- gets self;
  do g <- lift (backward env (network m) inputs);
  match grads (network m) with
  | None => modify (on_network (set_grads (Some g)))
  | Some old => modify (on_network (set_grads (Some (add_weights old g))))
  end.

(** [optimizer.step()]: parameters without a gradient are left alone. *)
Definition optimizer_step (env : Env) : M World unit :=
  do m <- gets self;
  match grads (network m) with
  | None => ret tt
  | Some g =>
      let '(w, st) := optim_step env (optimizer m) (params (network m)) g in
      modify (on_self (fun m => set_optimizer (mkOptimizer (kind (optimizer m)) st)
                                  (set_network (set_params w (network m)) m)))
  end.

(** [Model.train_step(inputs)]; moving the tensors to the device changes no
    value. *)
Definition train_step (env : Env) (inputs : Batch) : M World (R * T2) :=
  modify (on_network (set_training true)) ;;
  let target_labels := label inputs in
  do m <- gets self;
  do outputs <- lift (forward (network m) (draw_mask env inputs) (text inputs));
  let pred_logits := logits outputs in
  do loss <- lift (binary_cross_entropy_with_logits pred_logits target_labels);
  let batch_label_scores := sigmoid2 pred_logits in
  zero_grad ;;
  loss_backward env inputs ;;
  optimizer_step env ;;
  ret (loss, batch_label_scores).

(** [Model.train_epoch(data_loader)]; the loss meter, the training metrics
    and the progress bar only feed the log and are left out. *)
Fixpoint train_epoch (env : Env) (data_loader : list Batch) : M World unit :=
  match data_loader with
  | [] => ret tt
  | batch :: rest => train_step env batch ;; train_epoch env rest
  end.

Record Prediction : Type := mkPrediction {
  scores : T2;
  pred_logits : T2;
  outputs : Output
}.

(** [Model.predict(inputs)] *)
Definition predict (inputs : Batch) : M World Prediction :=
  modify (on_network (set_training false)) ;;
  do m <- gets self;
  do outputs <- lift (forward (network m) (fun _ _ _ => 1%R) (text inputs));
  let logits := logits outputs in
  let batch_label_scores := sigmoid2 logits in
  ret (mkPrediction batch_label_scores logits outputs).

(** [dev_metrics[0][self.config.val_metric]] *)
Definition val_metric_of (dev_metrics : list (gmap string Q)) (key : string) : result Q :=
  match dev_metrics with
  | [] => Raise IndexError
  | d :: _ =>
      match d !! key with
      | Some v => Ok v
      | None => Raise (KeyError key)
      end
  end.

(** The body of the [while] loop of [Model.train] after the patience test
    (lines 103 to 117); it returns the new value of [patience]. *)
Definition run_epoch (env : Env) (train_loader dev_loader : list Batch)
    (eval_metric : Metric env) (epoch patience : Z) : M World Z :=
  log_info (StartingEpoch epoch) ;;
  train_epoch env train_loader ;;
  log_info StartValidate ;;
  do m <- gets self;
  do dev_metrics <- lift (evaluate env (config m) m dev_loader eval_metric);
  do metric <- lift (val_metric_of dev_metrics (Config.val_metric (config m)));
  log_info (Evaluated epoch metric (Qle_bool (best_metric m) metric)) ;;
  if Qle_bool (best_metric m) metric then
    modify (on_self (set_best_metric metric)) ;;
    save epoch true ;;
    do m <- gets self;
    ret (Config.patience (config m))
  else
    log_info (NotIncrease patience) ;;
    save epoch false ;;
    ret (patience - 1)%Z.

(** The [while] loop of [Model.train]: [epoch] and [patience] are the
    loop's local variables.  [fuel] bounds the number of iterations of the
    model; the result is [true] when the loop ended by its own tests and
    [false] when the fuel ran out first. *)
Fixpoint train_loop (env : Env) (fuel : nat) (train_loader dev_loader : list Batch)
    (eval_metric : Metric env) (epoch patience : Z) : M World bool :=
  do m <- gets self;
  if (epoch <=? Config.epochs (config m))%Z then
    if (patience =? 0)%Z then log_info ReachPatience ;; ret true
    else
      match fuel with
      | O => ret false
      | S fuel' =>
          do patience <- run_epoch env train_loader dev_loader eval_metric epoch patience;
          train_loop env fuel' train_loader dev_loader eval_metric (epoch + 1)%Z patience
      end
  else ret true.

(** [Model.train(train_dataset, dev_dataset, eval_metric)]; the result is
    that of [train_loop].  The two data loaders are built before the [try]
    by a collaborator that is taken to return. *)
Definition train (env : Env) (train_dataset dev_dataset : Dataset env)
    (eval_metric : Metric env) : M World bool :=
  do m <- gets self;
  let train_loader := get_dataset_loader env (config m) train_dataset true in
  let dev_loader := get_dataset_loader env (config m) dev_dataset false in
  log_info StartTraining ;;
  try_except_KeyboardInterrupt
    (do m <- gets self;
     let epoch := (start_epoch m + 1)%Z in
     let patience := Config.patience (config m) in
     train_loop env (Z.to_nat (Config.epochs (config m) - start_epoch m))
                train_loader dev_loader eval_metric epoch patience)
    (log_info Terminated ;; ret true).

(** ** utils.utils *)

(** [AverageMeter] for Python numbers: values are idealized as reals, weights
    are integers. *)
Module AverageMeter.

Record t : Type := mk { val : R; avg : R; sum : R; count : Z }.

(** The object after [__init__], which calls [reset]. *)
Definition init : t := mk 0 0 0 0.

Definition reset : M t unit := modify (fun _ => init).

(** [update(val, n=1)]: the division raises when the count is zero, after
    [val], [sum] and [count] have been assigned. *)
Definition update (v : R) (n : Z) : M t unit :=
  modify (fun m => mk v (avg m) (sum m) (count m)) ;;
  modify (fun m => mk (val m) (avg m) (sum m + v * IZR n)%R (count m)) ;;
  modify (fun m => mk (val m) (avg m) (sum m) (count m + n)%Z) ;;
  do m <- gets (fun m => m);
  if (count m =? 0)%Z then raise ZeroDivisionError
  else modify (fun m => mk (val m) (sum m / IZR (count m))%R (sum m) (count m)).

End AverageMeter.

(** [Timer]: each method receives the reading [now] that [time.time()] gives
    when the method is called; the methods that return [self] return the
    updated timer. *)
Module Timer.

Record t : Type := mk { running : bool; total : R; start : R }.

(** [reset()], also the object after [__init__]. *)
Definition reset (now : R) : t := mk true 0 now.

Definition resume (now : R) (tm : t) : t :=
  if negb (running tm) then mk true (total tm) now else tm.

Definition stop (now : R) (tm : t) : t :=
  if running tm then mk false (total tm + (now - start tm))%R (start tm) else tm.

Definition time (now : R) (tm : t) : R :=
  if running tm then (total tm + now - start tm)%R else total tm.

End Timer.

(** JSON values as [json.load] returns them; an object is a dict with string
    keys. *)
#[warnings="-register-all"] Inductive Json : Type :=
| JNull
| JBool (b : bool)
| JNum (q : Q)
| JStr (s : string)
| JArr (items : list Json)
| JObj (members : gmap string Json).

(** What a caller hands to [dump_log] as metrics: a value that json can
    serialize, or one that it cannot. *)
Inductive PyValue : Type :=
| Serializable (j : Json)
| Unserializable.

(** The files together with the JSON documents that data files hold; a data
    file without an entry does not hold a JSON document. *)
Record Disk : Type := mkDisk {
  disk_fs : FS;
  json_of : gmap string Json
}.

(** [with open(p) as fp: json.load(fp)]; the decoding errors are subclasses
    of ValueError. *)
Definition json_load (p : string) (d : Disk) : result Json :=
  match files (disk_fs d) !! p with
  | None => Raise (FileNotFoundError p)
  | Some (CkptFile _) => Raise ValueError
  | Some DataFile =>
      match json_of d !! p with
      | Some j => Ok j
      | None => Raise ValueError
      end
  end.

(** [with open(p, 'w') as fp: json.dump(v, fp)]: opening the file truncates
    it before the value is serialized, so a value that cannot be serialized
    leaves a file that holds no document. *)
Definition json_dump (v : PyValue) (p : string) : M Disk unit :=
  fun d =>
    match write_file p DataFile (disk_fs d) with
    | Raise e => (d, Raise e)
    | Ok fs' =>
        match v with
        | Serializable j => (mkDisk fs' (<[p := j]> (json_of d)), Ok tt)
        | Unserializable => (mkDisk fs' (delete p (json_of d)), Raise TypeError)
        end
    end.

(** Lines 68 to 71 of [dump_log]: [split in result] is a key test on a dict;
    on a list or a string it is a membership test after which either branch
    raises TypeError at [result[split]], and on the other values the test
    itself raises TypeError.  [append] needs a list.  The result can be
    serialized when the metrics can. *)
Definition add_metrics (res : Json) (split : string) (metrics : PyValue) : result PyValue :=
  match res with
  | JObj m =>
      match m !! split with
      | Some (JArr l) =>
          Ok (match metrics with
              | Serializable j => Serializable (JObj (<[split := JArr (l ++ [j])]> m))
              | Unserializable => Unserializable
              end)
      | Some _ => Raise AttributeError
      | None =>
          Ok (match metrics with
              | Serializable j => Serializable (JObj (<[split := JArr [j]]> m))
              | Unserializable => Unserializable
              end)
      end
  | _ => Raise TypeError
  end.

(** [dump_log(config, metrics, split)] *)
Definition dump_log (config : Config.t) (metrics : PyValue) (split : string) : M Disk unit :=
  let log_path :=
    path_join (Config.result_dir config) [Config.run_name config; "logs.json"] in
  (fun d => match makedirs (dirname log_path) (disk_fs d) with
            | Ok fs' => (mkDisk fs' (json_of d), Ok tt)
            | Raise e => (d, Raise e)
            end) ;;
  do res <- (fun d => (d, if is_file (disk_fs d) log_path
                          then json_load log_path d
                          else Ok (JObj ∅)));
  do res <- lift (add_metrics res split metrics);
  json_dump res log_path.

(** The epochs a log shows as started, and the metrics it shows as read. *)
Definition started_epochs (l : list event) : list Z :=
  flat_map (fun e => match e with StartingEpoch n => [n] | _ => [] end) l.

Definition observed_metrics (l : list event) : list Q :=
  flat_map (fun e => match e with Evaluated _ v _ => [v] | _ => [] end) l.

(** For every evaluated epoch of a log, whether the metric improved. *)
Definition outcomes (l : list event) : list bool :=
  flat_map (fun e => match e with Evaluated _ _ b => [b] | _ => [] end) l.

(** The number of epochs without improvement at the end of a list of
    outcomes, counted from [k] such epochs before it. *)
Fixpoint failures_from (k : nat) (outs : list bool) : nat :=
  match outs with
  | [] => k
  | true :: rest => failures_from 0 rest
  | false :: rest => failures_from (S k) rest
  end.

Definition consecutive_failures (outs : list bool) : nat := failures_from 0 outs.

(** ** Predicates and data used in the statements *)

Local Open Scope nat_scope.

(** The network has the shapes [__init__] gives it for a vocabulary of [V]
    tokens, embeddings of width [E], [F] filter maps, filter size [k] and
    [L] labels. *)
Definition well_shaped (net : CamlConvAttnPool) (V E F k L : nat) : Prop :=
  shapes (params net) = init_shapes V E F k L /\ conv_padding net = k / 2.

Definition valid_ids (V : nat) (text : Ids) : bool :=
  let '(B, T) := ids_shape text in
  forall_lt B (fun b => forall_lt T (fun t => get_id text b t <? V)).

(** The quantities of the specification, written out for a network with
    embedding width [E], [F] filter maps of size [k], and a batch [text] of
    sequences of length [T]; none of them goes through the tensor operations
    of the model. *)
Section Reference.

Variables (net : CamlConvAttnPool) (mask : nat -> nat -> nat -> R) (text : Ids).
Variables (E F k T : nat).

(** The embedding of token [t] of document [b] after dropout. *)
Definition embedded (b t e : nat) : R :=
  let v := get2 (embedding_weight (params net)) (get_id text b t) e in
  if training net then (v * mask b t e)%R else v.

(** The number of positions the convolution yields. *)
Definition positions : nat := T + 2 * (k / 2) - k + 1.

(** The feature [f] at position [t]: tanh of the convolution of the
    embeddings, zero-padded by floor(k/2) on both sides. *)
Definition feature (b t f : nat) : R :=
  tanh (get1 (conv_bias (params net)) f +
        sum_n E (fun c =>
          sum_n k (fun j =>
            get3 (conv_weight (params net)) f c j *
            (if ((k / 2 <=? t + j) && (t + j <? k / 2 + T))%nat
             then embedded b (t + j - k / 2) c else 0))))%R.

(** The score of label [l] at position [t]. *)
Definition score (b l t : nat) : R :=
  sum_n F (fun f => get2 (U_weight (params net)) l f * feature b t f)%R.

(** The softmax of the scores of label [l] over the positions. *)
Definition attention_weight (b l t : nat) : R :=
  (exp (score b l t) / sum_n positions (fun t' => exp (score b l t')))%R.

(** The document vector of label [l]: the attention-weighted sum of the
    features. *)
Definition document_vector (b l f : nat) : R :=
  sum_n positions (fun t => attention_weight b l t * feature b t f)%R.

(** The logit of label [l]: the label's own weights times the label's
    document vector, plus the label's bias. *)
Definition label_logit (b l : nat) : R :=
  (sum_n F (fun f => get2 (final_weight (params net)) l f * document_vector b l f)
   + get1 (final_bias (params net)) l)%R.

End Reference.

(** The scenario of the spec: vocabulary size 1000, embedding width 50, 100
    filter maps, 5 labels, a batch of 4 documents of 20 tokens. *)

Definition zero_draw : Draw :=
  mkDraw (fun _ _ _ => 0%R) (fun _ => 0%R) (fun _ _ => 0%R) (fun _ => 0%R)
         (fun _ _ => 0%R) (fun _ => 0%R).

Definition scenario_config (filter_size : nat) : Config.t :=
  Config.mk "cpu" "glove.6B.50d" "adam" (1 # 1000) (9 # 10) 0 (1 # 5)
            100 filter_size 10 1 "Micro-F1" "results" "run" (Some 5).

Definition scenario_embed : T2 := mkT2 (1000, 50) (fun _ _ => 0%R).

Definition scenario_net (filter_size : nat) : CamlConvAttnPool :=
  mkNet
    (mkWeights scenario_embed
       (mkT3 (100, 50, filter_size) (fun _ _ _ => 0%R)) (mkT1 100 (fun _ => 0%R))
       (mkT2 (5, 100) (fun _ _ => 0%R)) (mkT1 5 (fun _ => 0%R))
       (mkT2 (5, 100) (fun _ _ => 0%R)) (mkT1 5 (fun _ => 0%R)))
    None (filter_size / 2) (1 # 5) true.

Definition scenario_text : Ids := mkIds (4, 20) (fun b t => b + t).

(** The checkpoint [save] builds, and the paths it uses. *)
Definition ckpt_of (m : Model) (epoch : Z) : Ckpt.t :=
  Ckpt.mk epoch (Config.run_name (config m)) (params (network m))
          (word_dict m) (classes m) (optim_state (optimizer m)) (best_metric m).

Definition last_path (c : Config.t) : string :=
  path_join (Config.result_dir c) [Config.run_name c; "model_last.pt"%string].

Definition best_path (c : Config.t) : string :=
  replace "last" "best" (last_path c).

(** What a training step, an evaluation or a save leaves alone. *)
Definition same_progress (w w' : World) : Prop :=
  config (self w') = config (self w) /\
  best_metric (self w') = best_metric (self w) /\
  start_epoch (self w') = start_epoch (self w) /\
  word_dict (self w') = word_dict (self w) /\
  classes (self w') = classes (self w).

(** [x] is the greatest element of the non-empty list [l]. *)
Definition is_max (x : Q) (l : list Q) : Prop :=
  In x l /\ Forall (fun y => (y <= x)%Q) l.

(** The events a run added to the log. *)
Definition new_events (w w' : World) : list event :=
  skipn (length (log w)) (log w').

(** A small run: a vocabulary of two tokens with vectors of width 1, one
    filter map of size 1, one label, one training batch of one token.  The
    evaluation collaborator reports the scripted metrics, one per epoch; the
    gradient collaborator reports the constant gradient [grad]; the optimizer
    moves each parameter against its gradient and remembers the gradient it
    was given. *)

Definition tiny_embed : T2 := mkT2 (2, 1) (fun _ _ => 0%R).

Definition tiny_vocab : Vocab := mkVocab ["<pad>"; "fever"]%string None.

Definition tiny_classes : list string := ["401.9"%string].

Definition tiny_config (optimizer run_name : string) (epochs patience : Z) : Config.t :=
  Config.mk "cpu" "glove.6B.50d" optimizer (1 # 10) (9 # 10) 0 (1 # 5)
            1 1 epochs patience "Micro-F1" "results" run_name None.

Definition tiny_batch : Batch :=
  mkBatch (mkIds (1, 1) (fun _ _ => 1)) (mkT2 (1, 1) (fun _ _ => 1%R)).

Definition scripted_env (metrics : list Q) (grad : R) : Env :=
  mkEnv unit unit
    (fun _ _ => tiny_embed)
    (fun _ _ => Ok tiny_embed)
    zero_draw
    (fun _ _ train => if train then [tiny_batch] else [])
    (fun cfg m _ _ =>
       Ok [ {[ Config.val_metric cfg :=
                 nth (steps (optim_state (optimizer m)) - 1) metrics 0%Q ]} ])
    (fun _ _ _ _ => 1%R)
    (fun net _ => Ok (map_weights (fun _ => grad) (params net)))
    (fun opt w g =>
       (add_weights w (map_weights (fun x => (- (1 / 10) * x)%R) g),
        mkOptimState (hyper (optim_state opt)) [g] (S (steps (optim_state opt))))).

Definition empty_fs : FS := mkFS ∅ ∅.

(** The caller's objects before a fresh model is built. *)
Definition tiny_caller (optimizer run_name : string) (epochs patience : Z) : Caller :=
  mkCaller (tiny_config optimizer run_name epochs patience) (Some tiny_vocab).

(** The fresh model [Model_init] builds for the small run (see
    [tiny_model_init]). *)
Definition tiny_model (optimizer_kind : optim_kind) (optimizer run_name : string)
    (epochs patience : Z) (state : OptimState) : Model :=
  mkModel (Config.set_num_class (tiny_config optimizer run_name epochs patience) 1)
          "cpu" 0 (set_vectors tiny_vocab tiny_embed) tiny_classes 0
          (mkNet
             (mkWeights (mkT2 (2, 1) (fun _ _ => 0%R))
                (mkT3 (1, 1, 1) (fun _ _ _ => 0%R)) (mkT1 1 (fun _ => 0%R))
                (mkT2 (1, 1) (fun _ _ => 0%R)) (mkT1 1 (fun _ => 0%R))
                (mkT2 (1, 1) (fun _ _ => 0%R)) (mkT1 1 (fun _ => 0%R)))
             None 0 (1 # 5) true)
          (mkOptimizer optimizer_kind state).

Definition adam_state : OptimState :=
  mkOptimState [("weight_decay"%string, 0%Q); ("lr"%string, (1 # 10)%Q)] [] 0.

Definition tiny_world (run_name : string) (epochs patience : Z) : World :=
  mkWorld (tiny_model Adam "adam" run_name epochs patience adam_state) empty_fs [].

(** The configuration after [__init__] ran with a checkpoint. *)
Definition config_from_ckpt (config : Config.t) (ck : Ckpt.t) : Config.t :=
  Config.set_num_class (Config.set_run_name config (Ckpt.run_name ck))
                       (length (Ckpt.classes ck)).

(** [pat in s] for strings. *)
Fixpoint contains (pat s : string) : bool :=
  String.prefix pat s ||
  match s with
  | EmptyString => false
  | String _ s' => contains pat s'
  end.

(** The run directory with its trailing separator, as [os.path.join] forms
    it in front of a file name. *)
Definition run_dir (c : Config.t) : string :=
  path_join (Config.result_dir c) [Config.run_name c; ""%string].

(** The path [load_best] reads. *)
Definition model_best_path (c : Config.t) : string :=
  path_join (Config.result_dir c) [Config.run_name c; "model_best.pt"%string].

(** Every entry of every tensor of [w] has magnitude at most [c]. *)
Definition weights_within (c : R) (w : Weights) : Prop :=
  (forall i j, Rabs (get2 (embedding_weight w) i j) <= c)%R /\
  (forall i j k, Rabs (get3 (conv_weight w) i j k) <= c)%R /\
  (forall i, Rabs (get1 (conv_bias w) i) <= c)%R /\
  (forall i j, Rabs (get2 (U_weight w) i j) <= c)%R /\
  (forall i, Rabs (get1 (U_bias w) i) <= c)%R /\
  (forall i j, Rabs (get2 (final_weight w) i j) <= c)%R /\
  (forall i, Rabs (get1 (final_bias w) i) <= c)%R.

(** Whether a log records an interrupt. *)
Definition terminated (l : list event) : bool :=
  existsb (fun e => match e with Terminated => true | _ => false end) l.

(** Whether a log records that patience ran out. *)
Definition reached_patience (l : list event) : bool :=
  existsb (fun e => match e with ReachPatience => true | _ => false end) l.

(** A sequence of [update] calls on a meter. *)
Fixpoint updates (l : list (R * Z)) : M AverageMeter.t unit :=
  match l with
  | [] => ret tt
  | (v, n) :: rest => AverageMeter.update v n ;; updates rest
  end.

Fixpoint weighted_sum (l : list (R * Z)) : R :=
  match l with
  | [] => 0
  | (v, n) :: rest => v * IZR n + weighted_sum rest
  end.

Fixpoint total_weight (l : list (R * Z)) : Z :=
  match l with
  | [] => 0
  | (_, n) :: rest => n + total_weight rest
  end.

(** Calls on a running or stopped timer, each with its clock reading. *)
Inductive timer_call : Type := CallResume | CallStop.

Fixpoint timer_calls (calls : list (timer_call * R)) (tm : Timer.t) : Timer.t :=
  match calls with
  | [] => tm
  | (CallResume, now) :: rest => timer_calls rest (Timer.resume now tm)
  | (CallStop, now) :: rest => timer_calls rest (Timer.stop now tm)
  end.

(** The clock readings never decrease from [t0] through the calls to [now]. *)
Fixpoint clock_ordered (t0 : R) (calls : list (timer_call * R)) (now : R) : Prop :=
  match calls with
  | [] => (t0 <= now)%R
  | (_, t) :: rest => (t0 <= t)%R /\ clock_ordered t rest now
  end.

(** What holds of a timer created at [t0] when the clock reads [t]. *)
Definition timer_inv (t : R) (tm : Timer.t) : Prop :=
  (0 <= Timer.total tm)%R /\
  (Timer.running tm = true -> (Timer.start tm <= t)%R).

(** The path of the log file of a run. *)
Definition log_path (c : Config.t) : string :=
  path_join (Config.result_dir c) [Config.run_name c; "logs.json"%string].

(** What [dump_log] takes as the log so far: the document of the log file,
    or an empty object when there is no such file. *)
Definition read_log (c : Config.t) (d : Disk) : result Json :=
  if is_file (disk_fs d) (log_path c) then json_load (log_path c) d else Ok (JObj ∅).

(** An entry of the log object: absent for no metrics, else their array. *)
Definition entry_of (l : list Json) : option Json :=
  match l with
  | [] => None
  | _ => Some (JArr l)
  end.

(** A sequence of [dump_log] calls, each with its split and metrics that
    json can serialize. *)
Fixpoint dump_logs (c : Config.t) (calls : list (string * Json)) : M Disk unit :=
  match calls with
  | [] => ret tt
  | (split, metrics) :: rest => dump_log c (Serializable metrics) split ;; dump_logs c rest
  end.

(** Where the log file of a run can be made: no regular file at or above
    its directory, and no directory at its path. *)
Definition log_can_be_written (c : Config.t) (fs : FS) : Prop :=
  dirname (log_path c) <> ""%string /\
  file_on_the_way fs (dirname (log_path c)) = false /\
  dir_exists fs (log_path c) = false.

(** The metrics dumped for [split], in call order. *)
Fixpoint metrics_of (split : string) (calls : list (string * Json)) : list Json :=
  match calls with
  | [] => []
  | (s, metrics) :: rest =>
      if String.eqb s split then metrics :: metrics_of split rest
      else metrics_of split rest
  end.

(** * Theorems *)

(** ** Sums *)

Section Sums.
Local Open Scope R_scope.

Lemma sum_n_ext (n : nat) (f g : nat -> R) :
  (forall i, (i < n)%nat -> f i = g i) -> sum_n n f = sum_n n g.
Proof.
  induction n as [|n IH]; intros Hfg; simpl; [reflexivity|].
  rewrite IH by (intros i Hi; apply Hfg; lia).
  rewrite (Hfg n) by lia. reflexivity.
Qed.

Lemma sum_n_div (n : nat) (f : nat -> R) (c : R) :
  sum_n n (fun i => f i / c) = sum_n n f / c.
Proof.
  induction n as [|n IH]; simpl.
  - unfold Rdiv. rewrite Rmult_0_l. reflexivity.
  - rewrite IH. unfold Rdiv. ring.
Qed.

Lemma sum_n_pos (n : nat) (f : nat -> R) :
  (0 < n)%nat -> (forall i, (i < n)%nat -> 0 < f i) -> 0 < sum_n n f.
Proof.
  induction n as [|n IH]; intros Hn Hf; [lia|].
  simpl. destruct n as [|n].
  - simpl. rewrite Rplus_0_l. apply Hf. lia.
  - apply Rplus_lt_0_compat.
    + apply IH; [lia|]. intros i Hi. apply Hf. lia.
    + apply Hf. lia.
Qed.

Lemma sum_exp_pos (n : nat) (s : nat -> R) :
  (0 < n)%nat -> 0 < sum_n n (fun t => exp (s t)).
Proof. intros Hn. apply sum_n_pos; [exact Hn|]. intros. apply exp_pos. Qed.

Lemma sigmoid_bounds (x : R) : 0 <= sigmoid x <= 1.
Proof.
  unfold sigmoid. pose proof (exp_pos (- x)) as He.
  split.
  - apply Rlt_le. apply Rdiv_lt_0_compat; lra.
  - assert (Hq : 0 < exp (- x) / (1 + exp (- x))) by (apply Rdiv_lt_0_compat; lra).
    replace (1 / (1 + exp (- x))) with (1 - exp (- x) / (1 + exp (- x))) by (field; lra).
    lra.
Qed.

End Sums.

Lemma bind_Ok {A B : Type} (r : result A) (k : A -> result B) (b : B) :
  bind r k = Ok b -> exists a, r = Ok a /\ k a = Ok b.
Proof. destruct r as [a|e]; simpl; intros H; [eauto|discriminate]. Qed.


(** ** Shapes and values of the tensor operations *)

Lemma embedding_ok w text V E B T :
  shape2 w = (V, E) -> ids_shape text = (B, T) -> valid_ids V text = true ->
  embedding w text = Ok (mkT3 (B, T, E) (fun b t e => get2 w (get_id text b t) e)).
Proof.
  intros Hw Ht Hv. unfold valid_ids in Hv. unfold embedding.
  rewrite Hw, Ht in *. rewrite Hv. reflexivity.
Qed.

Lemma embed_drop_shape net mask x : shape3 (embed_drop net mask x) = shape3 x.
Proof. unfold embed_drop. destruct (training net); reflexivity. Qed.

Lemma transpose12_shape x B M N :
  shape3 x = (B, M, N) -> shape3 (transpose12 x) = (B, N, M).
Proof. intros H. unfold transpose12. rewrite H. reflexivity. Qed.

Lemma transpose12_get x b i j : get3 (transpose12 x) b i j = get3 x b j i.
Proof. unfold transpose12. destruct (shape3 x) as [[? ?] ?]. reflexivity. Qed.

Lemma conv1d_ok w bias p x F C k B T :
  shape3 w = (F, C, k) -> shape3 x = (B, C, T) -> k <= T + 2 * p -> 1 <= T ->
  conv1d w bias p x =
  Ok (mkT3 (B, F, T + 2 * p - k + 1)
        (fun b f t =>
           get1 bias f +
           sum_n C (fun c => sum_n k (fun j =>
             get3 w f c j * padded p T (get3 x b c) (t + j))))%R).
Proof.
  intros Hw Hx Hk HT. unfold conv1d. rewrite Hw, Hx.
  rewrite Nat.eqb_refl. cbn [negb].
  destruct (Nat.ltb_spec (T + 2 * p) k) as [Hlt|_]; [lia|].
  destruct (Nat.eqb_spec T 0) as [->|_]; [lia|].
  rewrite !andb_false_r. reflexivity.
Qed.

Lemma conv1d_empty w bias p x F C k B :
  shape3 w = (F, C, k) -> shape3 x = (B, C, 0) -> 1 <= B -> 1 <= C ->
  conv1d w bias p x = Raise ShapeError.
Proof.
  intros Hw Hx HB HC. unfold conv1d. rewrite Hw, Hx.
  rewrite Nat.eqb_refl. cbn [negb].
  destruct (0 + 2 * p <? k); [reflexivity|].
  destruct (Nat.eqb_spec B 0) as [->|_]; [lia|].
  destruct (Nat.eqb_spec C 0) as [->|_]; [lia|].
  reflexivity.
Qed.

Lemma padding_fits k T : 1 <= T -> k <= T + 2 * (k / 2).
Proof.
  intros HT. pose proof (Nat.div_mod_eq k 2) as Hd.
  pose proof (Nat.mod_upper_bound k 2) as Hm. lia.
Qed.

Lemma conv1d_short w bias p x F C k B T :
  shape3 w = (F, C, k) -> shape3 x = (B, C, T) -> T + 2 * p < k ->
  conv1d w bias p x = Raise ShapeError.
Proof.
  intros Hw Hx Hk. unfold conv1d. rewrite Hw, Hx.
  rewrite Nat.eqb_refl. cbn [negb].
  destruct (Nat.ltb_spec (T + 2 * p) k) as [_|Hge]; [reflexivity|lia].
Qed.

Lemma matmul23_ok w x L K B T :
  shape2 w = (L, K) -> shape3 x = (B, K, T) ->
  matmul23 w x =
  Ok (mkT3 (B, L, T) (fun b l t => sum_n K (fun f => get2 w l f * get3 x b f t)%R)).
Proof. intros Hw Hx. unfold matmul23. rewrite Hw, Hx, Nat.eqb_refl. reflexivity. Qed.

Lemma matmul33_ok a x B L K N :
  shape3 a = (B, L, K) -> shape3 x = (B, K, N) ->
  matmul33 a x =
  Ok (mkT3 (B, L, N) (fun b l f => sum_n K (fun t => get3 a b l t * get3 x b t f)%R)).
Proof. intros Ha Hx. unfold matmul33. rewrite Ha, Hx, !Nat.eqb_refl. reflexivity. Qed.

Lemma softmax2_shape s : shape3 (softmax2 s) = shape3 s.
Proof. unfold softmax2. destruct (shape3 s) as [[? ?] ?]. reflexivity. Qed.

Lemma softmax2_get s B L T b l t :
  shape3 s = (B, L, T) ->
  get3 (softmax2 s) b l t =
  (exp (get3 s b l t) / sum_n T (fun t' => exp (get3 s b l t')))%R.
Proof. intros H. unfold softmax2. rewrite H. reflexivity. Qed.

Lemma broadcast_same n : broadcast n n = Some n.
Proof. unfold broadcast. rewrite Nat.eqb_refl. reflexivity. Qed.

Lemma bidx_lt n i : i < n -> bidx n i = i.
Proof.
  intros Hi. unfold bidx. destruct (Nat.eqb_spec n 1) as [->|_]; [lia|reflexivity].
Qed.

Lemma mul23_ok w m L K B :
  shape2 w = (L, K) -> shape3 m = (B, L, K) ->
  mul23 w m =
  Ok (mkT3 (B, L, K)
        (fun b l f => get2 w (bidx L l) (bidx K f) * get3 m b (bidx L l) (bidx K f))%R).
Proof. intros Hw Hm. unfold mul23. rewrite Hw, Hm, !broadcast_same. reflexivity. Qed.

Lemma add21_ok x bias B L :
  shape2 x = (B, L) -> len1 bias = L ->
  add21 x bias =
  Ok (mkT2 (B, L) (fun b l => get2 x b (bidx L l) + get1 bias (bidx L l))%R).
Proof. intros Hx Hb. unfold add21. rewrite Hx, Hb, broadcast_same. reflexivity. Qed.

Lemma forward_steps_ok net mask text V E F k L B T :
  well_shaped net V E F k L ->
  ids_shape text = (B, T) ->
  valid_ids V text = true ->
  1 <= T ->
  exists fw, forward_steps net mask text = Ok fw /\
    let T' := T + 2 * (k / 2) - k + 1 in
    shape3 (fw_conv fw) = (B, F, T') /\
    shape3 (fw_x fw) = (B, T', F) /\
    shape3 (fw_alpha fw) = (B, L, T') /\
    shape3 (fw_m fw) = (B, L, F) /\
    shape2 (fw_logits fw) = (B, L) /\
    (forall b t f, get3 (fw_x fw) b t f = tanh (get3 (fw_conv fw) b f t)) /\
    (forall b l t, get3 (fw_alpha fw) b l t =
       (exp (sum_n F (fun f => get2 (U_weight (params net)) l f * get3 (fw_x fw) b t f))
        / sum_n T' (fun t' =>
            exp (sum_n F (fun f => get2 (U_weight (params net)) l f * get3 (fw_x fw) b t' f))))%R) /\
    (forall b l f, get3 (fw_m fw) b l f =
       sum_n T' (fun t => get3 (fw_alpha fw) b l t * get3 (fw_x fw) b t f)%R) /\
    (forall b l, l < L -> get2 (fw_logits fw) b l =
       (sum_n F (fun f => get2 (final_weight (params net)) l f * get3 (fw_m fw) b l f)
        + get1 (final_bias (params net)) l)%R) /\
    (forall b t f, get3 (fw_x fw) b t f = feature net mask text E k T b t f).
Proof.
  intros [Hs Hp] Hids Hv HT. pose proof (padding_fits k T HT) as Hk.
  unfold shapes, init_shapes in Hs.
  injection Hs as Hemb Hconv Hcb HU HUb Hfin Hfb.
  set (x0 := mkT3 (B, T, E) (fun b t e => get2 (embedding_weight (params net)) (get_id text b t) e)).
  set (x1 := transpose12 (embed_drop net mask x0)).
  assert (Hx1 : shape3 x1 = (B, E, T)).
  { apply transpose12_shape. rewrite embed_drop_shape. reflexivity. }
  pose proof (conv1d_ok (conv_weight (params net)) (conv_bias (params net)) (k / 2)
                x1 F E k B T Hconv Hx1 Hk HT) as Hc.
  set (c := mkT3 (B, F, T + 2 * (k / 2) - k + 1) _) in Hc.
  set (x := tanh3 (transpose12 c)).
  assert (Hx : shape3 x = (B, T + 2 * (k / 2) - k + 1, F)) by reflexivity.
  pose proof (matmul23_ok (U_weight (params net)) (transpose12 x) L F B _ HU
                (transpose12_shape x _ _ _ Hx)) as Hs.
  set (s := mkT3 (B, L, T + 2 * (k / 2) - k + 1) _) in Hs.
  assert (Ha : shape3 (softmax2 s) = (B, L, T + 2 * (k / 2) - k + 1)) by reflexivity.
  pose proof (matmul33_ok (softmax2 s) x B L _ F Ha Hx) as Hm.
  set (m := mkT3 (B, L, F) _) in Hm.
  pose proof (mul23_ok (final_weight (params net)) m L F B Hfin eq_refl) as Hq.
  set (q := mkT3 (B, L, F) _) in Hq.
  pose proof (add21_ok (sum_dim2 q) (final_bias (params net)) B L eq_refl Hfb) as Hl.
  set (lg := mkT2 (B, L) _) in Hl.
  exists (mkForward c x (softmax2 s) m lg). split.
  - unfold forward_steps.
    rewrite (embedding_ok _ _ V E B T Hemb Hids Hv). cbn [bind].
    fold x0. fold x1. rewrite Hp, Hc. cbn [bind]. fold x.
    rewrite Hs. cbn [bind]. rewrite Hm. cbn [bind]. rewrite Hq. cbn [bind].
    rewrite Hl. reflexivity.
  - cbn [fw_conv fw_x fw_alpha fw_m fw_logits].
    repeat split; try reflexivity.
    + intros b l Hl'. subst lg q. cbn [get2 get3 sum_dim2 shape3].
      rewrite !(bidx_lt L l Hl').
      f_equal. apply sum_n_ext. intros f Hf.
      rewrite ?(bidx_lt L l Hl'), ?(bidx_lt F f Hf). reflexivity.
    + intros b t f. subst x c. unfold tanh3, feature. cbn [get3 shape3 transpose12].
      f_equal. f_equal. apply sum_n_ext. intros e _. apply sum_n_ext. intros j _.
      f_equal. unfold padded.
      destruct ((k / 2 <=? t + j) && (t + j <? k / 2 + T)); [|reflexivity].
      subst x1. rewrite transpose12_get. unfold embed_drop, embedded, dropout.
      destruct (training net); reflexivity.
Qed.

Lemma CamlConvAttnPool_init_well_shaped config embed_vecs d net V E L :
  shape2 embed_vecs = (V, E) ->
  Config.num_class config = Some L ->
  CamlConvAttnPool_init config embed_vecs d = Ok net ->
  well_shaped net V E (Config.num_filter_maps config) (Config.filter_size config) L.
Proof.
  intros He HL H. unfold CamlConvAttnPool_init in H. rewrite He, HL in H.
  injection H as <-. split; reflexivity.
Qed.

Lemma odd_padding k T : Nat.odd k = true -> 1 <= T ->
  k <= T + 2 * (k / 2) /\ T + 2 * (k / 2) - k + 1 = T.
Proof.
  intros Hk HT. apply Nat.odd_spec in Hk. destruct Hk as [m ->].
  pose proof (Nat.div_mod_eq (2 * m + 1) 2) as Hd.
  pose proof (Nat.mod_upper_bound (2 * m + 1) 2) as Hm. lia.
Qed.

Lemma even_padding k T : Nat.even k = true ->
  k <= T + 2 * (k / 2) /\ T + 2 * (k / 2) - k + 1 = T + 1.
Proof.
  intros Hk. apply Nat.even_spec in Hk. destruct Hk as [m ->].
  pose proof (Nat.div_mod_eq (2 * m) 2) as Hd.
  pose proof (Nat.mod_upper_bound (2 * m) 2) as Hm. lia.
Qed.


Lemma scenario_net_init k :
  CamlConvAttnPool_init (scenario_config k) scenario_embed zero_draw = Ok (scenario_net k).
Proof. reflexivity. Qed.

Lemma forward_steps_spec net mask text V E F k L B T :
  well_shaped net V E F k L ->
  ids_shape text = (B, T) ->
  valid_ids V text = true ->
  1 <= T ->
  exists fw, forward_steps net mask text = Ok fw /\
    shape3 (fw_x fw) = (B, positions k T, F) /\
    shape3 (fw_alpha fw) = (B, L, positions k T) /\
    shape3 (fw_m fw) = (B, L, F) /\
    shape2 (fw_logits fw) = (B, L) /\
    (forall b t f, get3 (fw_x fw) b t f = feature net mask text E k T b t f) /\
    (forall b l t, get3 (fw_alpha fw) b l t = attention_weight net mask text E F k T b l t) /\
    (forall b l f, get3 (fw_m fw) b l f = document_vector net mask text E F k T b l f) /\
    (forall b l, l < L -> get2 (fw_logits fw) b l = label_logit net mask text E F k T b l).
Proof.
  intros Hw Hids Hv HT.
  destruct (forward_steps_ok net mask text V E F k L B T Hw Hids Hv HT)
    as (fw & Hfw & Hc & Hx & Ha & Hm & Hl & Htanh & Halpha & Hdoc & Hlog & Hfeat).
  cbv zeta in Hx, Ha, Halpha, Hdoc. fold (positions k T) in Hx, Ha, Halpha, Hdoc.
  assert (Hscore : forall b l t,
            sum_n F (fun f => get2 (U_weight (params net)) l f * get3 (fw_x fw) b t f)%R
            = score net mask text E F k T b l t).
  { intros b l t. unfold score. apply sum_n_ext. intros f _. rewrite Hfeat. reflexivity. }
  assert (Hatt : forall b l t,
            get3 (fw_alpha fw) b l t = attention_weight net mask text E F k T b l t).
  { intros b l t. rewrite Halpha. unfold attention_weight. rewrite Hscore. f_equal.
    apply sum_n_ext. intros t' _. rewrite Hscore. reflexivity. }
  assert (Hvec : forall b l f,
            get3 (fw_m fw) b l f = document_vector net mask text E F k T b l f).
  { intros b l f. rewrite Hdoc. unfold document_vector. apply sum_n_ext. intros t _.
    rewrite Hatt, Hfeat. reflexivity. }
  exists fw. split; [exact Hfw|]. split; [exact Hx|]. split; [exact Ha|].
  split; [exact Hm|]. split; [exact Hl|]. split; [exact Hfeat|].
  split; [exact Hatt|]. split; [exact Hvec|].
  intros b l Hlt. rewrite (Hlog b l Hlt). unfold label_logit. f_equal.
  apply sum_n_ext. intros f _. rewrite Hvec. reflexivity.
Qed.

(** C1.  For a network of the shapes [__init__] gives it and a batch of
    valid token ids with at least one position, the forward pass returns
    attention weights with one entry for each document, label and position
    the convolution yields.  For every document and every label they are the
    softmax, over the positions, of the label's scores on the per-position
    features (tanh of the zero-padded convolution of the embeddings), so
    they are nonnegative and sum to 1 over the positions (exactly, in real
    arithmetic), and the label's document vector is the attention-weighted
    sum of the per-position features. *)
Theorem attention_is_distribution net mask text V E F k L B T :
  well_shaped net V E F k L ->
  ids_shape text = (B, T) ->
  valid_ids V text = true ->
  1 <= T ->
  let T' := T + 2 * (k / 2) - k + 1 in
  exists fw,
    forward_steps net mask text = Ok fw /\
    forward net mask text = Ok (mkOutput (fw_logits fw) (fw_alpha fw)) /\
    shape3 (fw_alpha fw) = (B, L, T') /\
    shape3 (fw_x fw) = (B, T', F) /\
    shape3 (fw_m fw) = (B, L, F) /\
    (forall b t f, get3 (fw_x fw) b t f = feature net mask text E k T b t f) /\
    forall b l, b < B -> l < L ->
      (forall t, t < T' -> (0 <= get3 (fw_alpha fw) b l t)%R) /\
      sum_n T' (get3 (fw_alpha fw) b l) = 1%R /\
      (forall t, get3 (fw_alpha fw) b l t =
         (exp (score net mask text E F k T b l t)
          / sum_n T' (fun t' => exp (score net mask text E F k T b l t')))%R) /\
      (forall f, f < F ->
         get3 (fw_m fw) b l f =
         sum_n T' (fun t => get3 (fw_alpha fw) b l t * feature net mask text E k T b t f)%R).
Proof.
  intros Hw Hids Hv HT T'.
  destruct (forward_steps_spec net mask text V E F k L B T Hw Hids Hv HT)
    as (fw & Hfw & Hx & Ha & Hm & Hl & Hfeat & Hatt & Hvec & Hlog).
  change (positions k T) with T' in Hx, Ha.
  exists fw.
  split; [exact Hfw|]. split; [unfold forward; rewrite Hfw; reflexivity|].
  split; [exact Ha|]. split; [exact Hx|]. split; [exact Hm|]. split; [exact Hfeat|].
  intros b l _ _.
  assert (Hpos : (0 < sum_n T' (fun t' => exp (score net mask text E F k T b l t')))%R).
  { apply sum_exp_pos with (s := fun t' => score net mask text E F k T b l t').
    unfold T'. pose proof (padding_fits k T HT). lia. }
  assert (Halpha : forall t, get3 (fw_alpha fw) b l t =
            (exp (score net mask text E F k T b l t)
             / sum_n T' (fun t' => exp (score net mask text E F k T b l t')))%R).
  { intros t. rewrite Hatt. reflexivity. }
  split; [|split; [|split]].
  - intros t _. rewrite Halpha. apply Rlt_le.
    apply Rdiv_lt_0_compat; [apply exp_pos|exact Hpos].
  - rewrite (sum_n_ext _ _ _ (fun t _ => Halpha t)).
    rewrite sum_n_div with (f := fun t => exp _).
    apply Rdiv_diag. apply Rgt_not_eq. exact Hpos.
  - exact Halpha.
  - intros f _. rewrite Hvec. unfold document_vector. apply sum_n_ext. intros t _.
    rewrite Hatt. reflexivity.
Qed.

Lemma attention_is_distribution_witness :
  exists fw,
    forward_steps (scenario_net 3) (fun _ _ _ => 1%R) scenario_text = Ok fw /\
    shape3 (fw_alpha fw) = (4, 5, 20) /\
    forall b l, b < 4 -> l < 5 ->
      sum_n 20 (get3 (fw_alpha fw) b l) = 1%R.
Proof.
  destruct (attention_is_distribution (scenario_net 3) (fun _ _ _ => 1%R) scenario_text
              1000 50 100 3 5 4 20) as (fw & Hfw & _ & Ha & _ & _ & _ & H).
  - split; reflexivity.
  - reflexivity.
  - reflexivity.
  - lia.
  - exists fw. split; [exact Hfw|]. split; [exact Ha|].
    intros b l Hb Hl. destruct (H b l Hb Hl) as (_ & Hsum & _). exact Hsum.
Defined.

(** C2.  For a batch of size B with at least one position and L labels the
    forward pass returns logits of shape B x L; the logit of label l is the
    sum over the feature axis of the products of label l's classifier
    weights with label l's document vector, the attention-weighted sum of
    the per-position features, plus label l's bias; the sigmoid of the
    logits has the same shape and lies in [0,1] elementwise. *)
Theorem logits_per_label net mask text V E F k L B T :
  well_shaped net V E F k L ->
  ids_shape text = (B, T) ->
  valid_ids V text = true ->
  1 <= T ->
  exists fw,
    forward_steps net mask text = Ok fw /\
    forward net mask text = Ok (mkOutput (fw_logits fw) (fw_alpha fw)) /\
    shape2 (fw_logits fw) = (B, L) /\
    shape2 (sigmoid2 (fw_logits fw)) = (B, L) /\
    forall b l, b < B -> l < L ->
      get2 (fw_logits fw) b l =
        (sum_n F (fun f => get2 (final_weight (params net)) l f * get3 (fw_m fw) b l f)
         + get1 (final_bias (params net)) l)%R /\
      (forall f, get3 (fw_m fw) b l f = document_vector net mask text E F k T b l f) /\
      get2 (fw_logits fw) b l = label_logit net mask text E F k T b l /\
      get2 (sigmoid2 (fw_logits fw)) b l = sigmoid (get2 (fw_logits fw) b l) /\
      (0 <= get2 (sigmoid2 (fw_logits fw)) b l <= 1)%R.
Proof.
  intros Hw Hids Hv HT.
  destruct (forward_steps_spec net mask text V E F k L B T Hw Hids Hv HT)
    as (fw & Hfw & Hx & Ha & Hm & Hl & Hfeat & Hatt & Hvec & Hlog).
  exists fw.
  split; [exact Hfw|]. split; [unfold forward; rewrite Hfw; reflexivity|].
  split; [exact Hl|]. split; [exact Hl|].
  intros b l _ Hlt.
  split.
  { rewrite (Hlog b l Hlt). unfold label_logit. f_equal.
    apply sum_n_ext. intros f _. rewrite Hvec. reflexivity. }
  split; [intros f; apply Hvec|]. split; [apply Hlog; exact Hlt|].
  split; [reflexivity|apply sigmoid_bounds].
Qed.

Lemma logits_per_label_witness :
  exists fw,
    forward_steps (scenario_net 3) (fun _ _ _ => 1%R) scenario_text = Ok fw /\
    shape2 (fw_logits fw) = (4, 5) /\
    forall b l, b < 4 -> l < 5 ->
      get2 (fw_logits fw) b l
      = label_logit (scenario_net 3) (fun _ _ _ => 1%R) scenario_text 50 100 3 20 b l.
Proof.
  destruct (logits_per_label (scenario_net 3) (fun _ _ _ => 1%R) scenario_text
              1000 50 100 3 5 4 20) as (fw & Hfw & _ & Hl & _ & H).
  - split; reflexivity.
  - reflexivity.
  - reflexivity.
  - lia.
  - exists fw. split; [exact Hfw|]. split; [exact Hl|].
    intros b l Hb Hlt. destruct (H b l Hb Hlt) as (_ & _ & Hlog & _). exact Hlog.
Defined.

(** C9: with filter size 2 the padding is 1, and a batch of sequences of
    length 20 comes out of the convolution with 21 positions. *)
Lemma even_filter_size_adds_a_position :
  exists fw,
    forward_steps (scenario_net 2) (fun _ _ _ => 1%R) scenario_text = Ok fw /\
    ids_shape scenario_text = (4, 20) /\
    shape3 (fw_conv fw) = (4, 100, 21) /\
    shape3 (fw_alpha fw) = (4, 5, 21) /\
    shape3 (fw_conv fw) <> (4, 100, 20).
Proof.
  eexists. split; [reflexivity|].
  split; [reflexivity|]. split; [reflexivity|]. split; [reflexivity|].
  cbn. intros H. discriminate H.
Qed.

(** An even filter size adds one position. *)
Lemma even_filter_size_length net mask text V E F k L B T :
  well_shaped net V E F k L ->
  ids_shape text = (B, T) ->
  valid_ids V text = true ->
  Nat.even k = true ->
  1 <= T ->
  exists fw,
    forward_steps net mask text = Ok fw /\
    shape3 (fw_conv fw) = (B, F, T + 1) /\
    shape3 (fw_alpha fw) = (B, L, T + 1).
Proof.
  intros Hw Hids Hv Heven HT.
  destruct (even_padding k T Heven) as [Hk Hlen].
  destruct (forward_steps_ok net mask text V E F k L B T Hw Hids Hv HT)
    as (fw & Hfw & Hc & Hx & Ha & _).
  cbv zeta in Hc, Ha. rewrite Hlen in Hc, Ha.
  exists fw. auto.
Qed.

(** C9 (amended).  For every odd filter size and every sequence length of
    at least 1, the convolution with padding floor(filter_size/2) yields
    num_filter_maps channels at exactly seq_len positions, followed by a
    hyperbolic tangent, and the attention weights have one entry per
    document, label and position; with filter size 3, batch size 4, 5 labels
    and sequence length 20 their shape is (4,5,20). *)
Theorem odd_filter_size_preserves_length net mask text V E F k L B T :
  well_shaped net V E F k L ->
  ids_shape text = (B, T) ->
  valid_ids V text = true ->
  Nat.odd k = true ->
  1 <= T ->
  exists fw,
    forward_steps net mask text = Ok fw /\
    conv_padding net = k / 2 /\
    shape3 (fw_conv fw) = (B, F, T) /\
    shape3 (fw_x fw) = (B, T, F) /\
    (forall b t f, get3 (fw_x fw) b t f = tanh (get3 (fw_conv fw) b f t)) /\
    shape3 (fw_alpha fw) = (B, L, T).
Proof.
  intros Hw Hids Hv Hodd HT.
  destruct (odd_padding k T Hodd HT) as [Hk Hlen].
  destruct (forward_steps_ok net mask text V E F k L B T Hw Hids Hv HT)
    as (fw & Hfw & Hc & Hx & Ha & Hm & Hl & Htanh & Halpha & Hdoc & Hlog & _).
  cbv zeta in Hc, Hx, Ha. rewrite Hlen in Hc, Hx, Ha.
  exists fw. destruct Hw as [_ Hp]. auto 10.
Qed.

Lemma odd_filter_size_preserves_length_witness :
  exists fw,
    forward_steps (scenario_net 3) (fun _ _ _ => 1%R) scenario_text = Ok fw /\
    conv_padding (scenario_net 3) = 3 / 2 /\
    shape3 (fw_conv fw) = (4, 100, 20) /\
    shape3 (fw_x fw) = (4, 20, 100) /\
    (forall b t f, get3 (fw_x fw) b t f = tanh (get3 (fw_conv fw) b f t)) /\
    shape3 (fw_alpha fw) = (4, 5, 20).
Proof.
  apply (odd_filter_size_preserves_length (scenario_net 3) (fun _ _ _ => 1%R) scenario_text
           1000 50 100 3 5 4 20).
  - split; reflexivity.
  - reflexivity.
  - reflexivity.
  - reflexivity.
  - lia.
Defined.

(** ** The checkpoint manager *)

Ltac unfold_M :=
  unfold mbind, modify, gets, ret, raise, lift, on_fs, log_info in *.

Lemma save_cases epoch is_best w :
  exists w' r, save epoch is_best w = (w', r).
Proof. eexists _, _. apply surjective_pairing. Qed.

Lemma save_ok epoch is_best w w' :
  save epoch is_best w = (w', Ok tt) ->
  exists fs1 fs2,
    makedirs (dirname (last_path (config (self w)))) (fs w) = Ok fs1 /\
    torch_save (ckpt_of (self w) epoch) (last_path (config (self w))) fs1 = Ok fs2 /\
    (if is_best
     then copyfile (last_path (config (self w))) (best_path (config (self w))) fs2 = Ok (fs w')
     else fs w' = fs2) /\
    self w' = set_network (set_training true (network (self w))) (self w) /\
    log w' = (log w ++ SaveCurrent (last_path (config (self w))) ::
               (if is_best then [SaveBest (best_metric (self w)) (best_path (config (self w)))] else []))%list.
Proof.
  unfold save, last_path, best_path, ckpt_of, state_dict. unfold_M.
  cbn -[path_join replace dirname makedirs torch_save copyfile].
  destruct (makedirs _ (fs w)) as [fs1|e1] eqn:H1; [|discriminate].
  cbn -[path_join replace dirname makedirs torch_save copyfile].
  destruct (torch_save _ _ fs1) as [fs2|e2] eqn:H2; [|discriminate].
  cbn -[path_join replace dirname makedirs torch_save copyfile].
  destruct is_best; cbn -[path_join replace dirname makedirs torch_save copyfile].
  - destruct (copyfile _ _ fs2) as [fs3|e3] eqn:H3; [|discriminate].
    intros H. injection H as <-. exists fs1, fs2.
    repeat split; try assumption; try reflexivity.
    cbn. rewrite <- app_assoc. reflexivity.
  - intros H. injection H as <-. exists fs1, fs2.
    repeat split; try assumption; reflexivity.
Qed.

Lemma train_step_frame env inputs w w' r :
  train_step env inputs w = (w', r) ->
  same_progress w w' /\ fs w' = fs w /\ log w' = log w.
Proof.
  unfold train_step, zero_grad, loss_backward, optimizer_step. unfold_M.
  cbn -[forward binary_cross_entropy_with_logits].
  destruct (forward _ _ _) as [out|e]; cbn -[binary_cross_entropy_with_logits];
    [|intros H; injection H as <- <-; repeat split].
  destruct (binary_cross_entropy_with_logits _ _) as [loss|e]; cbn;
    [|intros H; injection H as <- <-; repeat split].
  destruct (backward env _ inputs) as [g|e]; cbn;
    [|intros H; injection H as <- <-; repeat split].
  destruct (optim_step env _ _ g) as [wt st]; cbn.
  intros H; injection H as <- <-; repeat split.
Qed.

Lemma same_progress_refl w : same_progress w w.
Proof. repeat split. Qed.

Lemma same_progress_trans w1 w2 w3 :
  same_progress w1 w2 -> same_progress w2 w3 -> same_progress w1 w3.
Proof.
  unfold same_progress. intros (a1 & a2 & a3 & a4 & a5) (b1 & b2 & b3 & b4 & b5).
  repeat split; congruence.
Qed.

Lemma train_epoch_frame env data_loader w w' r :
  train_epoch env data_loader w = (w', r) ->
  same_progress w w' /\ fs w' = fs w /\ log w' = log w.
Proof.
  revert w. induction data_loader as [|b rest IH]; intros w; simpl.
  - unfold ret. intros H; injection H as <- <-. repeat split.
  - unfold mbind at 1.
    destruct (train_step env b w) as [w1 [a|e]] eqn:Hs;
      apply train_step_frame in Hs; destruct Hs as (Hp & Hf & Hl).
    + intros H. apply IH in H. destruct H as (Hp' & Hf' & Hl').
      split; [eapply same_progress_trans; eauto|]. split; congruence.
    + intros H; injection H as <- <-. auto.
Qed.

Lemma started_epochs_app l1 l2 :
  started_epochs (l1 ++ l2) = (started_epochs l1 ++ started_epochs l2)%list.
Proof. apply flat_map_app. Qed.

Lemma observed_metrics_app l1 l2 :
  observed_metrics (l1 ++ l2) = (observed_metrics l1 ++ observed_metrics l2)%list.
Proof. apply flat_map_app. Qed.

Lemma outcomes_app l1 l2 :
  outcomes (l1 ++ l2) = (outcomes l1 ++ outcomes l2)%list.
Proof. apply flat_map_app. Qed.

Lemma save_frame epoch is_best w w' r :
  save epoch is_best w = (w', r) ->
  same_progress w w' /\
  params (network (self w')) = params (network (self w)) /\
  optimizer (self w') = optimizer (self w) /\
  exists l, log w' = (log w ++ l)%list /\ started_epochs l = [] /\
            observed_metrics l = [] /\ outcomes l = [].
Proof.
  unfold save, state_dict. unfold_M.
  cbn -[path_join replace dirname makedirs torch_save copyfile].
  destruct (makedirs _ (fs w)) as [fs1|e1];
    cbn -[path_join replace dirname makedirs torch_save copyfile].
  2:{ intros H; injection H as <- <-. repeat split.
      exists []. rewrite app_nil_r. auto. }
  destruct (torch_save _ _ fs1) as [fs2|e2];
    cbn -[path_join replace dirname makedirs torch_save copyfile].
  2:{ intros H; injection H as <- <-. repeat split.
      eexists. split; [reflexivity|]. auto. }
  destruct is_best; cbn -[path_join replace dirname makedirs torch_save copyfile].
  - destruct (copyfile _ _ fs2) as [fs3|e3];
      cbn -[path_join replace dirname makedirs torch_save copyfile];
      intros H; injection H as <- <-; repeat split;
      eexists; (split; [rewrite <- app_assoc; reflexivity|]); auto.
  - intros H; injection H as <- <-. repeat split.
    eexists. split; [reflexivity|]. auto.
Qed.

(** ** Files written by [save] *)

Lemma makedirs_files d fs0 fs1 : makedirs d fs0 = Ok fs1 -> files fs1 = files fs0.
Proof.
  unfold makedirs. destruct (String.eqb d ""); [discriminate|].
  destruct (existsb _ _); [discriminate|].
  destruct (is_file fs0 d && negb (dir_exists fs0 d)); [discriminate|].
  intros H; injection H as <-. reflexivity.
Qed.

Lemma write_file_files p f fs0 fs1 :
  write_file p f fs0 = Ok fs1 -> files fs1 = <[p := f]> (files fs0).
Proof.
  unfold write_file. destruct (String.eqb p ""); [discriminate|].
  destruct (file_on_the_way fs0 (dirname p)); [discriminate|].
  destruct (negb (dir_exists fs0 (dirname p))); [discriminate|].
  destruct (dir_exists fs0 p || endswith_slash p); [discriminate|].
  intros H; injection H as <-. reflexivity.
Qed.

Lemma copyfile_files src dst fs0 fs1 :
  copyfile src dst fs0 = Ok fs1 ->
  src <> dst /\
  exists content, files fs0 !! src = Some content /\
                  files fs1 = <[dst := content]> (files fs0).
Proof.
  unfold copyfile. destruct (String.eqb_spec src dst) as [->|Hne]; [discriminate|].
  destruct (files fs0 !! src) as [content|] eqn:Hsrc; [|discriminate].
  intros H. apply write_file_files in H. eauto.
Qed.

Lemma save_last_file epoch is_best w w' :
  save epoch is_best w = (w', Ok tt) ->
  files (fs w') !! last_path (config (self w)) = Some (CkptFile (ckpt_of (self w) epoch)).
Proof.
  intros H. apply save_ok in H.
  destruct H as (fs1 & fs2 & Hmk & Hsv & Hbest & _).
  apply write_file_files in Hsv.
  destruct is_best.
  - apply copyfile_files in Hbest. destruct Hbest as (Hne & c & _ & ->).
    rewrite lookup_insert_ne by auto. rewrite Hsv. apply lookup_insert_eq.
  - subst fs2. rewrite Hsv. apply lookup_insert_eq.
Qed.

Lemma save_other_files epoch w w' p :
  save epoch false w = (w', Ok tt) ->
  p <> last_path (config (self w)) ->
  files (fs w') !! p = files (fs w) !! p.
Proof.
  intros H Hp. apply save_ok in H.
  destruct H as (fs1 & fs2 & Hmk & Hsv & Hbest & _).
  apply write_file_files in Hsv. apply makedirs_files in Hmk.
  subst fs2. rewrite Hsv, Hmk. apply lookup_insert_ne. auto.
Qed.

Lemma save_best_files epoch w w' :
  save epoch true w = (w', Ok tt) ->
  best_path (config (self w)) <> last_path (config (self w)) /\
  files (fs w') !! last_path (config (self w))
    = Some (CkptFile (ckpt_of (self w) epoch)) /\
  files (fs w') !! best_path (config (self w))
    = files (fs w') !! last_path (config (self w)) /\
  exists written,
    torch_save (ckpt_of (self w) epoch) (last_path (config (self w))) written.1 = Ok written.2 /\
    copyfile (last_path (config (self w))) (best_path (config (self w))) written.2 = Ok (fs w').
Proof.
  intros H. pose proof (save_last_file _ _ _ _ H) as Hlast.
  apply save_ok in H. destruct H as (fs1 & fs2 & Hmk & Hsv & Hbest & _).
  pose proof (copyfile_files _ _ _ _ Hbest) as (Hne & c & Hc & Hf).
  split; [congruence|]. split; [exact Hlast|]. split.
  - rewrite Hlast, Hf, lookup_insert_eq.
    apply write_file_files in Hsv. rewrite Hsv, lookup_insert_eq in Hc. congruence.
  - exists (fs1, fs2). auto.
Qed.


(** ** One epoch of the training loop *)

Lemma run_epoch_spec env tl dl em epoch p w w' r :
  run_epoch env tl dl em epoch p w = (w', r) ->
  config (self w') = config (self w) /\
  start_epoch (self w') = start_epoch (self w) /\
  exists l,
    log w' = (log w ++ StartingEpoch epoch :: l)%list /\
    started_epochs l = [] /\
    ((observed_metrics l = [] /\ outcomes l = [] /\
      best_metric (self w') = best_metric (self w) /\ exists e, r = Raise e)
     \/
     exists v,
       observed_metrics l = [v] /\
       outcomes l = [Qle_bool (best_metric (self w)) v] /\
       best_metric (self w') =
         (if Qle_bool (best_metric (self w)) v then v else best_metric (self w)) /\
       forall p', r = Ok p' ->
         p' = (if Qle_bool (best_metric (self w)) v
               then Config.patience (config (self w)) else (p - 1)%Z) /\
         exists ck,
           files (fs w') !! last_path (config (self w)) = Some (CkptFile ck) /\
           Ckpt.epoch ck = epoch /\
           Ckpt.best_metric ck = best_metric (self w') /\
           (if Qle_bool (best_metric (self w)) v
            then files (fs w') !! best_path (config (self w)) = Some (CkptFile ck)
            else forall q, q <> last_path (config (self w)) ->
                           files (fs w') !! q = files (fs w) !! q)).
Proof.
  unfold run_epoch.
  unfold mbind at 1. unfold log_info at 1, modify at 1.
  unfold mbind at 1.
  destruct (train_epoch env tl _) as [w1 [[]|e]] eqn:Ht;
    apply train_epoch_frame in Ht; unfold same_progress in Ht; cbn [self fs log] in Ht;
    destruct Ht as ((Hc & Hb & Hs & _) & Hf & Hl).
  2:{ intros H; injection H as <- <-. repeat split; try assumption.
      exists []. split; [exact Hl|]. split; [reflexivity|]. left. eauto. }
  unfold mbind at 1. unfold log_info at 1, modify at 1.
  unfold mbind at 1. unfold gets at 1. cbn [self].
  unfold mbind at 1. unfold lift at 1.
  destruct (evaluate env _ _ dl em) as [dev_metrics|e].
  2:{ intros H; injection H as <- <-. repeat split; try assumption.
      exists [StartValidate]. cbn [log]. rewrite Hl, <- app_assoc.
      split; [reflexivity|]. split; [reflexivity|]. left. eauto. }
  unfold mbind at 1. unfold lift at 1.
  destruct (val_metric_of _ _) as [v|e].
  2:{ intros H; injection H as <- <-. repeat split; try assumption.
      exists [StartValidate]. cbn [log]. rewrite Hl, <- app_assoc.
      split; [reflexivity|]. split; [reflexivity|]. left. eauto. }
  unfold mbind at 1. unfold log_info at 1, modify at 1. cbn [self fs log].
  rewrite Hb.
  destruct (Qle_bool (best_metric (self w)) v) eqn:Hcmp; cbv iota.
  - unfold mbind at 1. unfold modify at 1.
    unfold mbind at 1.
    match goal with |- context [save epoch true ?w0] => set (wm := w0) end.
    destruct (save epoch true wm) as [w2 [[]|e]] eqn:Hsave.
    + pose proof (save_frame _ _ _ _ _ Hsave) as ((Hc2 & Hb2 & Hs2 & _) & _ & _ & l2 & Hl2 & Hst2 & Hob2 & Hou2).
      pose proof (save_best_files _ _ _ Hsave) as (_ & Hlast & Hbest & _).
      unfold mbind, gets, ret. intros H; injection H as <- <-.
      subst wm. cbn [self fs log on_self set_best_metric config start_epoch best_metric] in *.
      rewrite Hc2, Hs2, Hb2, Hc, Hs. split; [reflexivity|]. split; [reflexivity|].
      exists ([StartValidate; Evaluated epoch v true] ++ l2)%list.
      split; [rewrite Hl2, Hl, <- !app_assoc; reflexivity|].
      split; [rewrite started_epochs_app, Hst2; reflexivity|].
      right. exists v. rewrite Hcmp.
      split; [rewrite observed_metrics_app, Hob2; reflexivity|].
      split; [rewrite outcomes_app, Hou2; reflexivity|].
      split; [reflexivity|].
      intros p' Hp'. injection Hp' as <-. split; [reflexivity|].
      rewrite Hc in Hlast, Hbest.
      eexists. split; [exact Hlast|]. split; [reflexivity|]. split; [reflexivity|].
      rewrite Hbest. exact Hlast.
    + pose proof (save_frame _ _ _ _ _ Hsave) as ((Hc2 & Hb2 & Hs2 & _) & _ & _ & l2 & Hl2 & Hst2 & Hob2 & Hou2).
      intros H; injection H as <- <-.
      subst wm. cbn [self fs log on_self set_best_metric config start_epoch best_metric] in *.
      rewrite Hc2, Hs2, Hb2, Hc, Hs. split; [reflexivity|]. split; [reflexivity|].
      exists ([StartValidate; Evaluated epoch v true] ++ l2)%list.
      split; [rewrite Hl2, Hl, <- !app_assoc; reflexivity|].
      split; [rewrite started_epochs_app, Hst2; reflexivity|].
      right. exists v. rewrite Hcmp.
      split; [rewrite observed_metrics_app, Hob2; reflexivity|].
      split; [rewrite outcomes_app, Hou2; reflexivity|].
      split; [reflexivity|]. intros p' Hp'. discriminate Hp'.
  - unfold mbind at 1. unfold log_info at 1, modify at 1. cbn [self fs log].
    unfold mbind at 1.
    match goal with |- context [save epoch false ?w0] => set (wm := w0) end.
    destruct (save epoch false wm) as [w2 [[]|e]] eqn:Hsave.
    + pose proof (save_frame _ _ _ _ _ Hsave) as ((Hc2 & Hb2 & Hs2 & _) & _ & _ & l2 & Hl2 & Hst2 & Hob2 & Hou2).
      pose proof (save_last_file _ _ _ _ Hsave) as Hlast.
      pose proof (fun q => save_other_files _ _ _ q Hsave) as Hother.
      unfold ret. intros H; injection H as <- <-.
      subst wm. cbn [self fs log config start_epoch best_metric] in *.
      rewrite Hc2, Hs2, Hb2, Hc, Hs, Hb. split; [reflexivity|]. split; [reflexivity|].
      exists ([StartValidate; Evaluated epoch v false; NotIncrease p] ++ l2)%list.
      split; [rewrite Hl2, Hl, <- !app_assoc; reflexivity|].
      split; [rewrite started_epochs_app, Hst2; reflexivity|].
      right. exists v. rewrite Hcmp.
      split; [rewrite observed_metrics_app, Hob2; reflexivity|].
      split; [rewrite outcomes_app, Hou2; reflexivity|].
      split; [reflexivity|].
      intros p' Hp'. injection Hp' as <-. split; [reflexivity|].
      rewrite Hc in Hlast, Hother.
      eexists. split; [exact Hlast|]. split; [reflexivity|].
      split; [cbn; exact Hb|].
      intros q Hq. rewrite Hother by exact Hq. rewrite Hf. reflexivity.
    + pose proof (save_frame _ _ _ _ _ Hsave) as ((Hc2 & Hb2 & Hs2 & _) & _ & _ & l2 & Hl2 & Hst2 & Hob2 & Hou2).
      intros H; injection H as <- <-.
      subst wm. cbn [self fs log config start_epoch best_metric] in *.
      rewrite Hc2, Hs2, Hb2, Hc, Hs, Hb. split; [reflexivity|]. split; [reflexivity|].
      exists ([StartValidate; Evaluated epoch v false; NotIncrease p] ++ l2)%list.
      split; [rewrite Hl2, Hl, <- !app_assoc; reflexivity|].
      split; [rewrite started_epochs_app, Hst2; reflexivity|].
      right. exists v. rewrite Hcmp.
      split; [rewrite observed_metrics_app, Hob2; reflexivity|].
      split; [rewrite outcomes_app, Hou2; reflexivity|].
      split; [reflexivity|]. intros p' Hp'. discriminate Hp'.
Qed.

(** ** The training loop *)

Lemma is_max_single x : is_max x [x].
Proof.
  split; [left; reflexivity|]. constructor; [apply Qle_refl|constructor].
Qed.

Lemma is_max_step b v :
  is_max (if Qle_bool b v then v else b) [b; v].
Proof.
  destruct (Qle_bool b v) eqn:H.
  - apply Qle_bool_iff in H. split; [right; left; reflexivity|].
    repeat constructor; [exact H|apply Qle_refl].
  - assert (Hlt : (v <= b)%Q).
    { apply Qnot_lt_le. intros Hlt. apply Qlt_le_weak in Hlt.
      apply Qle_bool_iff in Hlt. congruence. }
    split; [left; reflexivity|].
    repeat constructor; [apply Qle_refl|exact Hlt].
Qed.

Lemma is_max_trans b0 b1 b2 l1 l2 :
  is_max b1 (b0 :: l1) -> is_max b2 (b1 :: l2) -> is_max b2 (b0 :: l1 ++ l2).
Proof.
  intros [Hin1 Hall1] [Hin2 Hall2].
  assert (H12 : (b1 <= b2)%Q) by (inversion Hall2; assumption).
  split.
  - destruct Hin2 as [<-|Hin2].
    + rewrite app_comm_cons. apply in_or_app. left. exact Hin1.
    + right. apply in_or_app. right. exact Hin2.
  - rewrite app_comm_cons. apply List.Forall_app. split.
    + eapply List.Forall_impl; [|exact Hall1]. cbv beta. intros y Hy.
      eapply Qle_trans; eassumption.
    + inversion Hall2; assumption.
Qed.

Lemma map_seq_shift (f : nat -> Z) n :
  map f (seq 1 n) = map (fun i => f (S i)) (seq 0 n).
Proof. rewrite <- seq_shift, map_map. reflexivity. Qed.

Lemma train_loop_spec env tl dl em fuel :
  forall epoch p w w' r,
  train_loop env fuel tl dl em epoch p w = (w', r) ->
  config (self w') = config (self w) /\
  start_epoch (self w') = start_epoch (self w) /\
  exists l,
    log w' = (log w ++ l)%list /\
    is_max (best_metric (self w')) (best_metric (self w) :: observed_metrics l) /\
    started_epochs l =
      map (fun i => (epoch + Z.of_nat i)%Z) (seq 0 (length (started_epochs l))) /\
    Forall (fun e => (e <= Config.epochs (config (self w)))%Z) (started_epochs l) /\
    length (outcomes l) <= length (started_epochs l) /\
    (forall k i,
       p = (Config.patience (config (self w)) - Z.of_nat k)%Z ->
       i <= length (outcomes l) ->
       Z.of_nat (failures_from k (firstn i (outcomes l)))
         = Config.patience (config (self w)) ->
       length (started_epochs l) <= i) /\
    ((Config.epochs (config (self w)) - epoch + 1 <= Z.of_nat fuel)%Z ->
     r <> Ok false).
Proof.
  induction fuel as [|fuel IH]; intros epoch p w w' r.
  - cbn [train_loop]. unfold mbind at 1, gets at 1.
    destruct (Z.leb_spec epoch (Config.epochs (config (self w)))) as [Hle|Hgt].
    + destruct (Z.eqb_spec p 0) as [Hp|Hp].
      * unfold mbind, log_info, modify, ret. intros H; injection H as <- <-.
        cbn [self log]. split; [reflexivity|]. split; [reflexivity|].
        exists [ReachPatience]. cbn.
        repeat split; try apply is_max_single; try constructor; try lia; discriminate.
      * unfold ret. intros H; injection H as <- <-.
        split; [reflexivity|]. split; [reflexivity|].
        exists []. rewrite app_nil_r. cbn.
        repeat split; try apply is_max_single; try constructor; try lia.
    + unfold ret. intros H; injection H as <- <-.
      split; [reflexivity|]. split; [reflexivity|].
      exists []. rewrite app_nil_r. cbn.
      repeat split; try apply is_max_single; try constructor; try lia; discriminate.
  - cbn [train_loop]. unfold mbind at 1, gets at 1.
    destruct (Z.leb_spec epoch (Config.epochs (config (self w)))) as [Hle|Hgt].
    + destruct (Z.eqb_spec p 0) as [Hp|Hp].
      * unfold mbind, log_info, modify, ret. intros H; injection H as <- <-.
        cbn [self log]. split; [reflexivity|]. split; [reflexivity|].
        exists [ReachPatience]. cbn.
        repeat split; try apply is_max_single; try constructor; try lia; discriminate.
      * unfold mbind at 1.
        destruct (run_epoch env tl dl em epoch p w) as [w1 [p'|e]] eqn:Hre;
          apply run_epoch_spec in Hre;
          destruct Hre as (Hc1 & Hs1 & l1 & Hl1 & Hst1 & Hcase).
        -- intros H. apply IH in H.
           destruct H as (Hc2 & Hs2 & l2 & Hl2 & Hmax2 & Hseq2 & Hall2 & Hlen2 & Hstop2 & Hfuel2).
           rewrite Hc1 in *.
           destruct Hcase as [(_ & _ & _ & e & He)|(v & Hob1 & Hou1 & Hb1 & Hp')];
             [discriminate He|].
           destruct (Hp' p' eq_refl) as (Hp'' & _).
           split; [congruence|]. split; [congruence|].
           exists (StartingEpoch epoch :: l1 ++ l2)%list.
           assert (Hst : started_epochs (StartingEpoch epoch :: l1 ++ l2)
                         = epoch :: started_epochs l2).
           { change (started_epochs (StartingEpoch epoch :: l1 ++ l2))
               with (epoch :: started_epochs (l1 ++ l2)).
             rewrite started_epochs_app, Hst1. reflexivity. }
           assert (Hob : observed_metrics (StartingEpoch epoch :: l1 ++ l2)
                         = v :: observed_metrics l2).
           { change (observed_metrics (StartingEpoch epoch :: l1 ++ l2))
               with (observed_metrics (l1 ++ l2)).
             rewrite observed_metrics_app, Hob1. reflexivity. }
           assert (Hou : outcomes (StartingEpoch epoch :: l1 ++ l2)
                         = Qle_bool (best_metric (self w)) v :: outcomes l2).
           { change (outcomes (StartingEpoch epoch :: l1 ++ l2))
               with (outcomes (l1 ++ l2)).
             rewrite outcomes_app, Hou1. reflexivity. }
           rewrite Hst, Hob, Hou.
           split; [rewrite Hl2, Hl1, <- app_assoc; reflexivity|].
           split.
           { apply (is_max_trans _ (best_metric (self w1)) _ [v] _); [|exact Hmax2].
             rewrite Hb1. apply is_max_step. }
           split.
           { cbn [length seq map]. rewrite Z.add_0_r. f_equal.
             rewrite map_seq_shift. rewrite Hseq2 at 1.
             apply map_ext. intros i. lia. }
           split; [constructor; [exact Hle|exact Hall2]|].
           split; [cbn [length]; lia|].
           split.
           { intros k i Hk Hi Hfail. destruct i as [|i].
             - cbn in Hfail. lia.
             - cbn [length]. apply le_n_S.
               cbn [firstn] in Hfail. cbn [length] in Hi.
               destruct (Qle_bool (best_metric (self w)) v); cbn [failures_from] in Hfail.
               + apply (Hstop2 0 i); [lia|lia|exact Hfail].
               + apply (Hstop2 (S k) i); [lia|lia|exact Hfail]. }
           { intros Hf. apply Hfuel2. lia. }
        -- intros H; injection H as <- <-.
           split; [exact Hc1|]. split; [exact Hs1|].
           exists (StartingEpoch epoch :: l1).
           change (started_epochs (StartingEpoch epoch :: l1))
             with (epoch :: started_epochs l1).
           change (observed_metrics (StartingEpoch epoch :: l1))
             with (observed_metrics l1).
           change (outcomes (StartingEpoch epoch :: l1)) with (outcomes l1).
           rewrite Hst1.
           split; [exact Hl1|].
           split.
           { destruct Hcase as [(-> & _ & -> & _)|(v & -> & _ & -> & _)];
               [apply is_max_single|apply is_max_step]. }
           split; [cbn; rewrite Z.add_0_r; reflexivity|].
           split; [constructor; [exact Hle|constructor]|].
           split.
           { destruct Hcase as [(_ & -> & _)|(v & _ & -> & _)]; cbn; lia. }
           split; [|discriminate].
           intros k i Hk Hi Hfail. destruct i as [|i]; [|cbn; lia].
           rewrite firstn_O in Hfail. cbn in Hfail. lia.
    + unfold ret. intros H; injection H as <- <-.
      split; [reflexivity|]. split; [reflexivity|].
      exists []. rewrite app_nil_r. cbn.
      repeat split; try apply is_max_single; try constructor; try lia; discriminate.
Qed.

Lemma train_spec env train_dataset dev_dataset eval_metric w w' r :
  train env train_dataset dev_dataset eval_metric w = (w', r) ->
  config (self w') = config (self w) /\
  start_epoch (self w') = start_epoch (self w) /\
  exists l,
    log w' = (log w ++ StartTraining :: l)%list /\
    is_max (best_metric (self w')) (best_metric (self w) :: observed_metrics l) /\
    started_epochs l =
      map (fun i => (start_epoch (self w) + 1 + Z.of_nat i)%Z)
          (seq 0 (length (started_epochs l))) /\
    Forall (fun e => (e <= Config.epochs (config (self w)))%Z) (started_epochs l) /\
    length (outcomes l) <= length (started_epochs l) /\
    (forall i,
       i <= length (outcomes l) ->
       Z.of_nat (consecutive_failures (firstn i (outcomes l)))
         = Config.patience (config (self w)) ->
       length (started_epochs l) <= i) /\
    r <> Ok false.
Proof.
  unfold train. unfold mbind at 1, gets at 1.
  unfold mbind at 1, log_info at 1, modify at 1.
  unfold try_except_KeyboardInterrupt.
  unfold mbind at 1, gets at 1. cbn [self fs log].
  match goal with
  | |- context [train_loop env ?f ?tl ?dl ?em ?e ?p ?w0] =>
      destruct (train_loop env f tl dl em e p w0) as [w1 r1] eqn:Hloop
  end.
  apply train_loop_spec in Hloop. cbn [self fs log] in Hloop.
  destruct Hloop as (Hc & Hs & l & Hl & Hmax & Hseq & Hall & Hlen & Hstop & Hfuel).
  assert (Hnf : r1 <> Ok false).
  { apply Hfuel.
    destruct (Z.le_gt_cases (start_epoch (self w)) (Config.epochs (config (self w)))).
    - rewrite Z2Nat.id by lia. lia.
    - lia. }
  assert (Hstop' : forall i, i <= length (outcomes l) ->
            Z.of_nat (consecutive_failures (firstn i (outcomes l)))
              = Config.patience (config (self w)) ->
            length (started_epochs l) <= i).
  { intros i Hi Hf. apply (Hstop 0 i); [cbn; lia|exact Hi|exact Hf]. }
  assert (Hgen : forall w2 r2 l2,
            config (self w2) = config (self w1) ->
            start_epoch (self w2) = start_epoch (self w1) ->
            best_metric (self w2) = best_metric (self w1) ->
            log w2 = (log w1 ++ l2)%list ->
            started_epochs l2 = [] -> observed_metrics l2 = [] -> outcomes l2 = [] ->
            r2 <> Ok false ->
            (w2, r2) = (w', r) ->
            config (self w') = config (self w) /\
            start_epoch (self w') = start_epoch (self w) /\
            exists l0,
              log w' = (log w ++ StartTraining :: l0)%list /\
              is_max (best_metric (self w')) (best_metric (self w) :: observed_metrics l0) /\
              started_epochs l0 =
                map (fun i => (start_epoch (self w) + 1 + Z.of_nat i)%Z)
                    (seq 0 (length (started_epochs l0))) /\
              Forall (fun e => (e <= Config.epochs (config (self w)))%Z) (started_epochs l0) /\
              length (outcomes l0) <= length (started_epochs l0) /\
              (forall i,
                 i <= length (outcomes l0) ->
                 Z.of_nat (consecutive_failures (firstn i (outcomes l0)))
                   = Config.patience (config (self w)) ->
                 length (started_epochs l0) <= i) /\
              r <> Ok false).
  { intros w2 r2 l2 Hc2 Hs2 Hb2 Hl2 Hst2 Hob2 Hou2 Hr2 Heq. injection Heq as <- <-.
    split; [congruence|]. split; [congruence|].
    exists (l ++ l2)%list.
    rewrite started_epochs_app, observed_metrics_app, outcomes_app, Hst2, Hob2, Hou2,
      !app_nil_r, Hb2.
    split; [rewrite Hl2, Hl, <- !app_assoc; reflexivity|]. auto 10. }
  destruct r1 as [b|e].
  - intros Heq. apply (Hgen w1 (Ok b) []); auto using app_nil_r.
  - destruct e; intros Heq;
      try solve [match type of Heq with (_, ?rr) = _ => apply (Hgen w1 rr []) end;
                 [reflexivity|reflexivity|reflexivity|symmetry; apply app_nil_r
                 |reflexivity|reflexivity|reflexivity|discriminate|exact Heq]].
    unfold mbind, log_info, modify, ret in Heq.
    apply (Hgen (mkWorld (self w1) (fs w1) (log w1 ++ [Terminated])) (Ok true) [Terminated]);
      try reflexivity; [discriminate|exact Heq].
Qed.

Lemma tiny_model_init env_metrics grad run_name epochs patience :
  Model_init (scripted_env env_metrics grad) (Some tiny_classes) None empty_fs
             (tiny_caller "adam" run_name epochs patience)
  = (mkCaller (Config.set_num_class (tiny_config "adam" run_name epochs patience) 1)
              (Some (set_vectors tiny_vocab tiny_embed)),
     Ok (tiny_model Adam "adam" run_name epochs patience adam_state)).
Proof. reflexivity. Qed.

Lemma new_events_app w w' l :
  log w' = (log w ++ l)%list -> new_events w w' = l.
Proof.
  unfold new_events. intros ->. generalize (log w) as l0.
  induction l0 as [|x l0 IH]; [reflexivity|exact IH].
Qed.



(** C4.  The training loop ends by its own tests; the epochs it starts are
    numbered consecutively from the start epoch plus one, none exceeds the
    configured number of epochs; and once the validation metric has failed to
    improve for exactly [patience] consecutive epochs, no further epoch is
    started. *)
Theorem training_stops_at_patience_or_budget env train_dataset dev_dataset
    (eval_metric : Metric env) w :
  let w' := fst (train env train_dataset dev_dataset eval_metric w) in
  let l := new_events w w' in
  snd (train env train_dataset dev_dataset eval_metric w) <> Ok false /\
  started_epochs l =
    map (fun i => (start_epoch (self w) + 1 + Z.of_nat i)%Z)
        (seq 0 (length (started_epochs l))) /\
  Forall (fun e => (start_epoch (self w) < e <= Config.epochs (config (self w)))%Z)
         (started_epochs l) /\
  forall i,
    i <= length (outcomes l) ->
    Z.of_nat (consecutive_failures (firstn i (outcomes l)))
      = Config.patience (config (self w)) ->
    length (started_epochs l) <= i.
Proof.
  intros w' l.
  destruct (train env train_dataset dev_dataset eval_metric w) as [w1 r] eqn:Ht.
  cbn [fst snd] in *. subst w'.
  apply train_spec in Ht.
  destruct Ht as (_ & _ & l0 & Hl & _ & Hseq & Hall & _ & Hstop & Hr).
  assert (El : l = StartTraining :: l0) by (apply new_events_app; exact Hl).
  rewrite El. clear El l.
  change (started_epochs (StartTraining :: l0)) with (started_epochs l0).
  change (outcomes (StartTraining :: l0)) with (outcomes l0).
  split; [exact Hr|]. split; [exact Hseq|]. split; [|exact Hstop].
  rewrite Hseq. apply List.Forall_forall. intros e He.
  apply in_map_iff in He. destruct He as (i & <- & Hi).
  split; [lia|].
  rewrite List.Forall_forall in Hall. apply Hall.
  rewrite Hseq. apply in_map_iff. exists i. auto.
Qed.

Lemma training_stops_at_patience_or_budget_witness :
  let env := scripted_env [(7 # 10)%Q; (65 # 100)%Q] 2 in
  let w := tiny_world "run" 10 1 in
  let l := new_events w (fst (train env tt tt tt w)) in
  outcomes l = [true; false] /\
  Config.patience (config (self w)) = 1%Z /\
  length (started_epochs l) <= 2.
Proof.
  intros env w l.
  assert (Hout : outcomes l = [true; false]) by (vm_compute; reflexivity).
  split; [exact Hout|]. split; [reflexivity|].
  apply (proj2 (proj2 (proj2 (training_stops_at_patience_or_budget env tt tt tt w))) 2).
  - vm_compute. lia.
  - vm_compute. reflexivity.
Defined.

(** ** The training step and gradient clipping *)

Lemma clip_grad_value_without_grads c net :
  grads net = None -> clip_grad_value_ c net = net.
Proof.
  intros H. unfold clip_grad_value_, set_grads. rewrite H. cbn.
  destruct net; cbn in *. subst. reflexivity.
Qed.

(** [init_optimizer] clips once, when the network was just built and its
    parameters hold no gradient: the call changes nothing. *)
Lemma init_optimizer_clip_is_noop env config embed_vecs net opt net' :
  get_network env config embed_vecs = Ok net ->
  init_optimizer config net None = Ok (opt, net') ->
  net' = net.
Proof.
  unfold get_network, CamlConvAttnPool_init, init_optimizer.
  destruct (shape2 embed_vecs) as [V E].
  destruct (Config.num_class config) as [L|]; [|discriminate].
  intros H; injection H as <-.
  destruct (String.eqb _ "sgd"); [|destruct (String.eqb _ "adam")];
    cbn; intros H; try discriminate; injection H as <- <-; reflexivity.
Qed.

(** A training step hands the optimizer the gradient as [backward] computed
    it: there is no clipping between the two. *)
Lemma train_step_uses_raw_gradient env inputs w w' r :
  train_step env inputs w = (w', Ok r) ->
  exists g,
    backward env (set_grads None (set_training true (network (self w)))) inputs
      = Ok g /\
    grads (network (self w')) = Some g /\
    params (network (self w'))
      = fst (optim_step env (optimizer (self w)) (params (network (self w))) g) /\
    optim_state (optimizer (self w'))
      = snd (optim_step env (optimizer (self w)) (params (network (self w))) g).
Proof.
  unfold train_step, zero_grad, loss_backward, optimizer_step. unfold_M.
  cbn -[forward binary_cross_entropy_with_logits].
  destruct (forward _ _ _) as [out|e]; cbn -[binary_cross_entropy_with_logits];
    [|discriminate].
  destruct (binary_cross_entropy_with_logits _ _) as [loss|e]; cbn; [|discriminate].
  destruct (backward env _ inputs) as [g|e] eqn:Hg; cbn; [|discriminate].
  destruct (optim_step env _ _ g) as [wt st] eqn:Hstep; cbn.
  intros H; injection H as <- <-. exists g. cbn.
  unfold set_training, set_grads in *. cbn in *.
  rewrite Hstep. auto.
Qed.

Lemma clamp_half_of_two : clamp (1 / 2) 2 = (1 / 2)%R.
Proof.
  unfold clamp. rewrite Rmax_left by lra. apply Rmin_right. lra.
Qed.

(** C7: in a training step whose gradient has entries of magnitude 2, the
    optimizer steps with the gradient 2, where clipping to the bound 1/2 of
    [init_optimizer] would have given 1/2. *)
Theorem train_step_applies_unclipped_gradient :
  let env := scripted_env [] 2 in
  let w := tiny_world "run" 10 1 in
  let w' := fst (train_step env tiny_batch w) in
  is_ok (snd (train_step env tiny_batch w)) = true /\
  exists g,
    buffers (optim_state (optimizer (self w'))) = [g] /\
    grads (network (self w')) = Some g /\
    get1 (conv_bias g) 0 = 2%R /\
    get3 (conv_weight g) 0 0 0 = 2%R /\
    clamp (1 / 2) (get1 (conv_bias g) 0) = (1 / 2)%R /\
    clamp (1 / 2) (get1 (conv_bias g) 0) <> get1 (conv_bias g) 0.
Proof.
  cbv zeta. split; [vm_compute; reflexivity|].
  eexists. split; [reflexivity|]. split; [reflexivity|].
  cbn. split; [reflexivity|]. split; [reflexivity|].
  rewrite clamp_half_of_two. split; [reflexivity|]. lra.
Qed.

(** ** Initialization and loading *)


Lemma init_optimizer_ok config net opt net' :
  init_optimizer config net None = Ok (opt, net') ->
  Config.optimizer config = "sgd"%string \/ Config.optimizer config = "adam"%string.
Proof.
  unfold init_optimizer.
  destruct (String.eqb_spec (Config.optimizer config) "sgd") as [E|_]; [auto|].
  destruct (String.eqb_spec (Config.optimizer config) "adam") as [E|_]; [auto|].
  discriminate.
Qed.

Lemma Model_init_from_ckpt env given ck fs0 c c' r :
  Model_init env given (Some ck) fs0 c = (c', r) ->
  c' = mkCaller (config_from_ckpt (caller_config c) ck) (caller_word_dict c) /\
  forall m, r = Ok m ->
    config m = config_from_ckpt (caller_config c) ck /\
    device m = Config.device (caller_config c) /\
    start_epoch m = Ckpt.epoch ck /\
    word_dict m = Ckpt.word_dict ck /\
    classes m = Ckpt.classes ck /\
    best_metric m = Ckpt.best_metric ck /\
    params (network m) = Ckpt.state_dict ck /\
    optim_state (optimizer m) = Ckpt.optimizer ck.
Proof.
  unfold Model_init. unfold_M. cbn -[get_network init_optimizer load_state_dict].
  fold (config_from_ckpt (caller_config c) ck).
  destruct (vectors (Ckpt.word_dict ck)) as [v|];
    cbn -[get_network init_optimizer load_state_dict].
  2:{ intros H; injection H as <- <-. split; [reflexivity|discriminate]. }
  destruct (get_network env _ v) as [net|e];
    cbn -[init_optimizer load_state_dict].
  2:{ intros H; injection H as <- <-. split; [reflexivity|discriminate]. }
  destruct (init_optimizer _ net None) as [[opt net']|e];
    cbn -[load_state_dict].
  2:{ intros H; injection H as <- <-. split; [reflexivity|discriminate]. }
  unfold load_state_dict.
  destruct (shapes_eqb (params net') (Ckpt.state_dict ck)); cbn.
  2:{ intros H; injection H as <- <-. split; [reflexivity|discriminate]. }
  intros H; injection H as <- <-. split; [reflexivity|].
  intros m Hm. injection Hm as <-. cbn. repeat split.
Qed.

Lemma torch_load_file p fs0 c :
  files fs0 !! p = Some (CkptFile c) -> torch_load p fs0 = Ok c.
Proof. unfold torch_load. intros ->. reflexivity. Qed.

Lemma load_run env p fs0 c ck :
  torch_load p fs0 = Ok ck ->
  load env p fs0 c = Model_init env None (Some ck) fs0 c.
Proof. unfold load, mbind, lift. intros ->. reflexivity. Qed.





(** The scenario of the spec: a model resumed from a checkpoint saved at
    epoch 5 with 10 configured epochs starts with epoch 6. *)
Example resume_at_epoch_6 :
  let w := tiny_world "run" 10 1 in
  let fs1 := fs (fst (save 5 false w)) in
  let env := scripted_env [(7 # 10)%Q; (65 # 100)%Q] 2 in
  exists m2,
    snd (load env (last_path (config (self w))) fs1
           (mkCaller (tiny_config "adam" "other" 10 1) None)) = Ok m2 /\
    started_epochs (log (fst (train env tt tt tt (mkWorld m2 fs1 [])))) = [6%Z; 7%Z].
Proof.
  cbv zeta. eexists. split; [vm_compute; reflexivity|].
  vm_compute. reflexivity.
Qed.

Lemma set_run_name_twice c a b :
  Config.set_run_name (Config.set_run_name c a) b = Config.set_run_name c b.
Proof. reflexivity. Qed.

Lemma Model_init_ignores_run_name env given ck fs0 config wd run_name' :
  Model_init env given (Some ck) fs0 (mkCaller (Config.set_run_name config run_name') wd)
  = Model_init env given (Some ck) fs0 (mkCaller config wd).
Proof. reflexivity. Qed.

(** C10.  Constructing a model from a checkpoint overwrites the run name of
    the configuration object with the checkpoint's, whatever run name the
    configuration passed to [load] had; the model keeps that configuration
    object, training leaves it alone, and every later [save] writes the
    checkpoint, recording the checkpoint's run name, at
    result_dir/run_name/model_last.pt for the checkpoint's run name, and
    copies it for a new best to the path obtained from that one by
    replacing 'last' with 'best'. *)
Theorem load_overwrites_run_name env ckpt_path fs0 config0 ck :
  torch_load ckpt_path fs0 = Ok ck ->
  let c' := fst (load env ckpt_path fs0 (mkCaller config0 None)) in
  Config.run_name (caller_config c') = Ckpt.run_name ck /\
  (forall run_name',
     load env ckpt_path fs0 (mkCaller (Config.set_run_name config0 run_name') None)
     = load env ckpt_path fs0 (mkCaller config0 None)) /\
  forall m,
    snd (load env ckpt_path fs0 (mkCaller config0 None)) = Ok m ->
    config m = caller_config c' /\
    forall w,
      config (self w) = config m ->
      (forall train_dataset dev_dataset eval_metric,
         config (self (fst (train env train_dataset dev_dataset eval_metric w)))
         = config m) /\
      (forall epoch is_best,
         snd (save epoch is_best w) = Ok tt ->
         exists c2,
           files (fs (fst (save epoch is_best w)))
             !! path_join (Config.result_dir config0)
                          [Ckpt.run_name ck; "model_last.pt"%string]
           = Some (CkptFile c2) /\
           Ckpt.run_name c2 = Ckpt.run_name ck /\
           (is_best = true ->
            files (fs (fst (save epoch is_best w)))
              !! replace "last" "best"
                   (path_join (Config.result_dir config0)
                              [Ckpt.run_name ck; "model_last.pt"%string])
            = Some (CkptFile c2))).
Proof.
  intros Hload c'. subst c'.
  rewrite (load_run env _ _ _ _ Hload).
  destruct (Model_init env None (Some ck) fs0 (mkCaller config0 None)) as [c1 r] eqn:Hinit.
  pose proof (Model_init_from_ckpt _ _ _ _ _ _ _ Hinit) as (Hc1 & Hfields).
  cbn [fst snd]. subst c1. cbn [caller_config].
  split; [reflexivity|]. split.
  - intros rn. rewrite !(load_run env _ _ _ _ Hload).
    rewrite Model_init_ignores_run_name. exact Hinit.
  - intros m Hm. subst r.
    destruct (Hfields m eq_refl) as (Hcfg & _).
    split; [exact Hcfg|].
    intros w Hw. split.
    + intros trd dvd em.
      destruct (train env trd dvd em w) as [w1 r1] eqn:Ht. cbn [fst].
      apply train_spec in Ht. destruct Ht as (Hc & _). congruence.
    + intros epoch is_best Hs.
      destruct (save epoch is_best w) as [w1 r1] eqn:Hsave.
      cbn [fst snd] in *. subst r1.
      pose proof (save_last_file _ _ _ _ Hsave) as Hlast.
      assert (Hpath : last_path (config (self w))
                      = path_join (Config.result_dir config0)
                                  [Ckpt.run_name ck; "model_last.pt"%string]).
      { unfold last_path. rewrite Hw, Hcfg. reflexivity. }
      exists (ckpt_of (self w) epoch). split; [|split].
      * rewrite <- Hpath. exact Hlast.
      * cbn. rewrite Hw, Hcfg. reflexivity.
      * intros ->. apply save_best_files in Hsave.
        destruct Hsave as (_ & _ & Hbest & _).
        unfold best_path in Hbest. rewrite <- Hpath, Hbest. exact Hlast.
Qed.

Lemma load_overwrites_run_name_witness :
  let env := scripted_env [] 2 in
  let fs0 := fs (fst (save 5 false (tiny_world "old_run" 10 1))) in
  let config0 := tiny_config "adam" "new_run" 10 1 in
  let ck := ckpt_of (self (tiny_world "old_run" 10 1)) 5 in
  let c' := fst (load env "results/old_run/model_last.pt" fs0 (mkCaller config0 None)) in
  Config.run_name (caller_config c') = "old_run"%string /\
  (forall run_name',
     load env "results/old_run/model_last.pt" fs0
          (mkCaller (Config.set_run_name config0 run_name') None)
     = load env "results/old_run/model_last.pt" fs0 (mkCaller config0 None)) /\
  forall m,
    snd (load env "results/old_run/model_last.pt" fs0 (mkCaller config0 None)) = Ok m ->
    config m = caller_config c' /\
    forall w,
      config (self w) = config m ->
      (forall train_dataset dev_dataset eval_metric,
         config (self (fst (train env train_dataset dev_dataset eval_metric w)))
         = config m) /\
      (forall epoch is_best,
         snd (save epoch is_best w) = Ok tt ->
         exists c2,
           files (fs (fst (save epoch is_best w)))
             !! path_join (Config.result_dir config0)
                          [Ckpt.run_name ck; "model_last.pt"%string]
           = Some (CkptFile c2) /\
           Ckpt.run_name c2 = Ckpt.run_name ck /\
           (is_best = true ->
            files (fs (fst (save epoch is_best w)))
              !! replace "last" "best"
                   (path_join (Config.result_dir config0)
                              [Ckpt.run_name ck; "model_last.pt"%string])
            = Some (CkptFile c2))).
Proof.
  apply (load_overwrites_run_name (scripted_env [] 2) "results/old_run/model_last.pt"
           (fs (fst (save 5 false (tiny_world "old_run" 10 1))))
           (tiny_config "adam" "new_run" 10 1)
           (ckpt_of (self (tiny_world "old_run" 10 1)) 5)).
  vm_compute. reflexivity.
Defined.






(** The best path is derived from the last path by replacing every 'last':
    for the run name 'last_run' it is not in the run's directory, and [save]
    raises when the directory it names does not exist. *)
Example best_path_of_last_run :
  let c := tiny_config "adam" "last_run" 10 1 in
  last_path c = "results/last_run/model_last.pt"%string /\
  best_path c = "results/best_run/model_best.pt"%string /\
  snd (save 1 true (tiny_world "last_run" 10 1))
    = Raise (FileNotFoundError "results/best_run/model_best.pt").
Proof. vm_compute. repeat split; reflexivity. Qed.

(** * Further properties of the network *)

Section MoreSums.
Local Open Scope R_scope.

Lemma sum_n_nonneg (n : nat) (f : nat -> R) :
  (forall i, (i < n)%nat -> 0 <= f i) -> 0 <= sum_n n f.
Proof.
  induction n as [|n IH]; intros H; simpl; [lra|].
  apply Rplus_le_le_0_compat; [apply IH; intros i Hi; apply H; lia|apply H; lia].
Qed.

Lemma sum_n_term_le (n : nat) (f : nat -> R) (i : nat) :
  (forall j, (j < n)%nat -> 0 <= f j) -> (i < n)%nat -> f i <= sum_n n f.
Proof.
  induction n as [|n IH]; intros H Hi; [lia|]. simpl.
  destruct (Nat.eq_dec i n) as [->|Hne].
  - assert (0 <= sum_n n f) by (apply sum_n_nonneg; intros j Hj; apply H; lia). lra.
  - assert (f i <= sum_n n f) by (apply IH; [intros j Hj; apply H; lia|lia]).
    assert (0 <= f n) by (apply H; lia). lra.
Qed.

Lemma tanh_bounds (x : R) : -1 < tanh x < 1.
Proof.
  unfold tanh, sinh, cosh.
  pose proof (exp_pos x) as Hp. pose proof (exp_pos (- x)) as Hn.
  replace ((exp x - exp (- x)) / 2 / ((exp x + exp (- x)) / 2))
    with ((exp x - exp (- x)) / (exp x + exp (- x))) by (field; lra).
  split.
  - apply Rmult_lt_reg_r with (exp x + exp (- x)); [lra|].
    unfold Rdiv. rewrite Rmult_assoc, Rinv_l by lra. lra.
  - apply Rmult_lt_reg_r with (exp x + exp (- x)); [lra|].
    unfold Rdiv. rewrite Rmult_assoc, Rinv_l by lra. lra.
Qed.

End MoreSums.

Lemma forall_lt_false_embedding w text V E B T :
  shape2 w = (V, E) -> ids_shape text = (B, T) -> valid_ids V text = false ->
  embedding w text = Raise IndexError.
Proof.
  intros Hw Ht Hv. unfold valid_ids in Hv. unfold embedding.
  rewrite Hw, Ht in *. rewrite Hv. reflexivity.
Qed.

(** X1.  When the forward pass returns and when it raises, for a network of
    the shapes [__init__] gives it: a token id outside the vocabulary raises
    IndexError; a batch that holds documents but no position raises a shape
    error at the convolution; a batch of valid ids with at least one position
    is processed, and the logits have one entry per document and label and
    the attention one entry per document, label and position the convolution
    yields. *)
Theorem forward_returns_or_raises net mask text V E F k L B T :
  well_shaped net V E F k L ->
  ids_shape text = (B, T) ->
  (valid_ids V text = false -> forward net mask text = Raise IndexError) /\
  (T = 0 -> 1 <= B -> 1 <= E -> forward net mask text = Raise ShapeError) /\
  (valid_ids V text = true -> 1 <= T ->
   exists out, forward net mask text = Ok out /\
               shape2 (logits out) = (B, L) /\
               shape3 (attention out) = (B, L, T + 2 * (k / 2) - k + 1)).
Proof.
  intros Hw Hids. pose proof Hw as [Hs Hp].
  unfold shapes, init_shapes in Hs.
  injection Hs as Hemb Hconv Hcb HU HUb Hfin Hfb.
  split; [|split].
  - intros Hv. unfold forward, forward_steps.
    rewrite (forall_lt_false_embedding _ _ V E B T Hemb Hids Hv). reflexivity.
  - intros -> HB HE.
    assert (Hv : valid_ids V text = true).
    { unfold valid_ids. rewrite Hids. clear.
      induction B as [|B IH]; cbn in *; [reflexivity|rewrite IH; reflexivity]. }
    unfold forward, forward_steps.
    rewrite (embedding_ok _ _ V E B 0 Hemb Hids Hv). cbn [bind].
    rewrite (conv1d_empty _ _ _ _ F E k B Hconv); [reflexivity| |exact HB|exact HE].
    apply transpose12_shape. rewrite embed_drop_shape. reflexivity.
  - intros Hv HT.
    destruct (forward_steps_ok net mask text V E F k L B T Hw Hids Hv HT)
      as (fw & Hfw & _ & _ & Ha & _ & Hl & _).
    exists (mkOutput (fw_logits fw) (fw_alpha fw)).
    unfold forward. rewrite Hfw. auto.
Qed.

Lemma forward_returns_or_raises_witness :
  exists out, forward (scenario_net 3) (fun _ _ _ => 1%R) scenario_text = Ok out /\
              shape2 (logits out) = (4, 5) /\
              shape3 (attention out) = (4, 5, 20 + 2 * (3 / 2) - 3 + 1).
Proof.
  destruct (forward_returns_or_raises (scenario_net 3) (fun _ _ _ => 1%R) scenario_text
              1000 50 100 3 5 4 20) as (_ & _ & H).
  - split; reflexivity.
  - reflexivity.
  - apply H; [reflexivity|lia].
Defined.

(** X2.  In a forward pass on a batch of valid ids with at least one
    position, every per-position feature lies in [-1,1] and every attention
    weight lies in [0,1]. *)
Theorem forward_values_are_bounded net mask text V E F k L B T :
  well_shaped net V E F k L ->
  ids_shape text = (B, T) ->
  valid_ids V text = true ->
  1 <= T ->
  exists fw,
    forward_steps net mask text = Ok fw /\
    (forall b t f, (-1 <= get3 (fw_x fw) b t f <= 1)%R) /\
    (forall b l t, t < T + 2 * (k / 2) - k + 1 ->
       (0 <= get3 (fw_alpha fw) b l t <= 1)%R).
Proof.
  intros Hw Hids Hv HT.
  destruct (forward_steps_ok net mask text V E F k L B T Hw Hids Hv HT)
    as (fw & Hfw & Hc & Hx & Ha & Hm & Hl & Htanh & Halpha & Hdoc & Hlog & _).
  cbv zeta in *. set (T' := T + 2 * (k / 2) - k + 1) in *.
  exists fw. split; [exact Hfw|].
  assert (Hpos : forall b l, (0 < sum_n T' (fun t' =>
            exp (sum_n F (fun f => get2 (U_weight (params net)) l f
                                   * get3 (fw_x fw) b t' f))))%R).
  { intros b l. apply sum_exp_pos with (s := fun t' => sum_n F _).
    unfold T'. pose proof (padding_fits k T HT). lia. }
  assert (Hnonneg : forall b l t, (0 <= get3 (fw_alpha fw) b l t)%R).
  { intros b l t. rewrite Halpha. apply Rlt_le.
    apply Rdiv_lt_0_compat; [apply exp_pos|apply Hpos]. }
  assert (Hsum : forall b l, sum_n T' (get3 (fw_alpha fw) b l) = 1%R).
  { intros b l. rewrite (sum_n_ext _ _ _ (fun t _ => Halpha b l t)).
    rewrite sum_n_div with (f := fun t => exp _).
    apply Rdiv_diag. apply Rgt_not_eq. apply Hpos. }
  split.
  - intros b t f. rewrite Htanh. pose proof (tanh_bounds (get3 (fw_conv fw) b f t)). lra.
  - intros b l t Ht. split; [apply Hnonneg|]. rewrite <- (Hsum b l).
    apply (sum_n_term_le T' (get3 (fw_alpha fw) b l) t); [intros; apply Hnonneg|exact Ht].
Qed.

Lemma forward_values_are_bounded_witness :
  exists fw,
    forward_steps (scenario_net 3) (fun _ _ _ => 1%R) scenario_text = Ok fw /\
    (forall b t f, (-1 <= get3 (fw_x fw) b t f <= 1)%R) /\
    (forall b l t, t < 20 + 2 * (3 / 2) - 3 + 1 ->
       (0 <= get3 (fw_alpha fw) b l t <= 1)%R).
Proof.
  apply (forward_values_are_bounded (scenario_net 3) (fun _ _ _ => 1%R) scenario_text
           1000 50 100 3 5 4 20).
  - split; reflexivity.
  - reflexivity.
  - reflexivity.
  - lia.
Defined.

(** * Further properties of the model *)

Lemma Model_init_network env given ckpt fs0 c c' m :
  Model_init env given ckpt fs0 c = (c', Ok m) ->
  exists v V E,
    vectors (word_dict m) = Some v /\
    shape2 v = (V, E) /\
    well_shaped (network m) V E (Config.num_filter_maps (config m))
                (Config.filter_size (config m)) (length (classes m)) /\
    Config.num_class (config m) = Some (length (classes m)) /\
    config m = caller_config c' /\
    grads (network m) = None /\
    training (network m) = true.
Proof.
  assert (Hbuild : forall cfg v V E L net o net',
            shape2 v = (V, E) -> Config.num_class cfg = Some L ->
            get_network env cfg v = Ok net ->
            init_optimizer cfg net None = Ok (o, net') ->
            well_shaped net' V E (Config.num_filter_maps cfg) (Config.filter_size cfg) L /\
            grads net' = None /\ training net' = true).
  { intros cfg v V E L net o net' Hv HL Hnet Hopt.
    rewrite (init_optimizer_clip_is_noop _ _ _ _ _ _ Hnet Hopt).
    split; [eapply CamlConvAttnPool_init_well_shaped; eauto|].
    unfold get_network, CamlConvAttnPool_init in Hnet. rewrite Hv, HL in Hnet.
    injection Hnet as <-. split; reflexivity. }
  destruct ckpt as [ck|].
  - unfold Model_init. unfold_M. cbn -[get_network init_optimizer load_state_dict].
    destruct (vectors (Ckpt.word_dict ck)) as [v|] eqn:Hv;
      cbn -[get_network init_optimizer load_state_dict]; [|discriminate].
    destruct (get_network env _ v) as [net|e] eqn:Hnet;
      cbn -[init_optimizer load_state_dict]; [|discriminate].
    destruct (init_optimizer _ net None) as [[opt net']|e] eqn:Hopt;
      cbn -[load_state_dict]; [|discriminate].
    unfold load_state_dict, shapes_eqb.
    destruct (bool_decide (shapes (params net') = shapes (Ckpt.state_dict ck))) eqn:Hsh;
      cbn; [|discriminate].
    apply bool_decide_eq_true_1 in Hsh.
    intros H; injection H as <- <-.
    destruct (shape2 v) as [V E] eqn:Hs2.
    destruct (Hbuild (config_from_ckpt (caller_config c) ck) v V E
                (length (Ckpt.classes ck)) net opt net' Hs2 eq_refl Hnet Hopt)
      as ([Hws Hpad] & Hg & Ht).
    exists v, V, E. cbn. repeat split; try assumption.
    unfold set_params. cbn. rewrite <- Hsh. exact Hws.
  - unfold Model_init. unfold mbind at 1, gets at 1.
    unfold mbind at 1. unfold mbind at 1.
    destruct (load_embedding env fs0 c) as [c1 [wd|e]] eqn:Hle; [|cbn; discriminate].
    unfold_M. cbn -[get_network init_optimizer load_state_dict].
    destruct given as [l|]; cbn -[get_network init_optimizer load_state_dict];
      [|discriminate].
    destruct (vectors wd) as [v|] eqn:Hv;
      cbn -[get_network init_optimizer load_state_dict]; [|discriminate].
    destruct (get_network env _ v) as [net|e] eqn:Hnet;
      cbn -[init_optimizer load_state_dict]; [|discriminate].
    destruct (init_optimizer _ net None) as [[opt net']|e] eqn:Hopt; cbn; [|discriminate].
    intros H; injection H as <- <-.
    destruct (shape2 v) as [V E] eqn:Hs2.
    destruct (Hbuild (Config.set_num_class (caller_config c1) (length l)) v V E
                (length l) net opt net' Hs2 eq_refl Hnet Hopt)
      as (Hws & Hg & Ht).
    exists v, V, E. cbn. repeat split; try assumption; apply Hws.
Qed.

(** X3.  A model that [Model.__init__] returns, fresh or from a checkpoint, has
    a vocabulary with vectors and a network of the shapes the configuration,
    the vectors and the number of classes determine; the configuration holds
    that number of classes; the network is in training mode and its
    parameters hold no gradient. *)
Theorem built_model_is_well_shaped env given ckpt fs0 c c' m :
  Model_init env given ckpt fs0 c = (c', Ok m) ->
  exists v V E,
    vectors (word_dict m) = Some v /\
    shape2 v = (V, E) /\
    well_shaped (network m) V E (Config.num_filter_maps (config m))
                (Config.filter_size (config m)) (length (classes m)) /\
    Config.num_class (config m) = Some (length (classes m)) /\
    config m = caller_config c' /\
    grads (network m) = None /\
    training (network m) = true.
Proof. apply Model_init_network. Qed.

Lemma built_model_is_well_shaped_witness :
  exists v V E,
    vectors (word_dict (tiny_model Adam "adam" "run" 10 1 adam_state)) = Some v /\
    shape2 v = (V, E) /\
    well_shaped (network (tiny_model Adam "adam" "run" 10 1 adam_state)) V E
                (Config.num_filter_maps (config (tiny_model Adam "adam" "run" 10 1 adam_state)))
                (Config.filter_size (config (tiny_model Adam "adam" "run" 10 1 adam_state)))
                (length (classes (tiny_model Adam "adam" "run" 10 1 adam_state))) /\
    Config.num_class (config (tiny_model Adam "adam" "run" 10 1 adam_state))
      = Some (length (classes (tiny_model Adam "adam" "run" 10 1 adam_state))) /\
    config (tiny_model Adam "adam" "run" 10 1 adam_state)
      = caller_config (mkCaller (Config.set_num_class (tiny_config "adam" "run" 10 1) 1)
                                (Some (set_vectors tiny_vocab tiny_embed))) /\
    grads (network (tiny_model Adam "adam" "run" 10 1 adam_state)) = None /\
    training (network (tiny_model Adam "adam" "run" 10 1 adam_state)) = true.
Proof.
  apply (built_model_is_well_shaped (scripted_env [] 2) (Some tiny_classes) None empty_fs
           (tiny_caller "adam" "run" 10 1)).
  reflexivity.
Defined.

(** X4.  [predict] on a network of the shapes [__init__] builds, for a batch of
    valid token ids with at least one position: it returns scores of shape
    batch x labels, the sigmoid of the logits, all in [0,1]; the logits are
    those of the network in evaluation mode, where the dropout mask plays no
    part; it leaves the network in evaluation mode and changes nothing else
    of the model, the files or the log. *)
Theorem predict_returns_scores inputs w V E F k L B T :
  well_shaped (network (self w)) V E F k L ->
  ids_shape (text inputs) = (B, T) ->
  valid_ids V (text inputs) = true ->
  1 <= T ->
  exists p,
    snd (predict inputs w) = Ok p /\
    shape2 (scores p) = (B, L) /\
    shape2 (pred_logits p) = (B, L) /\
    (forall b l, get2 (scores p) b l = sigmoid (get2 (pred_logits p) b l)) /\
    (forall b l, (0 <= get2 (scores p) b l <= 1)%R) /\
    (forall mask b l, l < L ->
       get2 (pred_logits p) b l
       = label_logit (set_training false (network (self w))) mask (text inputs)
                     E F k T b l) /\
    (forall mask,
       forward (set_training false (network (self w))) mask (text inputs)
       = Ok (outputs p)) /\
    logits (outputs p) = pred_logits p /\
    self (fst (predict inputs w))
      = set_network (set_training false (network (self w))) (self w) /\
    fs (fst (predict inputs w)) = fs w /\
    log (fst (predict inputs w)) = log w.
Proof.
  intros Hw Hids Hv HT.
  assert (Hw' : well_shaped (set_training false (network (self w))) V E F k L)
    by exact Hw.
  destruct (forward_steps_spec _ (fun _ _ _ => 1%R) (text inputs) V E F k L B T
              Hw' Hids Hv HT) as (fw & Hfw & _ & _ & _ & Hl & _ & _ & _ & Hlog).
  exists (mkPrediction (sigmoid2 (fw_logits fw)) (fw_logits fw)
            (mkOutput (fw_logits fw) (fw_alpha fw))).
  assert (Hf : forall mask,
            forward (set_training false (network (self w))) mask (text inputs)
            = Ok (mkOutput (fw_logits fw) (fw_alpha fw))).
  { intros mask. unfold forward.
    change (forward_steps (set_training false (network (self w))) mask (text inputs))
      with (forward_steps (set_training false (network (self w))) (fun _ _ _ => 1%R)
              (text inputs)).
    rewrite Hfw. reflexivity. }
  unfold predict. unfold_M. cbn -[forward].
  rewrite (Hf (fun _ _ _ => 1%R)). cbn -[label_logit].
  split; [reflexivity|]. split; [exact Hl|]. split; [exact Hl|].
  split; [reflexivity|]. split; [intros; apply sigmoid_bounds|].
  split; [intros mask b l Hlt; rewrite (Hlog b l Hlt); reflexivity|].
  split; [apply Hf|]. repeat split.
Qed.

Lemma predict_returns_scores_witness :
  exists p,
    snd (predict tiny_batch (tiny_world "run" 10 1)) = Ok p /\
    shape2 (scores p) = (1, 1) /\
    (forall b l, (0 <= get2 (scores p) b l <= 1)%R) /\
    fs (fst (predict tiny_batch (tiny_world "run" 10 1))) = fs (tiny_world "run" 10 1).
Proof.
  destruct (predict_returns_scores tiny_batch (tiny_world "run" 10 1) 2 1 1 1 1 1 1)
    as (p & Hp & Hs & _ & _ & Hb & _ & _ & _ & _ & Hfs & _).
  - split; reflexivity.
  - reflexivity.
  - reflexivity.
  - lia.
  - exists p. auto.
Defined.

(** ** The paths of the checkpoints *)

Lemma string_app_assoc (a b c : string) :
  ((a ++ b) ++ c = a ++ (b ++ c))%string.
Proof.
  induction a as [|x a IH]; [reflexivity|].
  change (String x ((a ++ b) ++ c) = String x (a ++ (b ++ c)))%string.
  f_equal. exact IH.
Qed.

Lemma string_app_nil_r (a : string) : (a ++ "" = a)%string.
Proof.
  induction a as [|x a IH]; [reflexivity|].
  change (String x (a ++ "") = String x a)%string. f_equal. exact IH.
Qed.

Lemma join2_file d f :
  String.prefix "/" f = false -> join2 d f = (join2 d "" ++ f)%string.
Proof.
  intros Hf. unfold join2. rewrite Hf. cbn [String.prefix].
  destruct (String.eqb d "" || endswith_slash d).
  - rewrite string_app_nil_r. reflexivity.
  - rewrite !string_app_assoc. reflexivity.
Qed.

Lemma last_path_run_dir c : last_path c = (run_dir c ++ "model_last.pt")%string.
Proof. unfold last_path, run_dir, path_join. cbn [fold_left]. apply join2_file. reflexivity. Qed.

Lemma model_best_path_run_dir c :
  model_best_path c = (run_dir c ++ "model_best.pt")%string.
Proof.
  unfold model_best_path, run_dir, path_join. cbn [fold_left]. apply join2_file. reflexivity.
Qed.

Lemma prefix_length p s : String.prefix p s = true -> String.length p <= String.length s.
Proof.
  revert s. induction p as [|a p IH]; intros s H; [cbn; lia|].
  destruct s as [|b s]; [discriminate H|].
  cbn in H. destruct (ascii_dec a b); [|discriminate H].
  apply IH in H. cbn. lia.
Qed.

Lemma prefix_app_long p s t :
  String.length p <= String.length s ->
  String.prefix p (s ++ t) = String.prefix p s.
Proof.
  revert s. induction p as [|a p IH]; intros s H.
  { destruct s; cbn; [destruct t|]; reflexivity. }
  destruct s as [|b s]; [cbn in H; lia|].
  change (String b s ++ t)%string with (String b (s ++ t)).
  cbn [String.prefix]. destruct (ascii_dec a b); [|reflexivity].
  apply IH. cbn in H. lia.
Qed.

Lemma contains_length p s : contains p s = true -> String.length p <= String.length s.
Proof.
  induction s as [|c s IH]; cbn [contains]; intros H.
  - rewrite orb_false_r in H. apply prefix_length in H. exact H.
  - apply orb_true_iff in H. destruct H as [H|H].
    + apply prefix_length in H. exact H.
    + apply IH in H. cbn. lia.
Qed.

Lemma replace_from_cons old new c s :
  replace_from old new 0 (String c s) =
  if String.prefix old (String c s)
  then (new ++ replace_from old new (String.length old - 1) s)%string
  else String c (replace_from old new 0 s).
Proof. reflexivity. Qed.

(** Where 'last' occurs, [replace] changes the string. *)
Lemma replace_changes s :
  contains "last" s = true ->
  forall t u, replace "last" "best" (s ++ t) <> (s ++ u)%string.
Proof.
  unfold replace. induction s as [|c s IH]; intros H t u.
  - discriminate H.
  - cbn [contains] in H.
    change (String c s ++ t)%string with (String c (s ++ t)).
    change (String c s ++ u)%string with (String c (s ++ u)).
    rewrite replace_from_cons.
    change (String c (s ++ t)) with (String c s ++ t)%string.
    destruct (String.prefix "last" (String c s)) eqn:Hp.
    + rewrite prefix_app_long by (apply prefix_length; exact Hp). rewrite Hp.
      assert (Hc : c = "l"%char).
      { cbn [String.prefix] in Hp. destruct (ascii_dec "l" c) as [e|n];
          [symmetry; exact e|discriminate Hp]. }
      subst c. intros E.
      apply (f_equal (fun z => match z with
                               | String a _ => Ascii.eqb a "l"
                               | EmptyString => false
                               end)) in E.
      discriminate E.
    + cbn [orb] in H.
      rewrite prefix_app_long.
      2:{ apply contains_length in H. cbn in *. lia. }
      rewrite Hp. intros E. injection E as E. exact (IH H t u E).
Qed.

Lemma contains_app_file d : contains "last" (d ++ "model_last.pt") = true.
Proof.
  induction d as [|c d IH]; [reflexivity|].
  change (String c d ++ "model_last.pt")%string with (String c (d ++ "model_last.pt")).
  cbn [contains]. rewrite IH. apply orb_true_r.
Qed.

(** The best path never coincides with the last path. *)
Lemma best_path_differs c : best_path c <> last_path c.
Proof.
  unfold best_path. intros E.
  apply (replace_changes (last_path c)) with (t := ""%string) (u := ""%string).
  - rewrite last_path_run_dir. apply contains_app_file.
  - rewrite !string_app_nil_r. exact E.
Qed.

Lemma prefix_cons a p b s :
  String.prefix (String a p) (String b s)
  = if Ascii.eqb a b then String.prefix p s else false.
Proof.
  cbn [String.prefix].
  destruct (ascii_dec a b) as [->|n].
  - rewrite Ascii.eqb_refl. reflexivity.
  - destruct (Ascii.eqb_spec a b); [contradiction|reflexivity].
Qed.

Lemma string_app_cons c s t : (String c s ++ t = String c (s ++ t))%string.
Proof. reflexivity. Qed.

Lemma endswith_slash_prefix s t :
  contains "last" s = false -> endswith_slash s = true ->
  String.prefix "last" (s ++ t) = false.
Proof.
  intros Hc He.
  assert (Hp : String.prefix "last" s = false).
  { destruct s; cbn [contains] in Hc; apply orb_false_iff in Hc; apply Hc. }
  destruct s as [|c1 [|c2 [|c3 [|c4 s]]]].
  - discriminate He.
  - cbn in He. apply Ascii.eqb_eq in He. subst c1. reflexivity.
  - cbn in He. apply Ascii.eqb_eq in He. subst c2.
    rewrite !string_app_cons, prefix_cons.
    destruct (Ascii.eqb "l" c1); [|reflexivity].
    rewrite prefix_cons. reflexivity.
  - cbn in He. apply Ascii.eqb_eq in He. subst c3.
    rewrite !string_app_cons, prefix_cons.
    destruct (Ascii.eqb "l" c1); [|reflexivity].
    rewrite prefix_cons.
    destruct (Ascii.eqb "a" c2); [|reflexivity].
    rewrite prefix_cons. reflexivity.
  - rewrite prefix_app_long by (cbn; lia). exact Hp.
Qed.

Lemma endswith_slash_tail c s :
  endswith_slash (String c s) = true -> s = ""%string \/ endswith_slash s = true.
Proof. destruct s; [left; reflexivity|right; assumption]. Qed.

(** Where 'last' does not occur in a directory prefix, [replace] keeps it. *)
Lemma replace_keeps_prefix s t :
  contains "last" s = false ->
  s = ""%string \/ endswith_slash s = true ->
  replace "last" "best" (s ++ t) = (s ++ replace "last" "best" t)%string.
Proof.
  unfold replace. induction s as [|c s IH]; intros Hc He; [reflexivity|].
  destruct He as [He|He]; [discriminate He|].
  change (String c s ++ t)%string with (String c (s ++ t)).
  rewrite replace_from_cons.
  change (String c (s ++ t)) with (String c s ++ t)%string.
  rewrite (endswith_slash_prefix _ t Hc He).
  change (String c s ++ replace_from "last" "best" 0 t)%string
    with (String c (s ++ replace_from "last" "best" 0 t)).
  f_equal. apply IH.
  - cbn [contains] in Hc. apply orb_false_iff in Hc. apply Hc.
  - apply endswith_slash_tail with c. exact He.
Qed.

Lemma run_dir_shape c : run_dir c = ""%string \/ endswith_slash (run_dir c) = true.
Proof.
  unfold run_dir, path_join. cbn [fold_left].
  set (d := join2 (Config.result_dir c) (Config.run_name c)).
  unfold join2. cbn [String.prefix].
  destruct (String.eqb_spec d "") as [->|Hd]; [left; reflexivity|].
  cbn [orb]. destruct (endswith_slash d) eqn:He.
  - right. rewrite string_app_nil_r. exact He.
  - right. clear Hd He. induction d as [|x d IH]; [reflexivity|].
    destruct d as [|y d]; [reflexivity|]. exact IH.
Qed.

(** X5.  The best path [save] writes is the path [load_best] reads exactly when
    'last' does not occur in the run directory. *)
Theorem best_path_is_where_load_best_reads c :
  best_path c = model_best_path c <-> contains "last" (run_dir c) = false.
Proof.
  unfold best_path. rewrite last_path_run_dir, model_best_path_run_dir. split.
  - intros E. destruct (contains "last" (run_dir c)) eqn:Hc; [|reflexivity].
    exfalso. exact (replace_changes _ Hc _ _ E).
  - intros Hc. rewrite (replace_keeps_prefix _ _ Hc (run_dir_shape c)). reflexivity.
Qed.

(** ** More on saving *)

Lemma makedirs_dir_exists d fs0 fs1 :
  makedirs d fs0 = Ok fs1 -> dir_exists fs1 d = true.
Proof.
  unfold makedirs. destruct (String.eqb_spec d "") as [->|Hd]; [discriminate|].
  destruct (existsb _ _); [discriminate|].
  destruct (is_file fs0 d && negb (dir_exists fs0 d)); [discriminate|].
  intros H; injection H as <-. unfold dir_exists. cbn [dirs].
  destruct (all_slashes d) eqn:Hs; [reflexivity|]. cbn [orb].
  apply bool_decide_eq_true_2.
  destruct d as [|c d]; [contradiction|].
  cbn [String.length ancestors]. rewrite Hs. set_solver.
Qed.

Lemma makedirs_empty fs0 : makedirs "" fs0 = Raise (FileNotFoundError "").
Proof. reflexivity. Qed.

(** X6.  How [save] ends.  It changes the mode flag of the network and nothing
    else of the model: the network is in training mode after a save that
    returns and in evaluation mode after a save that raises.  A save that
    raises never changes the file at the best path.  When the last path has
    no directory part, which is when neither the result directory nor the
    run has a name, save raises FileNotFoundError before anything is
    written. *)
Theorem save_outcomes epoch is_best w :
  let w' := fst (save epoch is_best w) in
  let r := snd (save epoch is_best w) in
  let c := config (self w) in
  self w' = set_network (set_training (is_ok r) (network (self w))) (self w) /\
  (forall e, r = Raise e ->
     files (fs w') !! best_path c = files (fs w) !! best_path c) /\
  (dirname (last_path c) = ""%string ->
   r = Raise (FileNotFoundError ""%string) /\ fs w' = fs w).
Proof.
  cbv zeta.
  unfold save, state_dict. unfold_M.
  cbn -[path_join replace dirname makedirs torch_save copyfile].
  fold (last_path (config (self w))). fold (best_path (config (self w))).
  fold (ckpt_of (self w) epoch).
  destruct (makedirs _ (fs w)) as [fs1|e1] eqn:H1;
    cbn -[path_join replace dirname makedirs torch_save copyfile].
  2:{ split; [reflexivity|]. split; [reflexivity|].
      intros Hd. rewrite Hd, makedirs_empty in H1. injection H1 as <-. auto. }
  pose proof (makedirs_files _ _ _ H1) as Hfiles.
  assert (Hdir : dirname (last_path (config (self w))) <> ""%string).
  { intros Hd. rewrite Hd, makedirs_empty in H1. discriminate H1. }
  destruct (torch_save _ _ fs1) as [fs2|e2] eqn:H2;
    cbn -[path_join replace dirname makedirs torch_save copyfile].
  2:{ split; [reflexivity|]. split; [|intros Hd; contradiction].
      intros e _. rewrite Hfiles. reflexivity. }
  apply write_file_files in H2.
  destruct is_best; cbn -[path_join replace dirname makedirs torch_save copyfile].
  - destruct (copyfile _ _ fs2) as [fs3|e3] eqn:H3;
      cbn -[path_join replace dirname makedirs torch_save copyfile].
    + split; [reflexivity|]. split; [|intros Hd; contradiction].
      intros e He. discriminate He.
    + split; [reflexivity|]. split; [|intros Hd; contradiction].
      intros e _. rewrite H2, Hfiles.
      apply lookup_insert_ne. intros E. symmetry in E. exact (best_path_differs _ E).
  - split; [reflexivity|]. split; [|intros Hd; contradiction].
    intros e He. discriminate He.
Qed.

Lemma save_outcomes_witness :
  let w := mkWorld (set_config (Config.mk "cpu" "glove.6B.50d" "adam" (1 # 10) (9 # 10) 0
                                  (1 # 5) 1 1 10 1 "Micro-F1" "" "" (Some 1))
                               (self (tiny_world "run" 10 1)))
                   empty_fs [] in
  snd (save 1 true w) = Raise (FileNotFoundError ""%string) /\
  fs (fst (save 1 true w)) = fs w /\
  training (network (self (fst (save 1 true w)))) = false.
Proof.
  cbv zeta.
  match goal with
  | |- snd (save 1 true ?w0) = _ /\ _ =>
      pose proof (save_outcomes 1 true w0) as (Hself & _ & Hempty)
  end.
  destruct Hempty as [Hr Hfs]; [reflexivity|].
  split; [exact Hr|]. split; [exact Hfs|].
  cbv zeta in Hself. rewrite Hself, Hr. reflexivity.
Defined.

(** X7.  After a save as best, a later save that is not a new best, of whatever
    the model has become, replaces the last checkpoint and leaves the best
    checkpoint as it was. *)
Theorem best_checkpoint_survives_later_saves e1 e2 w w1 w1' w2 :
  save e1 true w = (w1, Ok tt) ->
  config (self w1') = config (self w) ->
  fs w1' = fs w1 ->
  save e2 false w1' = (w2, Ok tt) ->
  files (fs w2) !! best_path (config (self w)) = Some (CkptFile (ckpt_of (self w) e1)) /\
  files (fs w2) !! last_path (config (self w)) = Some (CkptFile (ckpt_of (self w1') e2)).
Proof.
  intros H1 Hc Hf H2.
  pose proof (save_best_files _ _ _ H1) as (_ & Hlast & Hbest & _).
  pose proof (save_last_file _ _ _ _ H2) as Hlast2.
  pose proof (save_other_files _ _ _ (best_path (config (self w))) H2) as Hother.
  rewrite Hc in *. split; [|exact Hlast2].
  rewrite Hother by apply best_path_differs.
  rewrite Hf, Hbest. exact Hlast.
Qed.

Lemma best_checkpoint_survives_later_saves_witness :
  let w := tiny_world "run" 10 1 in
  let w1 := fst (save 1 true w) in
  let w2 := fst (save 2 false w1) in
  files (fs w2) !! best_path (config (self w)) = Some (CkptFile (ckpt_of (self w) 1)) /\
  files (fs w2) !! last_path (config (self w)) = Some (CkptFile (ckpt_of (self w1) 2)).
Proof.
  apply (best_checkpoint_survives_later_saves 1 2 (tiny_world "run" 10 1)
           (fst (save 1 true (tiny_world "run" 10 1)))
           (fst (save 1 true (tiny_world "run" 10 1)))
           (fst (save 2 false (fst (save 1 true (tiny_world "run" 10 1)))))).
  - vm_compute. reflexivity.
  - reflexivity.
  - reflexivity.
  - vm_compute. reflexivity.
Defined.

(** ** Loading the best checkpoint *)

Lemma load_best_run env w :
  load_best env w =
  let '(caller, r) := load env (model_best_path (config (self w))) (fs w)
                           (mkCaller (config (self w)) None) in
  match r with
  | Ok best_model =>
      (on_self (set_network (network best_model))
         (on_self (set_config (caller_config caller)) w), Ok tt)
  | Raise e => (on_self (set_config (caller_config caller)) w, Raise e)
  end.
Proof.
  unfold load_best, model_best_path. unfold_M. cbn -[load path_join].
  destruct (load env _ (fs w) _) as [caller [bm|e]]; reflexivity.
Qed.

Lemma load_missing_file env p fs0 c :
  files fs0 !! p = None -> load env p fs0 c = (c, Raise (FileNotFoundError p)).
Proof. intros H. unfold load, mbind, lift, torch_load. rewrite H. reflexivity. Qed.

(** X8.  [load_best] reads the checkpoint at result_dir/run_name/model_best.pt.
    When it returns, the network of the model is a new network with the
    checkpoint's parameters, in training mode and without gradients; the
    optimizer, the best metric, the start epoch, the vocabulary and the
    classes of the model are as before, also where the checkpoint holds
    other values; the configuration has the checkpoint's run name and number
    of classes; files and log are unchanged.  When no file is at that path,
    it raises FileNotFoundError and changes nothing. *)
Theorem load_best_swaps_the_network env w :
  let p := model_best_path (config (self w)) in
  let w' := fst (load_best env w) in
  (snd (load_best env w) = Ok tt ->
   exists ck,
     files (fs w) !! p = Some (CkptFile ck) /\
     params (network (self w')) = Ckpt.state_dict ck /\
     grads (network (self w')) = None /\
     training (network (self w')) = true /\
     optimizer (self w') = optimizer (self w) /\
     best_metric (self w') = best_metric (self w) /\
     start_epoch (self w') = start_epoch (self w) /\
     word_dict (self w') = word_dict (self w) /\
     classes (self w') = classes (self w) /\
     config (self w') = config_from_ckpt (config (self w)) ck /\
     fs w' = fs w /\ log w' = log w) /\
  (files (fs w) !! p = None ->
   load_best env w = (w, Raise (FileNotFoundError p))).
Proof.
  cbv zeta. rewrite load_best_run.
  generalize (model_best_path (config (self w))) as p. intros p.
  split.
  - destruct (files (fs w) !! p) as [[ck|]|] eqn:Hfile.
    + rewrite (load_run env p (fs w) _ ck) by (apply torch_load_file; exact Hfile).
      destruct (Model_init env None (Some ck) (fs w) (mkCaller (config (self w)) None))
        as [c1 r] eqn:Hinit.
      pose proof (Model_init_from_ckpt _ _ _ _ _ _ _ Hinit) as (Hc1 & Hfields).
      destruct r as [m2|e]; cbn [fst snd]; [|intros H; discriminate H].
      intros _. exists ck.
      destruct (Hfields m2 eq_refl) as (_ & _ & _ & _ & _ & _ & Hp & _).
      destruct (Model_init_network _ _ _ _ _ _ _ Hinit)
        as (_ & _ & _ & _ & _ & _ & _ & _ & Hg & Ht).
      subst c1. cbn. repeat split; try assumption.
    + unfold load, mbind, lift, torch_load. rewrite Hfile. cbn. intros H; discriminate H.
    + rewrite (load_missing_file env p (fs w) _ Hfile). cbn. intros H; discriminate H.
  - intros Hnone. rewrite (load_missing_file env p (fs w) _ Hnone).
    destruct w as [[] ? ?]; reflexivity.
Qed.

Lemma load_best_swaps_the_network_witness :
  let env := scripted_env [] 2 in
  let w := fst (save 1 true (tiny_world "run" 10 1)) in
  let w' := fst (load_best env w) in
  exists ck,
    files (fs w) !! model_best_path (config (self w)) = Some (CkptFile ck) /\
    params (network (self w')) = Ckpt.state_dict ck /\
    grads (network (self w')) = None /\
    training (network (self w')) = true /\
    optimizer (self w') = optimizer (self w) /\
    best_metric (self w') = best_metric (self w) /\
    start_epoch (self w') = start_epoch (self w) /\
    word_dict (self w') = word_dict (self w) /\
    classes (self w') = classes (self w) /\
    config (self w') = config_from_ckpt (config (self w)) ck /\
    fs w' = fs w /\ log w' = log w.
Proof.
  apply (proj1 (load_best_swaps_the_network (scripted_env [] 2)
                  (fst (save 1 true (tiny_world "run" 10 1))))).
  vm_compute. reflexivity.
Defined.



(** ** More on the optimizer *)



Lemma clamp_within c x : (0 <= c)%R -> (Rabs (clamp c x) <= c)%R.
Proof.
  intros Hc. unfold clamp. apply Rabs_le.
  unfold Rmin, Rmax.
  destruct (Rle_dec x (- c)); destruct (Rle_dec _ c); lra.
Qed.

Lemma init_optimizer_no_steps config net optimizer o net' :
  init_optimizer config net optimizer = Ok (o, net') ->
  steps (optim_state o) = 0.
Proof.
  unfold init_optimizer.
  destruct (String.eqb _ "sgd"); [|destruct (String.eqb _ "adam")];
    cbn [bind]; intros H; try discriminate H; injection H as <- <-; reflexivity.
Qed.

(** X10.  [init_optimizer] never changes a parameter.  The optimizer it builds
    has no buffers and has made no step.  Gradients the parameters hold are
    clamped entry by entry to [-0.5, 0.5], so none exceeds 0.5 in magnitude
    afterwards; parameters without a gradient stay without. *)
Theorem init_optimizer_clips_held_gradients config net optimizer o net' :
  init_optimizer config net optimizer = Ok (o, net') ->
  params net' = params net /\
  training net' = training net /\
  buffers (optim_state o) = [] /\
  steps (optim_state o) = 0 /\
  grads net' = option_map (map_weights (clamp (1 / 2))) (grads net) /\
  forall g', grads net' = Some g' -> weights_within (1 / 2) g'.
Proof.
  unfold init_optimizer.
  set (name := match optimizer with
               | Some n => if String.eqb n "" then Config.optimizer config else n
               | None => Config.optimizer config
               end).
  destruct (String.eqb name "sgd"); [|destruct (String.eqb name "adam")];
    cbn [bind]; intros H; try discriminate H; injection H as <- <-;
    (repeat (split; [reflexivity|]));
    cbn [grads clip_grad_value_ set_grads];
    intros g' Hg'; destruct (grads net) as [g|]; try discriminate Hg';
    cbn in Hg'; injection Hg' as <-;
    unfold weights_within, map_weights; cbn;
    repeat split; intros; apply clamp_within; lra.
Qed.

Lemma init_optimizer_clips_held_gradients_witness :
  let net := set_grads (Some (map_weights (fun _ => 2%R)
                                (params (network (tiny_model Adam "adam" "run" 10 1 adam_state)))))
               (network (tiny_model Adam "adam" "run" 10 1 adam_state)) in
  let o := mkOptimizer Adam adam_state in
  let net' := clip_grad_value_ (1 / 2) net in
  params net' = params net /\
  training net' = training net /\
  buffers (optim_state o) = [] /\
  steps (optim_state o) = 0 /\
  grads net' = option_map (map_weights (clamp (1 / 2))) (grads net) /\
  forall g', grads net' = Some g' -> weights_within (1 / 2) g'.
Proof.
  intros net o net'.
  apply (init_optimizer_clips_held_gradients (tiny_config "adam" "run" 10 1) net None o net').
  reflexivity.
Defined.

(** ** More on the initialization of a fresh model *)

(** X11.  Without a checkpoint, when the embedding file of the configuration is
    not an existing path and consists of digits only, [Model.__init__]
    raises NotImplementedError and has changed neither the configuration nor
    the vocabulary of the caller. *)
Theorem fresh_model_without_embedding_source env given fs0 c :
  path_exists fs0 (Config.embed_file (caller_config c)) = false ->
  isdigit (Config.embed_file (caller_config c)) = true ->
  Model_init env given None fs0 c = (c, Raise NotImplementedError).
Proof.
  intros Hp Hd. unfold Model_init, load_embedding. unfold_M. cbn.
  rewrite Hp, Hd. reflexivity.
Qed.

Lemma fresh_model_without_embedding_source_witness :
  Model_init (scripted_env [] 2) (Some tiny_classes) None empty_fs
     (mkCaller (Config.mk "cpu" "300" "adam" (1 # 10) (9 # 10) 0 (1 # 5)
                          1 1 10 1 "Micro-F1" "results" "run" None)
               (Some tiny_vocab))
  = (mkCaller (Config.mk "cpu" "300" "adam" (1 # 10) (9 # 10) 0 (1 # 5)
                         1 1 10 1 "Micro-F1" "results" "run" None)
              (Some tiny_vocab),
     Raise NotImplementedError).
Proof.
  apply (fresh_model_without_embedding_source (scripted_env [] 2) (Some tiny_classes)
           empty_fs).
  - reflexivity.
  - reflexivity.
Defined.

(** X12.  A fresh model that [Model.__init__] returns starts at epoch 0 with the
    best metric 0 and an optimizer that has made no step; it has the classes
    it was given, and the configuration of the caller holds their number.
    Its vocabulary is the vocabulary object of the caller, which now holds
    the vectors: those read from the embedding file when that path exists,
    whatever its name, and otherwise the pretrained vectors of that name. *)
Theorem fresh_model_fields env given fs0 c c' m :
  Model_init env given None fs0 c = (c', Ok m) ->
  exists l wd0 v,
    given = Some l /\
    caller_word_dict c = Some wd0 /\
    classes m = l /\
    start_epoch m = 0%Z /\
    best_metric m = 0%Q /\
    steps (optim_state (optimizer m)) = 0 /\
    config m = Config.set_num_class (caller_config c) (length l) /\
    caller_config c' = config m /\
    caller_word_dict c' = Some (word_dict m) /\
    word_dict m = set_vectors wd0 v /\
    (if path_exists fs0 (Config.embed_file (caller_config c))
     then v = get_embedding_weights_from_file env wd0 (Config.embed_file (caller_config c))
     else isdigit (Config.embed_file (caller_config c)) = false /\
          load_vectors env wd0 (Config.embed_file (caller_config c)) = Ok v).
Proof.
  unfold Model_init. unfold mbind at 1, gets at 1.
  unfold mbind at 1. unfold mbind at 1.
  destruct (load_embedding env fs0 c) as [c1 [wd|e]] eqn:Hle; [|cbn; discriminate].
  assert (Hemb : exists wd0 v,
            caller_word_dict c = Some wd0 /\ wd = set_vectors wd0 v /\
            c1 = mkCaller (caller_config c) (Some wd) /\
            (if path_exists fs0 (Config.embed_file (caller_config c))
             then v = get_embedding_weights_from_file env wd0
                        (Config.embed_file (caller_config c))
             else isdigit (Config.embed_file (caller_config c)) = false /\
                  load_vectors env wd0 (Config.embed_file (caller_config c)) = Ok v)).
  { revert Hle. unfold load_embedding. unfold_M. cbn.
    destruct (path_exists fs0 _).
    - destruct (caller_word_dict c) as [wd0|]; cbn; [|discriminate].
      intros H; injection H as <- <-. eauto 10.
    - destruct (isdigit _); cbn; [discriminate|].
      destruct (caller_word_dict c) as [wd0|]; cbn; [|discriminate].
      destruct (load_vectors env wd0 _) as [v|e] eqn:Hv; cbn; [|discriminate].
      intros H; injection H as <- <-. exists wd0, v. auto. }
  destruct Hemb as (wd0 & v & Hwd0 & -> & -> & Hsrc).
  unfold_M. cbn -[get_network init_optimizer load_state_dict].
  destruct given as [l|]; cbn -[get_network init_optimizer load_state_dict];
    [|discriminate].
  destruct (get_network env _ v) as [net|e] eqn:Hnet;
    cbn -[init_optimizer load_state_dict]; [|discriminate].
  destruct (init_optimizer _ net None) as [[opt net']|e] eqn:Hopt; cbn; [|discriminate].
  intros H; injection H as <- <-.
  pose proof (init_optimizer_no_steps _ _ _ _ _ Hopt) as Hsteps.
  exists l, wd0, v. cbn. repeat split; try assumption.
Qed.

Lemma fresh_model_fields_witness :
  let c := tiny_caller "adam" "run" 10 1 in
  let m := tiny_model Adam "adam" "run" 10 1 adam_state in
  let c' := mkCaller (Config.set_num_class (tiny_config "adam" "run" 10 1) 1)
                     (Some (set_vectors tiny_vocab tiny_embed)) in
  exists l wd0 v,
    Some tiny_classes = Some l /\
    caller_word_dict c = Some wd0 /\
    classes m = l /\
    start_epoch m = 0%Z /\
    best_metric m = 0%Q /\
    steps (optim_state (optimizer m)) = 0 /\
    config m = Config.set_num_class (caller_config c) (length l) /\
    caller_config c' = config m /\
    caller_word_dict c' = Some (word_dict m) /\
    word_dict m = set_vectors wd0 v /\
    (if path_exists empty_fs (Config.embed_file (caller_config c))
     then v = get_embedding_weights_from_file (scripted_env [] 2) wd0
                (Config.embed_file (caller_config c))
     else isdigit (Config.embed_file (caller_config c)) = false /\
          load_vectors (scripted_env [] 2) wd0 (Config.embed_file (caller_config c)) = Ok v).
Proof.
  apply (fresh_model_fields (scripted_env [] 2) (Some tiny_classes) empty_fs
           (tiny_caller "adam" "run" 10 1)).
  reflexivity.
Defined.

(** ** More on the training loop *)

(** X15.  With patience 0, or when the start epoch has reached the configured
    number of epochs, [train] runs no epoch: it returns, and model and files
    are as before. *)
Theorem train_without_patience_or_budget env train_dataset dev_dataset
    (eval_metric : Metric env) w :
  Config.patience (config (self w)) = 0%Z
  \/ (Config.epochs (config (self w)) <= start_epoch (self w))%Z ->
  train env train_dataset dev_dataset eval_metric w
  = (mkWorld (self w) (fs w)
       (log w ++ StartTraining ::
          (if (start_epoch (self w) + 1 <=? Config.epochs (config (self w)))%Z
           then [ReachPatience] else []))%list,
     Ok true).
Proof.
  intros H. unfold train. unfold mbind at 1, gets at 1.
  unfold mbind at 1, log_info at 1, modify at 1.
  unfold try_except_KeyboardInterrupt. unfold mbind at 1, gets at 1. cbn [self fs log].
  destruct (Z.leb_spec (start_epoch (self w) + 1) (Config.epochs (config (self w))))
    as [Hle|Hgt].
  - destruct H as [Hp|Hb]; [|lia].
    assert (Hloop : forall fuel tl dl w0,
              config (self w0) = config (self w) ->
              train_loop env fuel tl dl eval_metric (start_epoch (self w) + 1)
                         (Config.patience (config (self w))) w0
              = (mkWorld (self w0) (fs w0) (log w0 ++ [ReachPatience]), Ok true)).
    { intros fuel tl dl w0 Hc. destruct fuel; cbn [train_loop];
        unfold mbind at 1, gets at 1; rewrite Hc;
        (destruct (Z.leb_spec (start_epoch (self w) + 1) (Config.epochs (config (self w))));
         [|lia]); rewrite Hp; reflexivity. }
    rewrite Hloop by reflexivity. cbn [self fs log].
    rewrite <- app_assoc. reflexivity.
  - assert (Hloop : forall fuel tl dl p w0,
              config (self w0) = config (self w) ->
              train_loop env fuel tl dl eval_metric (start_epoch (self w) + 1) p w0
              = (w0, Ok true)).
    { intros fuel tl dl p w0 Hc. destruct fuel; cbn [train_loop];
        unfold mbind at 1, gets at 1; rewrite Hc;
        (destruct (Z.leb_spec (start_epoch (self w) + 1) (Config.epochs (config (self w))));
         [lia|]); reflexivity. }
    rewrite Hloop by reflexivity. reflexivity.
Qed.

Lemma train_without_patience_or_budget_witness :
  let w := tiny_world "run" 10 0 in
  train (scripted_env [] 2) tt tt tt w
  = (mkWorld (self w) (fs w)
       (log w ++ StartTraining ::
          (if (start_epoch (self w) + 1 <=? Config.epochs (config (self w)))%Z
           then [ReachPatience] else []))%list,
     Ok true).
Proof.
  apply (train_without_patience_or_budget (scripted_env [] 2) tt tt tt
           (tiny_world "run" 10 0)).
  left. reflexivity.
Defined.

(** ** How training ends *)

Lemma terminated_app l1 l2 : terminated (l1 ++ l2) = terminated l1 || terminated l2.
Proof. apply existsb_app. Qed.

Lemma reached_patience_app l1 l2 :
  reached_patience (l1 ++ l2) = reached_patience l1 || reached_patience l2.
Proof. apply existsb_app. Qed.

Lemma save_events epoch is_best w w' r :
  save epoch is_best w = (w', r) ->
  exists l, log w' = (log w ++ l)%list /\ started_epochs l = [] /\
            terminated l = false /\ reached_patience l = false.
Proof.
  unfold save, state_dict. unfold_M.
  cbn -[path_join replace dirname makedirs torch_save copyfile].
  destruct (makedirs _ (fs w)) as [fs1|e1];
    cbn -[path_join replace dirname makedirs torch_save copyfile].
  2:{ intros H; injection H as <- <-. exists []. rewrite app_nil_r. auto. }
  destruct (torch_save _ _ fs1) as [fs2|e2];
    cbn -[path_join replace dirname makedirs torch_save copyfile].
  2:{ intros H; injection H as <- <-. eexists. split; [reflexivity|]. auto. }
  destruct is_best; cbn -[path_join replace dirname makedirs torch_save copyfile].
  - destruct (copyfile _ _ fs2) as [fs3|e3];
      cbn -[path_join replace dirname makedirs torch_save copyfile];
      intros H; injection H as <- <-;
      eexists; (split; [rewrite <- app_assoc; reflexivity|]); auto.
  - intros H; injection H as <- <-. eexists. split; [reflexivity|]. auto.
Qed.

Lemma run_epoch_events env tl dl em epoch p w w' r :
  run_epoch env tl dl em epoch p w = (w', r) ->
  exists l, log w' = (log w ++ StartingEpoch epoch :: l)%list /\
            started_epochs l = [] /\
            terminated l = false /\ reached_patience l = false.
Proof.
  unfold run_epoch.
  unfold mbind at 1. unfold log_info at 1, modify at 1.
  unfold mbind at 1.
  destruct (train_epoch env tl _) as [w1 [[]|e]] eqn:Ht;
    apply train_epoch_frame in Ht; cbn [self fs log] in Ht;
    destruct Ht as (_ & _ & Hl).
  2:{ intros H; injection H as <- <-. exists []. auto. }
  unfold mbind at 1. unfold log_info at 1, modify at 1.
  unfold mbind at 1. unfold gets at 1. cbn [self].
  unfold mbind at 1. unfold lift at 1.
  destruct (evaluate env _ _ dl em) as [dev_metrics|e].
  2:{ intros H; injection H as <- <-.
      exists [StartValidate]. cbn [log]. rewrite Hl, <- app_assoc. auto. }
  unfold mbind at 1. unfold lift at 1.
  destruct (val_metric_of _ _) as [v|e].
  2:{ intros H; injection H as <- <-.
      exists [StartValidate]. cbn [log]. rewrite Hl, <- app_assoc. auto. }
  unfold mbind at 1. unfold log_info at 1, modify at 1. cbn [self fs log].
  destruct (Qle_bool _ v); cbv iota.
  - unfold mbind at 1. unfold modify at 1.
    unfold mbind at 1.
    match goal with |- context [save epoch true ?w0] => set (wm := w0) end.
    destruct (save epoch true wm) as [w2 [[]|e]] eqn:Hsave;
      apply save_events in Hsave; destruct Hsave as (l2 & Hl2 & Hs2 & Ht2 & Hr2);
      unfold mbind, gets, ret; intros H; injection H as <- <-;
      subst wm; cbn [self fs log on_self] in *;
      exists ([StartValidate; Evaluated epoch v true] ++ l2)%list;
      (split; [rewrite Hl2, Hl, <- !app_assoc; reflexivity|]);
      rewrite started_epochs_app, terminated_app, reached_patience_app, Hs2, Ht2, Hr2;
      auto.
  - unfold mbind at 1. unfold log_info at 1, modify at 1. cbn [self fs log].
    unfold mbind at 1.
    match goal with |- context [save epoch false ?w0] => set (wm := w0) end.
    destruct (save epoch false wm) as [w2 [[]|e]] eqn:Hsave;
      apply save_events in Hsave; destruct Hsave as (l2 & Hl2 & Hs2 & Ht2 & Hr2);
      unfold ret; intros H; injection H as <- <-;
      subst wm; cbn [self fs log] in *;
      exists ([StartValidate; Evaluated epoch v false; NotIncrease p] ++ l2)%list;
      (split; [rewrite Hl2, Hl, <- !app_assoc; reflexivity|]);
      rewrite started_epochs_app, terminated_app, reached_patience_app, Hs2, Ht2, Hr2;
      auto.
Qed.

Lemma train_loop_end env tl dl em fuel :
  forall epoch p w w' r,
  train_loop env fuel tl dl em epoch p w = (w', r) ->
  (Config.epochs (config (self w)) - epoch + 1 <= Z.of_nat fuel)%Z ->
  exists l,
    log w' = (log w ++ l)%list /\
    terminated l = false /\
    match r with
    | Ok _ =>
        if reached_patience l
        then (Z.of_nat (length (started_epochs l))
              < Config.epochs (config (self w)) - epoch + 1)%Z
        else Z.of_nat (length (started_epochs l))
             = Z.max 0 (Config.epochs (config (self w)) - epoch + 1)
    | Raise _ => reached_patience l = false
    end.
Proof.
  induction fuel as [|fuel IH]; intros epoch p w w' r; cbn [train_loop];
    unfold mbind at 1, gets at 1;
    destruct (Z.leb_spec epoch (Config.epochs (config (self w)))) as [Hle|Hgt].
  - destruct (Z.eqb_spec p 0) as [Hp|Hp].
    + unfold mbind, log_info, modify, ret. intros H; injection H as <- <-.
      intros _. exists [ReachPatience]. cbn. split; [reflexivity|]. split; [reflexivity|lia].
    + intros _ Hf. cbn in Hf. lia.
  - unfold ret. intros H; injection H as <- <-. intros _.
    exists []. rewrite app_nil_r. cbn. split; [reflexivity|]. split; [reflexivity|lia].
  - destruct (Z.eqb_spec p 0) as [Hp|Hp].
    + unfold mbind, log_info, modify, ret. intros H; injection H as <- <-.
      intros _. exists [ReachPatience]. cbn. split; [reflexivity|]. split; [reflexivity|lia].
    + unfold mbind at 1.
      destruct (run_epoch env tl dl em epoch p w) as [w1 [p1|e]] eqn:Hrun.
      * pose proof (run_epoch_spec _ _ _ _ _ _ _ _ _ Hrun) as (Hc & _).
        apply run_epoch_events in Hrun. destruct Hrun as (l1 & Hl1 & Hs1 & Ht1 & Hr1).
        intros Hloop Hf. apply IH in Hloop; [|rewrite Hc; lia].
        destruct Hloop as (l2 & Hl2 & Ht2 & Hend). rewrite Hc in Hend.
        exists (StartingEpoch epoch :: l1 ++ l2)%list.
        split; [rewrite Hl2, Hl1, <- app_assoc; reflexivity|].
        split; [cbn [terminated existsb orb]; fold (terminated (l1 ++ l2));
                rewrite terminated_app, Ht1, Ht2; reflexivity|].
        assert (Hr : reached_patience (StartingEpoch epoch :: l1 ++ l2)
                     = reached_patience l2).
        { cbn [reached_patience existsb orb]. fold (reached_patience (l1 ++ l2)).
          rewrite reached_patience_app, Hr1. reflexivity. }
        assert (Hs : length (started_epochs (StartingEpoch epoch :: l1 ++ l2))
                     = S (length (started_epochs l2))).
        { change (started_epochs (StartingEpoch epoch :: l1 ++ l2))
            with (epoch :: started_epochs (l1 ++ l2)).
          rewrite started_epochs_app, Hs1. reflexivity. }
        rewrite Hr, Hs. destruct r as [b|e]; [|exact Hend].
        destruct (reached_patience l2); lia.
      * apply run_epoch_events in Hrun. destruct Hrun as (l1 & Hl1 & Hs1 & Ht1 & Hr1).
        intros H; injection H as <- <-. intros _.
        exists (StartingEpoch epoch :: l1). split; [exact Hl1|].
        split; [exact Ht1|exact Hr1].
  - unfold ret. intros H; injection H as <- <-. intros _.
    exists []. rewrite app_nil_r. cbn. split; [reflexivity|]. split; [reflexivity|lia].
Qed.

(** X16.  When [train] returns, the log tells why the loop ended: an
    interrupt was caught, and the line that says so is the last one; or no
    interrupt was caught, and then either the patience line was logged and
    fewer epochs were started than the configured number allows, or every
    epoch from the start epoch plus one to the configured number was
    started. *)
Theorem training_ends_for_a_logged_reason env train_dataset dev_dataset
    (eval_metric : Metric env) w :
  let w' := fst (train env train_dataset dev_dataset eval_metric w) in
  let r := snd (train env train_dataset dev_dataset eval_metric w) in
  let l := new_events w w' in
  let budget := (Config.epochs (config (self w)) - start_epoch (self w))%Z in
  forall b, r = Ok b ->
    (terminated l = true /\ last l = Some Terminated)
    \/ (terminated l = false /\ reached_patience l = true /\
        (Z.of_nat (length (started_epochs l)) < budget)%Z)
    \/ (terminated l = false /\ reached_patience l = false /\
        Z.of_nat (length (started_epochs l)) = Z.max 0 budget).
Proof.
  cbv zeta.
  destruct (train env train_dataset dev_dataset eval_metric w) as [w' r] eqn:Htrain.
  cbn [fst snd]. revert Htrain.
  unfold train. unfold mbind at 1, gets at 1.
  unfold mbind at 1, log_info at 1, modify at 1.
  unfold try_except_KeyboardInterrupt.
  unfold mbind at 1, gets at 1. cbn [self fs log].
  match goal with
  | |- context [train_loop env ?f ?tl ?dl ?em ?e ?p ?w0] =>
      destruct (train_loop env f tl dl em e p w0) as [w1 r1] eqn:Hloop
  end.
  apply train_loop_end in Hloop; cbn [self fs log] in *.
  2:{ destruct (Z.le_gt_cases (start_epoch (self w)) (Config.epochs (config (self w)))).
      - rewrite Z2Nat.id by lia. lia.
      - lia. }
  destruct Hloop as (l & Hl & Ht & Hend).
  replace (Config.epochs (config (self w)) - (start_epoch (self w) + 1) + 1)%Z
    with (Config.epochs (config (self w)) - start_epoch (self w))%Z in Hend by lia.
  rewrite <- app_assoc in Hl. cbn [app] in Hl.
  destruct r1 as [b1|e].
  - intros Heq b Hb. injection Heq as <- _.
    rewrite (new_events_app _ _ _ Hl).
    change (terminated (StartTraining :: l)) with (terminated l).
    change (reached_patience (StartTraining :: l)) with (reached_patience l).
    change (started_epochs (StartTraining :: l)) with (started_epochs l).
    rewrite Ht. right.
    destruct (reached_patience l); [left|right]; auto.
  - destruct e; try (intros Heq b Hb; injection Heq as _ <-; discriminate Hb).
    unfold mbind, log_info, modify, ret. intros Heq b _. injection Heq as <- _.
    left.
    assert (Hl' : log (mkWorld (self w1) (fs w1) (log w1 ++ [Terminated]))
                  = (log w ++ StartTraining :: l ++ [Terminated])%list).
    { cbn [log]. rewrite Hl, <- app_assoc. reflexivity. }
    rewrite (new_events_app _ _ _ Hl').
    change (terminated (StartTraining :: l ++ [Terminated]))
      with (terminated (l ++ [Terminated])).
    rewrite terminated_app.
    split; [apply orb_true_r|].
    rewrite app_comm_cons. apply last_snoc.
Qed.

Lemma training_ends_for_a_logged_reason_witness :
  let env := scripted_env [(7 # 10)%Q; (65 # 100)%Q] 2 in
  let w := tiny_world "run" 10 1 in
  let l := new_events w (fst (train env tt tt tt w)) in
  terminated l = false /\ reached_patience l = true /\
  (Z.of_nat (length (started_epochs l)) < 10 - 0)%Z.
Proof.
  intros env w l.
  destruct (training_ends_for_a_logged_reason env tt tt tt w true) as [H|[H|H]].
  - vm_compute. reflexivity.
  - destruct H as [H _]. vm_compute in H. discriminate H.
  - exact H.
  - destruct H as (_ & H & _). vm_compute in H. discriminate H.
Defined.

(** * utils.utils *)

Section Meter.

Local Open Scope R_scope.

Lemma update_run v n m :
  (AverageMeter.count m + n <> 0)%Z ->
  AverageMeter.update v n m
  = (AverageMeter.mk v ((AverageMeter.sum m + v * IZR n)
                        / IZR (AverageMeter.count m + n))
                     (AverageMeter.sum m + v * IZR n)
                     (AverageMeter.count m + n), Ok tt).
Proof.
  intros H. unfold AverageMeter.update. unfold_M. cbn.
  destruct (Z.eqb_spec (AverageMeter.count m + n) 0) as [E|_]; [contradiction|].
  reflexivity.
Qed.

Lemma updates_from l :
  forall m,
  (0 <= AverageMeter.count m)%Z ->
  l <> [] -> Forall (fun vn => (0 < snd vn)%Z) l ->
  updates l m
  = (AverageMeter.mk (List.last (map fst l) 0)
       ((AverageMeter.sum m + weighted_sum l)
        / IZR (AverageMeter.count m + total_weight l))
       (AverageMeter.sum m + weighted_sum l)
       (AverageMeter.count m + total_weight l), Ok tt).
Proof.
  induction l as [|[v n] rest IH]; intros m Hc Hne Hall; [contradiction|].
  inversion Hall as [|? ? Hn Hrest]; subst. cbn [snd] in Hn.
  cbn [updates]. unfold mbind at 1. rewrite update_run by lia.
  destruct rest as [|vn rest'].
  - cbn. unfold ret. rewrite Rplus_0_r, Z.add_0_r. reflexivity.
  - rewrite IH; [|cbn; lia|discriminate|exact Hrest].
    cbn [AverageMeter.sum AverageMeter.count].
    change (weighted_sum ((v, n) :: vn :: rest'))
      with (v * IZR n + weighted_sum (vn :: rest')).
    change (total_weight ((v, n) :: vn :: rest'))
      with (n + total_weight (vn :: rest'))%Z.
    rewrite Rplus_assoc, Z.add_assoc.
    change (map fst ((v, n) :: vn :: rest')) with (v :: map fst (vn :: rest')).
    change (map fst (vn :: rest')) with (fst vn :: map fst rest').
    reflexivity.
Qed.

End Meter.

(** X17.  After one or more [update] calls with positive weights on a new meter,
    no call having raised, the meter holds the last value, the total weight,
    the weighted sum of the values, and their weighted mean as [avg]. *)
Theorem meter_average_is_weighted_mean l :
  l <> [] -> Forall (fun vn => (0 < snd vn)%Z) l ->
  snd (updates l AverageMeter.init) = Ok tt /\
  let m := fst (updates l AverageMeter.init) in
  AverageMeter.val m = List.last (map fst l) 0%R /\
  AverageMeter.count m = total_weight l /\
  AverageMeter.sum m = weighted_sum l /\
  AverageMeter.avg m = (weighted_sum l / IZR (total_weight l))%R.
Proof.
  intros Hne Hall.
  rewrite (updates_from l AverageMeter.init) by (cbn; try lia; assumption).
  cbn [fst snd AverageMeter.init AverageMeter.val AverageMeter.count
       AverageMeter.sum AverageMeter.avg].
  rewrite Rplus_0_l, Z.add_0_l. auto.
Qed.

Lemma meter_average_is_weighted_mean_witness :
  snd (updates [(2, 1%Z); (5, 3%Z)]%R AverageMeter.init) = Ok tt /\
  AverageMeter.avg (fst (updates [(2, 1%Z); (5, 3%Z)]%R AverageMeter.init))
  = ((2 * 1 + (5 * 3 + 0)) / 4)%R.
Proof.
  destruct (meter_average_is_weighted_mean [(2, 1%Z); (5, 3%Z)]%R) as (H1 & _ & _ & _ & H2).
  - discriminate.
  - repeat constructor.
  - split; [exact H1|exact H2].
Defined.

Section Clock.

Local Open Scope R_scope.

Lemma timer_calls_inv calls :
  forall t tm now,
  timer_inv t tm -> clock_ordered t calls now ->
  timer_inv now (timer_calls calls tm).
Proof.
  unfold timer_inv.
  induction calls as [|[c t'] rest IH]; intros t tm now [H0 Hi] Hord;
    cbn [clock_ordered timer_calls] in *.
  - split; [exact H0|]. intros Hr. specialize (Hi Hr). lra.
  - destruct Hord as [Ht Hord].
    destruct c; apply (IH t' _ now); try exact Hord;
      unfold Timer.resume, Timer.stop;
      destruct (Timer.running tm) eqn:Hr; cbn [negb Timer.running Timer.total Timer.start];
      try specialize (Hi eq_refl);
      (split; [lra|intros Hr'; try discriminate Hr'; try congruence; lra]).
Qed.

Lemma timer_bounds t0 calls now :
  clock_ordered t0 calls now ->
  0 <= Timer.time now (timer_calls calls (Timer.reset t0)).
Proof.
  intros Hord.
  assert (H : timer_inv now (timer_calls calls (Timer.reset t0))).
  { apply (timer_calls_inv calls t0); [|exact Hord].
    unfold timer_inv. cbn. split; [lra|intros _; lra]. }
  unfold timer_inv in H. unfold Timer.time.
  destruct (Timer.running _); [|tauto]. destruct H as [H0 H1]. specialize (H1 eq_refl). lra.
Qed.

End Clock.

(** X19.  With a clock that never goes back, the time a timer reports after
    any calls of [resume] and [stop] is never negative, and a later reading
    never reports less; a stopped timer reports the same time at every
    reading. *)
Theorem timer_never_runs_backwards t0 calls now :
  clock_ordered t0 calls now ->
  let tm := timer_calls calls (Timer.reset t0) in
  (0 <= Timer.time now tm)%R /\
  (forall later, (now <= later)%R -> (Timer.time now tm <= Timer.time later tm)%R) /\
  (Timer.running tm = false -> forall later, Timer.time later tm = Timer.time now tm).
Proof.
  intros Hord. split; [apply timer_bounds; exact Hord|]. split.
  - intros later Hl. unfold Timer.time. destruct (Timer.running _); lra.
  - intros Hr later. unfold Timer.time. rewrite Hr. reflexivity.
Qed.

Lemma timer_never_runs_backwards_witness :
  (0 <= Timer.time 9 (timer_calls [(CallStop, 3); (CallResume, 5)] (Timer.reset 1)))%R.
Proof.
  apply (timer_never_runs_backwards 1 [(CallStop, 3); (CallResume, 5)]%R 9).
  cbn. lra.
Defined.

(** ** The log file *)

Lemma upto_last_slash_length p :
  String.length (upto_last_slash p) <= String.length p.
Proof.
  induction p as [|c p IH]; [reflexivity|].
  cbn [upto_last_slash]. destruct (upto_last_slash p) as [|c' h].
  - destruct (Ascii.eqb c "/"); cbn; lia.
  - cbn [String.length] in *. lia.
Qed.

Lemma rstrip_slash_length s :
  String.length (rstrip_slash s) <= String.length s.
Proof.
  induction s as [|c s IH]; [reflexivity|].
  cbn [rstrip_slash]. destruct (rstrip_slash s) as [|c' t].
  - destruct (Ascii.eqb c "/"); cbn; lia.
  - cbn [String.length] in *. lia.
Qed.

Lemma dirname_length p : String.length (dirname p) <= String.length p.
Proof.
  unfold dirname. pose proof (upto_last_slash_length p) as H1.
  pose proof (rstrip_slash_length (upto_last_slash p)) as H2.
  destruct (negb (String.eqb (upto_last_slash p) "") && negb (all_slashes (upto_last_slash p)));
    lia.
Qed.

Lemma upto_last_slash_shorter p :
  p <> ""%string -> endswith_slash p = false ->
  String.length (upto_last_slash p) < String.length p.
Proof.
  induction p as [|c p IH]; [contradiction|]. intros _ He.
  destruct p as [|c' p'].
  - cbn in He. cbn. rewrite He. cbn. lia.
  - assert (He' : endswith_slash (String c' p') = false) by exact He.
    specialize (IH ltac:(discriminate) He').
    change (upto_last_slash (String c (String c' p')))
      with (match upto_last_slash (String c' p') with
            | EmptyString => if Ascii.eqb c "/" then String c EmptyString else EmptyString
            | String a h => String c (String a h)
            end).
    destruct (upto_last_slash (String c' p')) as [|a h].
    + destruct (Ascii.eqb c "/"); cbn; lia.
    + cbn [String.length] in *. lia.
Qed.

Lemma dirname_shorter p :
  p <> ""%string -> endswith_slash p = false ->
  String.length (dirname p) < String.length p.
Proof.
  intros Hp He. unfold dirname.
  pose proof (upto_last_slash_shorter p Hp He) as H1.
  pose proof (rstrip_slash_length (upto_last_slash p)) as H2.
  destruct (negb (String.eqb (upto_last_slash p) "") && negb (all_slashes (upto_last_slash p)));
    lia.
Qed.

Lemma ancestors_length n :
  forall d a, In a (ancestors n d) -> String.length a <= String.length d.
Proof.
  induction n as [|n IH]; intros d a; cbn [ancestors]; [intros []|].
  destruct (all_slashes d); [intros []|].
  intros [<-|Hin]; [lia|].
  apply IH in Hin. pose proof (dirname_length d). lia.
Qed.

Lemma log_path_run_dir c : log_path c = (run_dir c ++ "logs.json")%string.
Proof. unfold log_path, run_dir, path_join. cbn [fold_left]. apply join2_file. reflexivity. Qed.

Lemma file_name_not_slash d :
  endswith_slash (d ++ "logs.json") = false /\
  all_slashes (d ++ "logs.json") = false /\
  (d ++ "logs.json")%string <> ""%string.
Proof.
  induction d as [|c d (IH1 & IH2 & IH3)]; [repeat split; discriminate|].
  rewrite string_app_cons. split; [|split; [|discriminate]].
  - destruct (d ++ "logs.json")%string as [|c' t] eqn:E; [contradiction|]. exact IH1.
  - cbn [all_slashes]. rewrite IH2. apply andb_false_r.
Qed.

Lemma log_path_not_above c n :
  ~ In (log_path c) (ancestors n (dirname (log_path c))).
Proof.
  intros Hin. apply ancestors_length in Hin.
  rewrite log_path_run_dir in *.
  destruct (file_name_not_slash (run_dir c)) as (He & _ & Hne).
  pose proof (dirname_shorter _ Hne He). lia.
Qed.

Lemma existsb_same {A : Type} (f g : A -> bool) l :
  (forall a, In a l -> f a = g a) -> existsb f l = existsb g l.
Proof.
  induction l as [|x l IH]; intros H; [reflexivity|].
  cbn [existsb]. rewrite (H x) by (left; reflexivity).
  rewrite IH; [reflexivity|]. intros a Ha. apply H. right. exact Ha.
Qed.

Lemma makedirs_ok d fs0 :
  d <> ""%string -> file_on_the_way fs0 d = false ->
  makedirs d fs0
  = Ok (mkFS (dirs fs0 ∪ list_to_set (ancestors (String.length d) d)) (files fs0)).
Proof.
  intros Hd Hway. unfold makedirs, file_on_the_way in *.
  destruct (String.eqb_spec d "") as [E|_]; [contradiction|].
  destruct d as [|c d]; [contradiction|].
  cbn [String.length ancestors] in *.
  destruct (all_slashes (String c d)) eqn:Hs.
  - cbn [tail existsb]. unfold dir_exists. rewrite Hs. cbn [orb negb].
    rewrite andb_false_r. reflexivity.
  - cbn [tail existsb] in *. apply orb_false_iff in Hway. destruct Hway as [Hf Hrest].
    rewrite Hrest, Hf. reflexivity.
Qed.

Lemma dump_log_steps c metrics split d :
  dump_log c metrics split d =
  match makedirs (dirname (log_path c)) (disk_fs d) with
  | Raise e => (d, Raise e)
  | Ok fs1 =>
      match (if is_file fs1 (log_path c)
             then json_load (log_path c) (mkDisk fs1 (json_of d))
             else Ok (JObj ∅)) with
      | Raise e => (mkDisk fs1 (json_of d), Raise e)
      | Ok res =>
          match add_metrics res split metrics with
          | Raise e => (mkDisk fs1 (json_of d), Raise e)
          | Ok v => json_dump v (log_path c) (mkDisk fs1 (json_of d))
          end
      end
  end.
Proof.
  unfold dump_log. fold (log_path c). generalize (log_path c) as p. intros p.
  unfold mbind at 1.
  destruct (makedirs (dirname p) (disk_fs d)) as [fs1|e]; [|reflexivity].
  unfold mbind at 1. cbn [disk_fs json_of].
  destruct (if is_file fs1 p then _ else _) as [res|e]; [|reflexivity].
  unfold mbind, lift.
  destruct (add_metrics res split metrics) as [v|e]; reflexivity.
Qed.

Lemma dump_log_run c metrics split d :
  log_can_be_written c (disk_fs d) ->
  dump_log c metrics split d =
  let above := list_to_set (ancestors (String.length (dirname (log_path c)))
                                      (dirname (log_path c))) in
  match read_log c d with
  | Raise e => (mkDisk (mkFS (dirs (disk_fs d) ∪ above) (files (disk_fs d))) (json_of d),
                Raise e)
  | Ok res =>
      match add_metrics res split metrics with
      | Raise e => (mkDisk (mkFS (dirs (disk_fs d) ∪ above) (files (disk_fs d))) (json_of d),
                    Raise e)
      | Ok (Serializable j) =>
          (mkDisk (mkFS (dirs (disk_fs d) ∪ above)
                        (<[log_path c := DataFile]> (files (disk_fs d))))
                  (<[log_path c := j]> (json_of d)), Ok tt)
      | Ok Unserializable =>
          (mkDisk (mkFS (dirs (disk_fs d) ∪ above)
                        (<[log_path c := DataFile]> (files (disk_fs d))))
                  (delete (log_path c) (json_of d)), Raise TypeError)
      end
  end.
Proof.
  intros (Hdir & Hway & Hnodir). cbv zeta.
  unfold dump_log, read_log. fold (log_path c).
  pose proof (log_path_not_above c (String.length (dirname (log_path c)))) as Habove.
  rewrite log_path_run_dir in *.
  destruct (file_name_not_slash (run_dir c)) as (Hslash & Hall & Hne).
  revert Hdir Hway Hnodir Habove Hslash Hall Hne.
  generalize (run_dir c ++ "logs.json")%string as p.
  intros p Hdir Hway Hnodir Habove Hslash Hall Hne.
  unfold mbind at 1. rewrite (makedirs_ok _ _ Hdir Hway).
  unfold mbind at 1. cbn [disk_fs json_of].
  assert (Hread : (if is_file (mkFS (dirs (disk_fs d) ∪ list_to_set
                                       (ancestors (String.length (dirname p)) (dirname p)))
                                    (files (disk_fs d))) p
                   then json_load p (mkDisk (mkFS (dirs (disk_fs d) ∪ list_to_set
                                       (ancestors (String.length (dirname p)) (dirname p)))
                                    (files (disk_fs d))) (json_of d))
                   else Ok (JObj ∅))
                  = (if is_file (disk_fs d) p then json_load p d else Ok (JObj ∅)))
    by reflexivity.
  rewrite Hread.
  destruct (if is_file (disk_fs d) p then json_load p d else Ok (JObj ∅)) as [res|e];
    [|reflexivity].
  unfold mbind, lift.
  destruct (add_metrics res split metrics) as [res'|e]; [|reflexivity].
  unfold json_dump, write_file. cbn [disk_fs json_of dirs files].
  destruct (String.eqb_spec p "") as [E|_]; [contradiction|].
  assert (Hway' : file_on_the_way
                    (mkFS (dirs (disk_fs d) ∪ list_to_set
                             (ancestors (String.length (dirname p)) (dirname p)))
                          (files (disk_fs d))) (dirname p) = false) by exact Hway.
  rewrite Hway'.
  assert (Hd1 : dir_exists
                  (mkFS (dirs (disk_fs d) ∪ list_to_set
                           (ancestors (String.length (dirname p)) (dirname p)))
                        (files (disk_fs d))) (dirname p) = true).
  { apply (makedirs_dir_exists (dirname p) (disk_fs d)). apply makedirs_ok; assumption. }
  rewrite Hd1. cbn [negb].
  assert (Hd2 : dir_exists
                  (mkFS (dirs (disk_fs d) ∪ list_to_set
                           (ancestors (String.length (dirname p)) (dirname p)))
                        (files (disk_fs d))) p = false).
  { unfold dir_exists in *. rewrite Hall in *. cbn [orb dirs] in *.
    apply bool_decide_eq_false in Hnodir. apply bool_decide_eq_false.
    intros Hin. apply elem_of_union in Hin. destruct Hin as [Hin|Hin]; [contradiction|].
    apply elem_of_list_to_set in Hin. apply list_elem_of_In in Hin. contradiction. }
  rewrite Hd2, Hslash. cbn [orb].
  destruct res'; reflexivity.
Qed.

Lemma read_log_after_dump c fs1 fls js res :
  read_log c (mkDisk (mkFS fs1 (<[log_path c := DataFile]> fls)) (<[log_path c := res]> js))
  = Ok res.
Proof.
  unfold read_log, is_file, json_load. cbn [disk_fs json_of files].
  rewrite !lookup_insert_eq. reflexivity.
Qed.

Lemma log_can_be_written_after c fs0 :
  log_can_be_written c fs0 ->
  log_can_be_written c
    (mkFS (dirs fs0 ∪ list_to_set (ancestors (String.length (dirname (log_path c)))
                                             (dirname (log_path c))))
          (<[log_path c := DataFile]> (files fs0))).
Proof.
  intros (Hdir & Hway & Hnodir).
  pose proof (log_path_not_above c) as Habove.
  split; [exact Hdir|]. split.
  - unfold file_on_the_way in *. rewrite <- Hway. apply existsb_same.
    intros a Ha. unfold is_file. cbn [files].
    rewrite lookup_insert_ne; [reflexivity|].
    intros E. subst a. exact (Habove _ Ha).
  - unfold dir_exists in *. cbn [dirs].
    apply orb_false_iff in Hnodir. destruct Hnodir as [Hall Hnodir].
    rewrite Hall. cbn [orb].
    apply bool_decide_eq_false in Hnodir. apply bool_decide_eq_false.
    intros Hin. apply elem_of_union in Hin. destruct Hin as [Hin|Hin]; [contradiction|].
    apply elem_of_list_to_set in Hin. apply list_elem_of_In in Hin.
    exact (Habove _ Hin).
Qed.

(** X20.  Where the log file can be written (the log path has a directory
    part, no regular file is at or above that directory, and the log path
    is not a directory), the metrics can be serialized, and the log so far
    is an object in which the entry of [split] is absent or an array,
    [dump_log] returns, and the log file then holds that object with
    [metrics] appended to the entry of [split]; the entries of the other
    splits, and every other file, are as before. *)
Theorem dump_log_appends_to_split c metrics split d m :
  log_can_be_written c (disk_fs d) ->
  read_log c d = Ok (JObj m) ->
  (forall j, m !! split = Some j -> exists l, j = JArr l) ->
  let d' := fst (dump_log c (Serializable metrics) split d) in
  let before := match m !! split with Some (JArr l) => l | _ => [] end in
  snd (dump_log c (Serializable metrics) split d) = Ok tt /\
  json_load (log_path c) d' = Ok (JObj (<[split := JArr (before ++ [metrics])]> m)) /\
  forall q, q <> log_path c ->
    files (disk_fs d') !! q = files (disk_fs d) !! q /\
    json_of d' !! q = json_of d !! q.
Proof.
  intros Hw Hread Harr. cbv zeta. rewrite (dump_log_run _ _ _ _ Hw), Hread. cbv zeta.
  assert (Hadd : add_metrics (JObj m) split (Serializable metrics)
                 = Ok (Serializable
                         (JObj (<[split := JArr (match m !! split with
                                                 | Some (JArr l) => l
                                                 | _ => []
                                                 end ++ [metrics])]> m)))).
  { unfold add_metrics. destruct (m !! split) as [j|] eqn:Hj; [|reflexivity].
    destruct (Harr j eq_refl) as [l ->]. reflexivity. }
  rewrite Hadd. cbn [fst snd disk_fs json_of files dirs].
  split; [reflexivity|]. split.
  - unfold json_load. cbn [disk_fs json_of files]. rewrite !lookup_insert_eq. reflexivity.
  - intros q Hq. rewrite !lookup_insert_ne by congruence. auto.
Qed.

Lemma dump_log_appends_to_split_witness :
  let c := tiny_config "adam" "run" 10 1 in
  let d := mkDisk empty_fs ∅ in
  snd (dump_log c (Serializable (JNum (7 # 10))) "dev" d) = Ok tt /\
  json_load (log_path c) (fst (dump_log c (Serializable (JNum (7 # 10))) "dev" d))
  = Ok (JObj (<["dev"%string := JArr [JNum (7 # 10)]]> ∅)).
Proof.
  cbv zeta.
  destruct (dump_log_appends_to_split (tiny_config "adam" "run" 10 1)
              (JNum (7 # 10)) "dev" (mkDisk empty_fs ∅) ∅) as (H1 & H2 & _).
  - split; [vm_compute; discriminate|]. split; reflexivity.
  - reflexivity.
  - intros j Hj. rewrite lookup_empty in Hj. discriminate Hj.
  - split; [exact H1|exact H2].
Defined.

(** X21.  What a [dump_log] that raises leaves behind.  Every file other
    than the log file is as before.  When the metrics can be serialized, the
    log file and its document are as before too.  When they cannot, and the
    log file can be written and the log so far is an object in which the
    entry of [split] is absent or an array, [dump_log] raises TypeError
    after it has truncated the log file, which then holds no document: the
    log so far is lost. *)
Theorem dump_log_failure_outcomes c metrics split d e :
  snd (dump_log c metrics split d) = Raise e ->
  let d' := fst (dump_log c metrics split d) in
  (forall q, q <> log_path c ->
     files (disk_fs d') !! q = files (disk_fs d) !! q /\
     json_of d' !! q = json_of d !! q) /\
  ((exists j, metrics = Serializable j) ->
   files (disk_fs d') = files (disk_fs d) /\ json_of d' = json_of d) /\
  (metrics = Unserializable ->
   log_can_be_written c (disk_fs d) ->
   forall m, read_log c d = Ok (JObj m) ->
     (forall j, m !! split = Some j -> exists l, j = JArr l) ->
     e = TypeError /\
     files (disk_fs d') !! log_path c = Some DataFile /\
     json_load (log_path c) d' = Raise ValueError).
Proof.
  intros Hraise. cbv zeta. split; [|split].
  - revert Hraise. rewrite dump_log_steps. generalize (log_path c) as p. intros p.
    destruct (makedirs (dirname p) (disk_fs d)) as [fs1|e1] eqn:Hmk;
      [|cbn [fst snd]; auto].
    apply makedirs_files in Hmk.
    destruct (if is_file fs1 p then _ else _) as [res|e1];
      [|cbn [fst snd disk_fs json_of]; rewrite Hmk; auto].
    destruct (add_metrics res split metrics) as [res'|e1];
      [|cbn [fst snd disk_fs json_of]; rewrite Hmk; auto].
    unfold json_dump. cbn [disk_fs json_of].
    destruct (write_file p DataFile fs1) as [fs2|e2] eqn:Hwr;
      [|cbn [fst snd disk_fs json_of]; rewrite Hmk; auto].
    apply write_file_files in Hwr.
    destruct res'; cbn [fst snd disk_fs json_of]; intros _ q Hq; rewrite Hwr, Hmk.
    + rewrite !lookup_insert_ne by congruence. auto.
    + rewrite lookup_insert_ne, lookup_delete_ne by congruence. auto.
  - intros [j ->]. revert Hraise.
    rewrite dump_log_steps. generalize (log_path c) as p. intros p.
    destruct (makedirs (dirname p) (disk_fs d)) as [fs1|e1] eqn:Hmk;
      [|cbn [fst snd]; auto].
    apply makedirs_files in Hmk.
    destruct (if is_file fs1 p then _ else _) as [res|e1];
      [|cbn [fst snd disk_fs json_of]; auto].
    destruct (add_metrics res split (Serializable j)) as [res'|e1] eqn:Hadd;
      [|cbn [fst snd disk_fs json_of]; auto].
    assert (Hser : exists j', res' = Serializable j').
    { unfold add_metrics in Hadd. destruct res; try discriminate Hadd.
      destruct (members !! split) as [[]|]; try discriminate Hadd;
        injection Hadd as <-; eauto. }
    destruct Hser as [j' ->].
    unfold json_dump. cbn [disk_fs json_of].
    destruct (write_file p DataFile fs1) as [fs2|e2];
      cbn [fst snd disk_fs json_of]; [intros H; discriminate H|auto].
  - intros -> Hw m Hread Harr. revert Hraise.
    rewrite (dump_log_run _ _ _ _ Hw), Hread. cbv zeta.
    assert (Hadd : add_metrics (JObj m) split Unserializable = Ok Unserializable).
    { unfold add_metrics. destruct (m !! split) as [j|] eqn:Hj; [|reflexivity].
      destruct (Harr j eq_refl) as [l ->]. reflexivity. }
    rewrite Hadd. cbn [fst snd disk_fs json_of files].
    intros He. injection He as <-. split; [reflexivity|].
    split; [apply lookup_insert_eq|].
    unfold json_load. cbn [disk_fs json_of files].
    rewrite lookup_insert_eq, lookup_delete_eq. reflexivity.
Qed.

Lemma dump_log_failure_outcomes_witness :
  let c := tiny_config "adam" "run" 10 1 in
  let d := fst (dump_log c (Serializable (JNum (7 # 10))) "dev" (mkDisk empty_fs ∅)) in
  json_load (log_path c) d = Ok (JObj (<["dev"%string := JArr [JNum (7 # 10)]]> ∅)) /\
  snd (dump_log c Unserializable "dev" d) = Raise TypeError /\
  json_load (log_path c) (fst (dump_log c Unserializable "dev" d)) = Raise ValueError.
Proof.
  cbv zeta.
  split; [vm_compute; reflexivity|]. split; [vm_compute; reflexivity|].
  match goal with
  | |- json_load _ (fst (dump_log ?c0 _ _ ?d0)) = _ =>
      destruct (dump_log_failure_outcomes c0 Unserializable "dev" d0 TypeError)
        as (_ & _ & H)
  end.
  - vm_compute. reflexivity.
  - apply (H eq_refl) with (m := <["dev"%string := JArr [JNum (7 # 10)]]> ∅).
    + split; [vm_compute; discriminate|]. split; vm_compute; reflexivity.
    + vm_compute. reflexivity.
    + intros j Hj. rewrite lookup_insert_eq in Hj. injection Hj as <-. eauto.
Defined.

Lemma entry_of_snoc l x : entry_of (l ++ [x]) = Some (JArr (l ++ [x])).
Proof. destruct l; reflexivity. Qed.

Lemma dump_logs_from c calls :
  forall d m0 (E0 : string -> list Json),
  log_can_be_written c (disk_fs d) ->
  read_log c d = Ok (JObj m0) ->
  (forall s, m0 !! s = entry_of (E0 s)) ->
  snd (dump_logs c calls d) = Ok tt /\
  (exists m,
     read_log c (fst (dump_logs c calls d)) = Ok (JObj m) /\
     forall s, m !! s = entry_of (E0 s ++ metrics_of s calls)) /\
  forall q, q <> log_path c ->
    files (disk_fs (fst (dump_logs c calls d))) !! q = files (disk_fs d) !! q /\
    json_of (fst (dump_logs c calls d)) !! q = json_of d !! q.
Proof.
  induction calls as [|[split metrics] rest IH]; intros d m0 E0 Hw Hread Hm0.
  - cbn. split; [reflexivity|]. split; [|auto].
    exists m0. split; [exact Hread|]. intros s. rewrite app_nil_r. apply Hm0.
  - cbn [dump_logs]. unfold mbind. rewrite (dump_log_run _ _ _ _ Hw), Hread. cbv zeta.
    assert (Hadd : add_metrics (JObj m0) split (Serializable metrics)
                   = Ok (Serializable (JObj (<[split := JArr (E0 split ++ [metrics])]> m0)))).
    { unfold add_metrics. rewrite Hm0. destruct (E0 split); reflexivity. }
    rewrite Hadd.
    match goal with
    | |- context [dump_logs c rest ?d1] => set (d1' := d1)
    end.
    specialize (IH d1' (<[split := JArr (E0 split ++ [metrics])]> m0)
                  (fun s => if String.eqb split s then E0 s ++ [metrics] else E0 s)%list).
    destruct IH as (Hok & (m & Hm & Hentries) & Hother).
    + subst d1'. cbn [disk_fs]. apply log_can_be_written_after. exact Hw.
    + subst d1'. apply read_log_after_dump.
    + intros s. destruct (String.eqb_spec split s) as [<-|Hne].
      * rewrite lookup_insert_eq. symmetry. apply entry_of_snoc.
      * rewrite lookup_insert_ne by exact Hne. apply Hm0.
    + split; [exact Hok|]. split.
      * exists m. split; [exact Hm|]. intros s. rewrite Hentries.
        cbn [metrics_of]. destruct (String.eqb split s).
        -- rewrite <- app_assoc. reflexivity.
        -- reflexivity.
      * intros q Hq. destruct (Hother q Hq) as [H1 H2]. rewrite H1, H2.
        subst d1'. cbn [disk_fs json_of files].
        rewrite !lookup_insert_ne by congruence. auto.
Qed.

(** X22.  Where the log file can be written and there is no log file yet,
    any sequence of [dump_log] calls with metrics that can be serialized
    returns, and the document the log file then holds maps each split to
    the array of the metrics dumped for it, in call order, and has no other
    entry; every other file is as before. *)
Theorem dump_logs_collect_per_split c calls d :
  log_can_be_written c (disk_fs d) ->
  is_file (disk_fs d) (log_path c) = false ->
  let d' := fst (dump_logs c calls d) in
  snd (dump_logs c calls d) = Ok tt /\
  (exists m,
     read_log c d' = Ok (JObj m) /\
     forall s, m !! s = entry_of (metrics_of s calls)) /\
  forall q, q <> log_path c ->
    files (disk_fs d') !! q = files (disk_fs d) !! q /\
    json_of d' !! q = json_of d !! q.
Proof.
  intros Hw Hfile. cbv zeta.
  apply (dump_logs_from c calls d ∅ (fun _ => [])); [exact Hw| |].
  - unfold read_log. rewrite Hfile. reflexivity.
  - intros s. apply lookup_empty.
Qed.

Lemma dump_logs_collect_per_split_witness :
  let c := tiny_config "adam" "run" 10 1 in
  let calls := [("dev", JNum (7 # 10)); ("test", JNum (6 # 10)); ("dev", JNum (8 # 10))]
               %string in
  snd (dump_logs c calls (mkDisk empty_fs ∅)) = Ok tt /\
  exists m,
    read_log c (fst (dump_logs c calls (mkDisk empty_fs ∅))) = Ok (JObj m) /\
    m !! "dev"%string = Some (JArr [JNum (7 # 10); JNum (8 # 10)]).
Proof.
  cbv zeta.
  destruct (dump_logs_collect_per_split (tiny_config "adam" "run" 10 1)
              [("dev", JNum (7 # 10)); ("test", JNum (6 # 10)); ("dev", JNum (8 # 10))]
              %string
              (mkDisk empty_fs ∅)) as (H1 & (m & Hm & He) & _).
  - split; [vm_compute; discriminate|]. split; reflexivity.
  - reflexivity.
  - split; [exact H1|]. exists m. split; [exact Hm|]. apply (He "dev"%string).
Defined.
